(** * deep-sql-copilot: the workflow graph and its stages

    A shallow embedding of the LangGraph workflow assembled in
    [sql_copilot.py] (six stages, three conditional routers), of the
    stages under [node/] and of the two front ends of [app.py], with the
    properties of the repair loop, of clarification by interrupt and of
    the routers proved over it.

    Conventions.
    - A Python [str] is a list of Unicode code points, so that [len],
      slicing and [in] count characters as Python does.
    - The language model, the agents, the database and the vector store
      are collaborators: each call takes its answer from an environment
      [Env], indexed by how many times that service has been called
      before, and is recorded in a call log.
    - A stage is a function from the state to a computation that either
      returns the new state, asks the user a question (LangGraph's
      [interrupt]) or raises. *)

From Stdlib Require Import List Bool Arith NArith ZArith Lia Sorted.
From Stdlib Require Import Strings.String Strings.Ascii.
Import ListNotations.

Set Implicit Arguments.

(** ** Python strings *)

Module Str.

Definition pystr := list N.

Definition eqb (a b : pystr) : bool :=
  if list_eq_dec N.eq_dec a b then true else false.

(** Truthiness of a [str]: non-empty. *)
Definition truthy (s : pystr) : bool :=
  match s with [] => false | _ :: _ => true end.

(** [len(s)] *)
Definition len (s : pystr) : Z := Z.of_nat (List.length s).

(** UTF-8 decoding of the bytes of a source literal. *)
Fixpoint utf8_go (need : nat) (acc : N) (bs : list N) : pystr :=
  match bs with
  | [] => []
  | b :: r =>
    match need with
    | O =>
      if (b <? 128)%N then b :: utf8_go 0 0%N r
      else if (b <? 224)%N then utf8_go 1 (N.land b 31) r
      else if (b <? 240)%N then utf8_go 2 (N.land b 15) r
      else utf8_go 3 (N.land b 7) r
    | S O => (acc * 64 + N.land b 63)%N :: utf8_go 0 0%N r
    | S k => utf8_go k (acc * 64 + N.land b 63)%N r
    end
  end.

Definition lit (s : string) : pystr :=
  utf8_go 0 0%N (List.map N_of_ascii (list_ascii_of_string s)).

(** [s.startswith(p)] *)
Fixpoint startswith (p s : pystr) : bool :=
  match p, s with
  | [], _ => true
  | _ :: _, [] => false
  | a :: p', b :: s' => (a =? b)%N && startswith p' s'
  end.

(** [sub in s] *)
Fixpoint contains (sub s : pystr) : bool :=
  startswith sub s ||
  match s with
  | [] => false
  | _ :: r => contains sub r
  end.

(** [s[s.index(sub):]] when [sub in s]: the suffix of [s] that begins at
    the first occurrence of [sub]. *)
Fixpoint from_index (sub s : pystr) : pystr :=
  if startswith sub s then s
  else match s with
       | [] => []
       | _ :: r => from_index sub r
       end.

(** [s.split(sep)] for a non-empty [sep] (every call site passes a
    constant): scanning left to right, [skip] counts the characters of a
    separator still to be passed over and [cur] is the piece being
    collected, reversed. *)
Fixpoint split_aux (sep : pystr) (skip : nat) (cur s : pystr) : list pystr :=
  match s with
  | [] => [List.rev cur]
  | c :: r =>
    match skip with
    | S k => split_aux sep k cur r
    | O =>
      if startswith sep s
      then List.rev cur :: split_aux sep (List.length sep - 1) [] r
      else split_aux sep 0 (c :: cur) r
    end
  end.

Definition split (sep s : pystr) : list pystr := split_aux sep 0 [] s.

(** [s.split(sep)[-1]] *)
Definition split_last (sep s : pystr) : pystr := last (split sep s) [].

(** [s.replace(old, new)] for a non-empty [old]. *)
Fixpoint replace_aux (old new : pystr) (skip : nat) (s : pystr) : pystr :=
  match s with
  | [] => []
  | c :: r =>
    match skip with
    | S k => replace_aux old new k r
    | O =>
      if startswith old s
      then new ++ replace_aux old new (List.length old - 1) r
      else c :: replace_aux old new 0 r
    end
  end.

Definition replace (old new s : pystr) : pystr := replace_aux old new 0 s.

(** [str.isspace] on one character: the white-space code points of the
    Unicode character database. *)
Definition isspace (c : N) : bool :=
  ((9 <=? c) && (c <=? 13) || (28 <=? c) && (c <=? 32)
   || (c =? 133) || (c =? 160) || (c =? 5760)
   || (8192 <=? c) && (c <=? 8202)
   || (c =? 8232) || (c =? 8233) || (c =? 8239) || (c =? 8287)
   || (c =? 12288))%N.

Fixpoint lstrip (s : pystr) : pystr :=
  match s with
  | [] => []
  | c :: r => if isspace c then lstrip r else s
  end.

(** [s.strip()] *)
Definition strip (s : pystr) : pystr :=
  List.rev (lstrip (List.rev (lstrip s))).

(** [str(n)] for an [int]. *)
Fixpoint of_uint (d : Decimal.uint) : pystr :=
  match d with
  | Decimal.Nil => []
  | Decimal.D0 r => 48%N :: of_uint r
  | Decimal.D1 r => 49%N :: of_uint r
  | Decimal.D2 r => 50%N :: of_uint r
  | Decimal.D3 r => 51%N :: of_uint r
  | Decimal.D4 r => 52%N :: of_uint r
  | Decimal.D5 r => 53%N :: of_uint r
  | Decimal.D6 r => 54%N :: of_uint r
  | Decimal.D7 r => 55%N :: of_uint r
  | Decimal.D8 r => 56%N :: of_uint r
  | Decimal.D9 r => 57%N :: of_uint r
  end.

Definition of_int (z : Z) : pystr :=
  match z with
  | Z0 => [48%N]
  | Zpos p => of_uint (Pos.to_uint p)
  | Zneg p => 45%N :: of_uint (Pos.to_uint p)
  end.

(** [sep.join(parts)] *)
Fixpoint join (sep : pystr) (parts : list pystr) : pystr :=
  match parts with
  | [] => []
  | [p] => p
  | p :: rest => p ++ sep ++ join sep rest
  end.

(** Case mapping restricted to ASCII letters; it agrees with
    [str.lower] and [str.upper] on every string of ASCII characters. *)
Definition ascii_lower (s : pystr) : pystr :=
  List.map (fun c => if (65 <=? c) && (c <=? 90) then c + 32 else c)%N s.

Definition ascii_upper (s : pystr) : pystr :=
  List.map (fun c => if (97 <=? c) && (c <=? 122) then c - 32 else c)%N s.

End Str.

Abbreviation pystr := Str.pystr.

Definition nl : pystr := [10%N].

(** ** The workflow state ([node/deep_state.py]) *)

Inductive IntentType := QUERY | ANALYZE | OTHER.

Definition IntentType_eqb (a b : IntentType) : bool :=
  match a, b with
  | QUERY, QUERY | ANALYZE, ANALYZE | OTHER, OTHER => true
  | _, _ => false
  end.

Record QueryMessage := { role : pystr; content : pystr }.

(** [Dict[str, Optional[str]]]: a Python dict keeps insertion order, and
    the clarification stage asks its questions in that order, so the
    mapping is an association list with one binding per key. *)
Definition Ambiguity := list (pystr * option pystr).

(** [DeepState].  [execution_time], an optional float that no stage
    reads or writes, is not carried. *)
Record DeepState := {
  user_input : pystr;
  session_id : pystr;
  database : pystr;
  actual_query : pystr;
  messages : list QueryMessage;
  intent_type : IntentType;
  intent_ambiguous : Ambiguity;
  tables : list pystr;
  table_schema : pystr;
  schema_context : pystr;
  final_sql : option pystr;
  query_data : pystr;
  answer : pystr;
  cnt : Z;
  error_message : option pystr
}.

(** Assignment to one attribute of the state. *)
Definition set_actual_query (st : DeepState) (v : pystr) : DeepState :=
  {| user_input := user_input st; session_id := session_id st;
     database := database st; actual_query := v; messages := messages st;
     intent_type := intent_type st; intent_ambiguous := intent_ambiguous st;
     tables := tables st; table_schema := table_schema st;
     schema_context := schema_context st; final_sql := final_sql st;
     query_data := query_data st; answer := answer st; cnt := cnt st;
     error_message := error_message st |}.

Definition set_messages (st : DeepState) (v : list QueryMessage) : DeepState :=
  {| user_input := user_input st; session_id := session_id st;
     database := database st; actual_query := actual_query st; messages := v;
     intent_type := intent_type st; intent_ambiguous := intent_ambiguous st;
     tables := tables st; table_schema := table_schema st;
     schema_context := schema_context st; final_sql := final_sql st;
     query_data := query_data st; answer := answer st; cnt := cnt st;
     error_message := error_message st |}.

Definition set_intent_type (st : DeepState) (v : IntentType) : DeepState :=
  {| user_input := user_input st; session_id := session_id st;
     database := database st; actual_query := actual_query st;
     messages := messages st; intent_type := v;
     intent_ambiguous := intent_ambiguous st;
     tables := tables st; table_schema := table_schema st;
     schema_context := schema_context st; final_sql := final_sql st;
     query_data := query_data st; answer := answer st; cnt := cnt st;
     error_message := error_message st |}.

Definition set_intent_ambiguous (st : DeepState) (v : Ambiguity) : DeepState :=
  {| user_input := user_input st; session_id := session_id st;
     database := database st; actual_query := actual_query st;
     messages := messages st; intent_type := intent_type st;
     intent_ambiguous := v;
     tables := tables st; table_schema := table_schema st;
     schema_context := schema_context st; final_sql := final_sql st;
     query_data := query_data st; answer := answer st; cnt := cnt st;
     error_message := error_message st |}.

Definition set_table_schema (st : DeepState) (v : pystr) : DeepState :=
  {| user_input := user_input st; session_id := session_id st;
     database := database st; actual_query := actual_query st;
     messages := messages st; intent_type := intent_type st;
     intent_ambiguous := intent_ambiguous st;
     tables := tables st; table_schema := v;
     schema_context := schema_context st; final_sql := final_sql st;
     query_data := query_data st; answer := answer st; cnt := cnt st;
     error_message := error_message st |}.

Definition set_schema_context (st : DeepState) (v : pystr) : DeepState :=
  {| user_input := user_input st; session_id := session_id st;
     database := database st; actual_query := actual_query st;
     messages := messages st; intent_type := intent_type st;
     intent_ambiguous := intent_ambiguous st;
     tables := tables st; table_schema := table_schema st;
     schema_context := v; final_sql := final_sql st;
     query_data := query_data st; answer := answer st; cnt := cnt st;
     error_message := error_message st |}.

Definition set_final_sql (st : DeepState) (v : option pystr) : DeepState :=
  {| user_input := user_input st; session_id := session_id st;
     database := database st; actual_query := actual_query st;
     messages := messages st; intent_type := intent_type st;
     intent_ambiguous := intent_ambiguous st;
     tables := tables st; table_schema := table_schema st;
     schema_context := schema_context st; final_sql := v;
     query_data := query_data st; answer := answer st; cnt := cnt st;
     error_message := error_message st |}.

Definition set_query_data (st : DeepState) (v : pystr) : DeepState :=
  {| user_input := user_input st; session_id := session_id st;
     database := database st; actual_query := actual_query st;
     messages := messages st; intent_type := intent_type st;
     intent_ambiguous := intent_ambiguous st;
     tables := tables st; table_schema := table_schema st;
     schema_context := schema_context st; final_sql := final_sql st;
     query_data := v; answer := answer st; cnt := cnt st;
     error_message := error_message st |}.

Definition set_answer (st : DeepState) (v : pystr) : DeepState :=
  {| user_input := user_input st; session_id := session_id st;
     database := database st; actual_query := actual_query st;
     messages := messages st; intent_type := intent_type st;
     intent_ambiguous := intent_ambiguous st;
     tables := tables st; table_schema := table_schema st;
     schema_context := schema_context st; final_sql := final_sql st;
     query_data := query_data st; answer := v; cnt := cnt st;
     error_message := error_message st |}.

Definition set_cnt (st : DeepState) (v : Z) : DeepState :=
  {| user_input := user_input st; session_id := session_id st;
     database := database st; actual_query := actual_query st;
     messages := messages st; intent_type := intent_type st;
     intent_ambiguous := intent_ambiguous st;
     tables := tables st; table_schema := table_schema st;
     schema_context := schema_context st; final_sql := final_sql st;
     query_data := query_data st; answer := answer st; cnt := v;
     error_message := error_message st |}.

(** [state.messages.append(QueryMessage(role=r, content=c))] *)
Definition append_message (st : DeepState) (r c : pystr) : DeepState :=
  set_messages st (messages st ++ [{| role := r; content := c |}]).

(** [d[k] = v]: an existing key keeps its place, a new key goes last. *)
Fixpoint dict_set (d : Ambiguity) (k : pystr) (v : option pystr) : Ambiguity :=
  match d with
  | [] => [(k, v)]
  | (k', v') :: r =>
    if Str.eqb k' k then (k', v) :: r else (k', v') :: dict_set r k v
  end.

Fixpoint dict_get (d : Ambiguity) (k : pystr) : option (option pystr) :=
  match d with
  | [] => None
  | (k', v') :: r => if Str.eqb k' k then Some v' else dict_get r k
  end.

Definition dict_keys (d : Ambiguity) : list pystr := List.map fst d.

(** ** Stages, services, exceptions *)

Inductive Node :=
  query_intent | query_analyze | table_search | sql_coder | sql_fix | analyzer.

(** The collaborators a stage may call. *)
Inductive Service :=
  | SvClassify      (* llm.invoke in parse_intent *)
  | SvSchemas       (* DatabaseManager.get_table_schemas *)
  | SvAnalyze       (* llm.with_structured_output(QueryIntent).invoke *)
  | SvSearchAgent   (* the table_search agent *)
  | SvFieldLookup   (* json.loads + DatabaseManager.get_by_column_id *)
  | SvSqlHistory    (* KnowledgeManager.search_sql *)
  | SvQueryHistory  (* KnowledgeManager.search_query *)
  | SvCoder         (* llm.invoke in code_sql *)
  | SvEngine        (* DatabaseManager.get_engine *)
  | SvExecute       (* pd.read_sql + to_markdown *)
  | SvRepair        (* the sql_fix agent *)
  | SvSummarize     (* llm.invoke in analyze_data *)
  | SvBuildGraph.   (* get_sql_copilot *)

Definition Service_eqb (a b : Service) : bool :=
  match a, b with
  | SvClassify, SvClassify | SvSchemas, SvSchemas | SvAnalyze, SvAnalyze
  | SvSearchAgent, SvSearchAgent | SvFieldLookup, SvFieldLookup
  | SvSqlHistory, SvSqlHistory | SvQueryHistory, SvQueryHistory
  | SvCoder, SvCoder | SvEngine, SvEngine | SvExecute, SvExecute
  | SvRepair, SvRepair | SvSummarize, SvSummarize
  | SvBuildGraph, SvBuildGraph => true
  | _, _ => false
  end.

Inductive Exn :=
  | LLMServiceError (msg : pystr)
  | InvalidQueryError (msg : pystr)
  | GraphRecursionError
  | ServiceError (s : Service) (msg : pystr).

(** [str(e)] *)
Definition exn_str (e : Exn) : pystr :=
  match e with
  | LLMServiceError m | InvalidQueryError m | ServiceError _ m => m
  | GraphRecursionError => []
  end.

(** What happened, newest first: a stage was entered by the engine, or a
    collaborator was called. *)
Inductive Event := Enter (n : Node) | Call (s : Service).

Definition World := list Event.

(** How often service [s] has been called so far. *)
Fixpoint calls (s : Service) (w : World) : nat :=
  match w with
  | [] => 0
  | Call s' :: r => (if Service_eqb s s' then 1 else 0) + calls s r
  | Enter _ :: r => calls s r
  end.

(** The stages entered so far, oldest first. *)
Fixpoint entered (w : World) : list Node :=
  match w with
  | [] => []
  | Enter n :: r => entered r ++ [n]
  | Call _ :: r => entered r
  end.

(** The structured reply of the analysis model ([QueryIntent] in
    [node/query_analyze.py]). *)
Record QueryIntent := {
  qi_thought : pystr;
  qi_intent_ambiguous : list pystr;
  qi_cannot_answer : pystr;
  qi_actual_query : pystr
}.

(** Outcome of decoding the field list in [TableSearchNode.search] and
    fetching the fields: the two rendered tables, a list of the wrong
    shape, or text that is not JSON. *)
Inductive FieldLookup :=
  | FieldsFound (schema_md cols_md : pystr)
  | FieldsMalformed
  | FieldsUndecodable.

(** The environment.  Every collaborator takes the number of earlier
    calls to it first, so that two calls with the same arguments may
    answer differently.  [str_lower], [str_upper] and [id_list_match]
    are the interpreter's [str.lower], [str.upper] and
    [re.search(r'\[[\d,\s]+\]', text)]. *)
Record Env := {
  str_lower : pystr -> pystr;
  str_upper : pystr -> pystr;
  id_list_match : pystr -> option pystr;
  classify_reply : nat -> pystr -> Exn + pystr;
  table_schemas : nat -> pystr -> Exn + option (list (pystr * pystr));
  analyze_reply : nat -> pystr -> pystr -> pystr -> Exn + QueryIntent;
  search_reply : nat -> pystr -> Exn + pystr;
  field_lookup : nat -> pystr -> Exn + FieldLookup;
  sql_history : nat -> list pystr -> Exn + list pystr;
  query_history : nat -> pystr -> Exn + list (pystr * pystr);
  coder_reply : nat -> pystr -> pystr -> pystr -> pystr -> Exn + pystr;
  db_engine : nat -> pystr -> Exn + unit;
  read_sql : nat -> option pystr -> pystr + pystr;
  repair_reply : nat -> pystr -> option pystr -> pystr -> Exn + pystr;
  summary_reply : nat -> pystr -> pystr -> Exn + pystr;
  graph_build : nat -> pystr -> Exn + unit
}.

(** ** Computations: return, interrupt or raise, over the call log *)

Inductive Res (A : Type) :=
  | Ok (a : A) (w : World)
  | Susp (question : pystr) (w : World)
  | Raised (e : Exn) (w : World).

Arguments Susp {A} question w.
Arguments Raised {A} e w.

Definition M (A : Type) := World -> Res A.

Definition ret {A} (a : A) : M A := fun w => Ok a w.

Definition bind {A B} (m : M A) (k : A -> M B) : M B :=
  fun w =>
    match m w with
    | Ok a w' => k a w'
    | Susp q w' => Susp q w'
    | Raised e w' => Raised e w'
    end.

Definition raise {A} (e : Exn) : M A := fun w => Raised e w.

(** [try: m  except Exception as e: h e] *)
Definition try_except {A} (m : M A) (h : Exn -> M A) : M A :=
  fun w =>
    match m w with
    | Raised e w' => h e w'
    | r => r
    end.

(** A call to collaborator [s], answered by [f] at its call index. *)
Definition call {A} (s : Service) (f : nat -> Exn + A) : M A :=
  fun w =>
    match f (calls s w) with
    | inr a => Ok a (Call s :: w)
    | inl e => Raised e (Call s :: w)
    end.

(** A call inside [try: ... except Exception as e: error = str(e)]: the
    failure comes back as the error text. *)
Definition call_caught {A} (s : Service) (f : nat -> pystr + A)
  : M (pystr + A) :=
  fun w => Ok (f (calls s w)) (Call s :: w).

Notation "x <- m ;; k" := (bind m (fun x => k))
  (at level 61, m at next level, right associativity).

(** ** String constants of the stages *)

Definition THINK_END : pystr := Eval vm_compute in Str.lit "</think>".
Definition FENCE : pystr := Eval vm_compute in Str.lit "```".
Definition FENCE_SQL : pystr := Eval vm_compute in Str.lit "```sql".
Definition NONE_TEXT : pystr := Eval vm_compute in Str.lit "None".
Definition COLON_SP : pystr := Eval vm_compute in Str.lit ": ".

Definition LABEL_QUERY : pystr := Eval vm_compute in Str.lit "query".
Definition LABEL_ANALYZE : pystr := Eval vm_compute in Str.lit "analyze".
Definition LABEL_OTHER : pystr := Eval vm_compute in Str.lit "other".
Definition INTENT_QUERY_ZH : pystr := Eval vm_compute in Str.lit "问数".
Definition INTENT_ANALYZE_ZH : pystr := Eval vm_compute in Str.lit "分析".
Definition INTENT_OTHER_ZH : pystr := Eval vm_compute in Str.lit "其他".
Definition INTENT_FAILED : pystr :=
  Eval vm_compute in Str.lit "Intent analysis failed: ".

Definition ROLE_ROUTE : pystr := Eval vm_compute in Str.lit "路由".
Definition ROLE_ANALYZE : pystr := Eval vm_compute in Str.lit "查询分析".
Definition ROLE_SEARCH : pystr := Eval vm_compute in Str.lit "知识搜索".
Definition ROLE_CODER : pystr := Eval vm_compute in Str.lit "SQL生成".
Definition ROLE_FIX : pystr := Eval vm_compute in Str.lit "SQL修复".
Definition ROLE_REPORT : pystr := Eval vm_compute in Str.lit "报告分析".

Definition LBRACKET : pystr := Eval vm_compute in Str.lit "[".
Definition FIELDS_MALFORMED_MSG : pystr :=
  Eval vm_compute in Str.lit "搜索到的字段格式不正确，请重试。".
Definition FIELDS_UNDECODABLE_MSG : pystr :=
  Eval vm_compute in Str.lit "字段搜索结果解析失败: ".

Definition NO_SQL_HISTORY : pystr := Eval vm_compute in Str.lit "无参考SQL".
Definition NO_QUERY_HISTORY : pystr := Eval vm_compute in Str.lit "无参考查询".
Definition SQL_KEYWORDS : list pystr :=
  Eval vm_compute in
    List.map Str.lit ["SELECT"; "INSERT"; "UPDATE"; "DELETE"]%string.
Definition INVALID_SQL_MSG : pystr :=
  Eval vm_compute in
    Str.lit "无法生成有效的SQL语句，请检查查询条件和数据库结构。".

Definition TAG_SQL : pystr := Eval vm_compute in Str.lit "[sql]".
Definition TAG_REPLY : pystr := Eval vm_compute in Str.lit "[回复]".
Definition FIX_MIDDLE : pystr := Eval vm_compute in Str.lit "修复错误".
Definition FIX_FAILED : pystr := Eval vm_compute in Str.lit "SQL修复失败: ".
Definition EXHAUSTED_MSG : pystr :=
  Eval vm_compute in
    Str.lit "SQL修复尝试次数过多，请检查查询条件或联系管理员。".

Definition SPACE : pystr := Eval vm_compute in Str.lit " ".
Definition NO_INFO : pystr := Eval vm_compute in Str.lit "无".
Definition NO_SCHEMA_MSG : pystr :=
  Eval vm_compute in Str.lit "数据库中没有找到表模型".

Definition EMPTY_QUERY_MSG : pystr :=
  Eval vm_compute in Str.lit "Query cannot be empty".

Definition NONE_NOT_ITERABLE : pystr :=
  Eval vm_compute in Str.lit "argument of type 'NoneType' is not iterable".

(** An optional string inside an f-string. *)
Definition fmt_opt (o : option pystr) : pystr :=
  match o with Some s => s | None => NONE_TEXT end.

(** The names under which [get_sql_copilot] registers the stages. *)
Definition node_name (n : Node) : pystr :=
  Eval vm_compute in
  match n with
  | query_intent => Str.lit "query_intent"
  | query_analyze => Str.lit "query_analyze"
  | table_search => Str.lit "table_search"
  | sql_coder => Str.lit "sql_coder"
  | sql_fix => Str.lit "sql_fix"
  | analyzer => Str.lit "analyzer"
  end.

(** ** Routing targets *)

Inductive Next := Goto (n : Node) | END.

(** How a call of [fix_sql] ended (the sub-states of the repair loop). *)
Inductive FixOutcome := Skipped | Succeeded | Exhausted | Repaired | GaveUp.

Section Workflow.

Variable env : Env.

(** The [database] argument of [get_sql_copilot], kept by the stages
    that open a connection. *)
Variable graph_database : pystr.

(** *** [node/query_intent.py] *)

(** [intent_map.get(result_text, "其他")] *)
Definition intent_map_get (result_text : pystr) : pystr :=
  if Str.eqb result_text LABEL_QUERY then INTENT_QUERY_ZH
  else if Str.eqb result_text LABEL_ANALYZE then INTENT_ANALYZE_ZH
  else if Str.eqb result_text LABEL_OTHER then INTENT_OTHER_ZH
  else INTENT_OTHER_ZH.

Definition _extract_response_text (text : pystr) : pystr :=
  let text :=
    if Str.contains THINK_END text
    then Str.strip (Str.split_last THINK_END text)
    else text in
  Str.strip text.

Definition _parse_intent_result (result_text : pystr)
  : IntentType * option pystr :=
  let result_text_lower := Str.strip (str_lower env result_text) in
  if Str.eqb result_text_lower LABEL_QUERY then (QUERY, None)
  else if Str.eqb result_text_lower LABEL_ANALYZE then (ANALYZE, None)
  else if Str.contains LABEL_QUERY result_text_lower
          && (Str.len result_text_lower <? 20)%Z then (QUERY, None)
  else if Str.contains LABEL_ANALYZE result_text_lower
          && (Str.len result_text_lower <? 20)%Z then (ANALYZE, None)
  else (OTHER, Some result_text).

Definition parse_intent (state : DeepState) : M DeepState :=
  try_except
    (response <- call SvClassify
                   (fun i => classify_reply env i (user_input state)) ;;
     let result_text := _extract_response_text response in
     let state :=
       append_message state ROLE_ROUTE (intent_map_get result_text) in
     let '(intent, reply) := _parse_intent_result result_text in
     let state := set_intent_type state intent in
     let state :=
       match intent, reply with
       | OTHER, Some a => if Str.truthy a then set_answer state a else state
       | _, _ => state
       end in
     ret state)
    (fun e => raise (LLMServiceError (INTENT_FAILED ++ exn_str e))).

(** *** [node/query_analyze.py] *)

Definition get_user_question (state : DeepState) : list pystr :=
  match intent_ambiguous state with
  | [] => []
  | d =>
    List.map fst
      (List.filter
         (fun kv => match snd kv with None => true | Some _ => false end) d)
  end.

(** LangGraph's [interrupt]: inside one execution of a stage the k-th
    call returns the k-th value the user has supplied to this stage so
    far, and the first call without a value suspends the run with the
    question.  [resumes] holds the values not yet consumed. *)
Definition interrupt (resumes : list pystr) (question : pystr)
  : M (pystr * list pystr) :=
  fun w =>
    match resumes with
    | v :: rest => Ok (v, rest) w
    | [] => Susp question w
    end.

(** [for question in question_list: state.intent_ambiguous[question] =
    interrupt(...)] *)
Fixpoint clarify (question_list resumes : list pystr) (state : DeepState)
  : M DeepState :=
  match question_list with
  | [] => ret state
  | question :: rest =>
    r <- interrupt resumes question ;;
    clarify rest (snd r)
      (set_intent_ambiguous state
         (dict_set (intent_ambiguous state) question (Some (fst r))))
  end.

(** The clarifications shown to the model. *)
Definition ambiguity_info (d : Ambiguity) : pystr :=
  match d with
  | [] => NO_INFO
  | _ =>
    Str.join nl
      (List.map (fun kv => fst kv ++ COLON_SP ++ fmt_opt (snd kv)) d)
  end.

Definition render_tables (schema : list (pystr * pystr)) : pystr :=
  List.fold_left
    (fun acc t => acc ++ nl ++ fst t ++ COLON_SP ++ snd t) schema [].

(** [for c in result.intent_ambiguous: state.intent_ambiguous[c] = None] *)
Definition mark_unresolved (d : Ambiguity) (concepts : list pystr) : Ambiguity :=
  List.fold_left (fun acc c => dict_set acc c None) concepts d.

(** [analyze_query].  [resumes] are the values supplied to this stage
    since it was last entered from its predecessor.  The schema lookup
    is given the result [None] that the stage tests for, although
    [DatabaseManager.get_table_schemas] as written returns a mapping or
    raises. *)
Definition analyze_query (state : DeepState) (resumes : list pystr)
  : M DeepState :=
  let user_input :=
    if Str.truthy (actual_query state)
    then actual_query state else user_input state in
  schema <- call SvSchemas (fun i => table_schemas env i (database state)) ;;
  match schema with
  | None => ret (set_answer state NO_SCHEMA_MSG)
  | Some schema =>
    state <- clarify (get_user_question state) resumes state ;;
    let info := ambiguity_info (intent_ambiguous state) in
    let table_schema := render_tables schema in
    let state := set_table_schema state table_schema in
    result <- call SvAnalyze
                (fun i => analyze_reply env i user_input info table_schema) ;;
    let state :=
      if Str.truthy (qi_cannot_answer result)
      then set_answer state (qi_cannot_answer result) else state in
    let state := set_actual_query state (qi_actual_query result) in
    let state := append_message state ROLE_ANALYZE (qi_thought result) in
    let state :=
      set_intent_ambiguous state
        (mark_unresolved (intent_ambiguous state)
           (qi_intent_ambiguous result)) in
    ret state
  end.

(** *** [node/table_search.py] *)

(** The agent's reply after the clean-up, replaced by the first list of
    ids found in it when there is one. *)
Definition id_list_text (reply : pystr) : pystr :=
  let result_text :=
    Str.strip (Str.replace FENCE [] (Str.split_last THINK_END reply)) in
  match id_list_match env result_text with
  | Some m => m
  | None => result_text
  end.

Definition search (state : DeepState) : M DeepState :=
  if Str.truthy (answer state)
  then ret (append_message state ROLE_SEARCH [])
  else
    reply <- call SvSearchAgent
               (fun i => search_reply env i (actual_query state)) ;;
    let result_text := id_list_text reply in
    if Str.startswith LBRACKET result_text
    then
      found <- call SvFieldLookup (fun i => field_lookup env i result_text) ;;
      match found with
      | FieldsFound schema_md cols_md =>
        ret (append_message (set_schema_context state schema_md)
               ROLE_SEARCH cols_md)
      | FieldsMalformed => ret (set_answer state FIELDS_MALFORMED_MSG)
      | FieldsUndecodable =>
        ret (set_answer state (FIELDS_UNDECODABLE_MSG ++ result_text))
      end
    else ret (set_answer state result_text).

(** *** [node/sql_coder.py] *)

(** [any(keyword in res.upper() for keyword in [...])] *)
Definition has_sql_keyword (res : pystr) : bool :=
  List.existsb (fun keyword => Str.contains keyword (str_upper env res))
    SQL_KEYWORDS.

(** The two clean-up assignments of [code_sql]. *)
Definition clean_sql (res : pystr) : pystr :=
  let res := Str.strip (Str.split_last THINK_END res) in
  Str.strip (Str.replace FENCE [] (Str.replace FENCE_SQL [] res)).

(** ["\n".join(sql_his) if sql_his else "无参考SQL"] *)
Definition sql_his_text_of (sql_his : list pystr) : pystr :=
  match sql_his with [] => NO_SQL_HISTORY | _ => Str.join nl sql_his end.

(** ["\n".join(f"{i[0]}: {i[1]}" for i in query_his) if query_his else
    "无参考查询"] *)
Definition query_his_text_of (query_his : list (pystr * pystr)) : pystr :=
  match query_his with
  | [] => NO_QUERY_HISTORY
  | _ =>
    Str.join nl (List.map (fun i => fst i ++ COLON_SP ++ snd i) query_his)
  end.

Definition code_sql (state : DeepState) : M DeepState :=
  if Str.truthy (answer state)
  then ret (append_message state ROLE_CODER [])
  else
    let user_input := actual_query state in
    sql_his <- call SvSqlHistory (fun i => sql_history env i (tables state)) ;;
    let sql_his_text := sql_his_text_of sql_his in
    query_his <- call SvQueryHistory
                   (fun i => query_history env i user_input) ;;
    let query_his_text := query_his_text_of query_his in
    res <- call SvCoder
             (fun i => coder_reply env i user_input (schema_context state)
                         query_his_text sql_his_text) ;;
    let state :=
      append_message state ROLE_CODER
        (FENCE_SQL ++ nl ++ res ++ nl ++ FENCE) in
    let res := clean_sql res in
    if Str.truthy res && has_sql_keyword res
    then ret (set_final_sql state (Some res))
    else ret (set_answer state INVALID_SQL_MSG).

(** *** [node/sql_fix.py] *)

(** The clean-up of the repair agent's reply. *)
Definition clean_fix (result_text : pystr) : pystr :=
  Str.strip
    (Str.replace FENCE []
       (Str.replace FENCE_SQL [] (Str.split_last THINK_END result_text))).

(** [fix_sql], returning with the state the branch it left through. *)
Definition fix_sql_traced (state : DeepState) : M (FixOutcome * DeepState) :=
  if Str.truthy (answer state)
  then
    ret (Skipped,
         append_message state (ROLE_FIX ++ Str.of_int (cnt state)) [])
  else
    let sql := final_sql state in
    let state := set_cnt state (cnt state + 1) in
    _ <- call SvEngine (fun i => db_engine env i graph_database) ;;
    outcome <- call_caught SvExecute (fun i => read_sql env i sql) ;;
    match outcome with
    | inr table =>
      let state := set_query_data state table in
      let state :=
        if IntentType_eqb (intent_type state) QUERY
        then set_answer state (query_data state) else state in
      ret (Succeeded, state)
    | inl error =>
      if (cnt state >? 10)%Z
      then ret (Exhausted, set_answer state EXHAUSTED_MSG)
      else
        result_text <- call SvRepair
                         (fun i => repair_reply env i (table_schema state)
                                     sql error) ;;
        let state :=
          append_message state (ROLE_FIX ++ Str.of_int (cnt state))
            (FENCE_SQL ++ nl ++ fmt_opt sql ++ nl ++ FENCE ++ nl
             ++ FIX_MIDDLE ++ nl ++ SPACE ++ FENCE ++ nl ++ error
             ++ nl ++ FENCE) in
        let result_text := clean_fix result_text in
        if Str.contains TAG_SQL result_text
        then
          let fixed_sql :=
            Str.strip
              (Str.replace TAG_SQL [] (Str.from_index TAG_SQL result_text)) in
          ret (Repaired, set_final_sql state (Some fixed_sql))
        else if Str.startswith TAG_REPLY result_text
        then
          ret (GaveUp,
               set_answer state
                 (Str.strip (Str.replace TAG_REPLY [] result_text)))
        else ret (GaveUp, set_answer state (FIX_FAILED ++ result_text))
    end.

Definition fix_sql (state : DeepState) : M DeepState :=
  r <- fix_sql_traced state ;; ret (snd r).

(** *** [node/analyze_node.py] *)

Definition analyze_data (state : DeepState) : M DeepState :=
  if Str.truthy (answer state)
  then ret (append_message state ROLE_REPORT [])
  else
    result <- call SvSummarize
                (fun i => summary_reply env i (actual_query state)
                            (query_data state)) ;;
    ret (set_answer state (Str.strip (Str.split_last THINK_END result))).

(** *** The graph of [get_sql_copilot] ([sql_copilot.py]) *)

Definition intent_path (state : DeepState) : Next :=
  if IntentType_eqb (intent_type state) OTHER then END
  else Goto query_analyze.

Definition analyze_path_map (state : DeepState) : Next :=
  match get_user_question state with
  | _ :: _ => Goto query_analyze
  | [] => Goto table_search
  end.

Definition fix_path (state : DeepState) : Next :=
  if Str.truthy (query_data state)
  then if IntentType_eqb (intent_type state) ANALYZE
       then Goto analyzer else END
  else Goto sql_fix.

(** [add_node]: the function behind each stage name. *)
Definition exec (n : Node) (resumes : list pystr) (state : DeepState)
  : M DeepState :=
  match n with
  | query_intent => parse_intent state
  | query_analyze => analyze_query state resumes
  | table_search => search state
  | sql_coder => code_sql state
  | sql_fix => fix_sql state
  | analyzer => analyze_data state
  end.

(** [add_conditional_edges], [add_edge] and [set_finish_point]. *)
Definition route (n : Node) (state : DeepState) : Next :=
  match n with
  | query_intent => intent_path state
  | query_analyze => analyze_path_map state
  | table_search => Goto sql_coder
  | sql_coder => Goto sql_fix
  | sql_fix => fix_path state
  | analyzer => END
  end.

End Workflow.

(** ** The engine

    LangGraph runs the graph one stage per step: it executes the current
    stage on the current state, writes the returned state back, asks the
    stage's router for the next stage and stops at [END].  A stage that
    interrupts leaves the stored state as it was before the stage began;
    the values supplied by [Command(resume=...)] are replayed to the
    stage when it is entered again.  After [recursion_limit] steps
    without reaching [END] the run raises [GraphRecursionError]. *)

Inductive Final :=
  | Finished (values : DeepState)
  | Interrupted (question : pystr) (values : DeepState)
                (at_node : Node) (resumes : list pystr)
  | Crashed (e : Exn) (values : DeepState)
            (at_node : Node) (resumes : list pystr).

Record Run := {
  updates : list (Node * DeepState);   (* one per completed stage, in order *)
  final : Final;
  world : World
}.

Section Engine.

Variable env : Env.
Variable graph_database : pystr.

Fixpoint run (fuel : nat) (n : Node) (resumes : list pystr)
    (state : DeepState) (w : World) : Run :=
  match fuel with
  | O =>
    {| updates := []; final := Crashed GraphRecursionError state n resumes;
       world := w |}
  | S fuel' =>
    match exec env graph_database n resumes state (Enter n :: w) with
    | Ok state' w' =>
      match route n state' with
      | END =>
        {| updates := [(n, state')]; final := Finished state'; world := w' |}
      | Goto n' =>
        let r := run fuel' n' [] state' w' in
        {| updates := (n, state') :: updates r; final := final r;
           world := world r |}
      end
    | Susp q w' =>
      {| updates := []; final := Interrupted q state n resumes; world := w' |}
    | Raised e w' =>
      {| updates := []; final := Crashed e state n resumes; world := w' |}
    end
  end.

End Engine.

(** ** The front ends ([app.py]) *)

(** What the checkpointer keeps for a thread: the state values and, when
    the last run stopped inside a stage, that stage with the values
    already supplied to it. *)
Record Checkpoint := {
  cp_values : DeepState;
  cp_next : option (Node * list pystr)
}.

Definition Store := pystr -> option Checkpoint.

Definition store_put (s : Store) (session : pystr) (c : Checkpoint) : Store :=
  fun k => if Str.eqb k session then Some c else s k.

Definition checkpoint_of (f : Final) : Checkpoint :=
  match f with
  | Finished v => {| cp_values := v; cp_next := None |}
  | Interrupted _ v n rs => {| cp_values := v; cp_next := Some (n, rs) |}
  | Crashed _ v n rs => {| cp_values := v; cp_next := Some (n, rs) |}
  end.

(** The state a new request starts from: the keys of the input
    dictionary overwrite the thread's values, the other attributes keep
    what the thread holds, or their defaults on a new thread. *)
Definition initial_state (prev : option Checkpoint)
    (query database_id session : pystr) : DeepState :=
  {| user_input := query; session_id := session; database := database_id;
     actual_query := []; messages := []; intent_type := OTHER;
     intent_ambiguous := []; tables := [];
     table_schema :=
       match prev with Some c => table_schema (cp_values c) | None => [] end;
     schema_context := []; final_sql := Some [];
     query_data :=
       match prev with Some c => query_data (cp_values c) | None => [] end;
     answer := []; cnt := 0;
     error_message :=
       match prev with
       | Some c => error_message (cp_values c)
       | None => None
       end |}.

(** [not query or not query.strip()] for an optional [str]. *)
Definition blank (query : option pystr) : bool :=
  match query with
  | None => true
  | Some q => negb (Str.truthy q) || negb (Str.truthy (Str.strip q))
  end.

Inductive ChatResult :=
  | ChatCompleted (answer : pystr) (sql : option pystr) (query_data : pystr)
                  (session : pystr)
  | ChatInterrupted (question : pystr) (session : pystr)
  | ChatUnexpected
  | ChatRaised (e : Exn).

Inductive StreamEvent :=
  | EvChunk (node content : pystr)
  | EvInterrupt (content : pystr)
  | EvComplete (content : pystr) (sql : option pystr)
  | EvError (content : pystr).

(** [recursion_limit]: LangGraph's default in [process_chat], 100 in
    [stream_chat]. *)
Definition DEFAULT_RECURSION_LIMIT : nat := 25.
Definition STREAM_RECURSION_LIMIT : nat := 100.

Section App.

Variable env : Env.

(** [graph.invoke] / [graph.stream] on a thread: a new request starts at
    the entry point, a resume re-enters the stage the thread stopped in
    with one more value; a thread with nothing pending runs nothing. *)
Definition start (limit : nat) (store : Store)
    (query database_id session : pystr) (w : World) : Run :=
  run env database_id limit query_intent []
    (initial_state (store session) query database_id session) w.

Definition resume (limit : nat) (store : Store)
    (database_id session value : pystr) (w : World) : option Run :=
  match store session with
  | None => None
  | Some c =>
    Some
      match cp_next c with
      | Some (n, resumes) =>
        run env database_id limit n (resumes ++ [value]) (cp_values c) w
      | None =>
        {| updates := []; final := Finished (cp_values c); world := w |}
      end
  end.

(** The checks of [process_chat] on what [invoke] returned. *)
Definition chat_result (session : pystr) (f : Final) : ChatResult :=
  match f with
  | Crashed e _ _ _ => ChatRaised e
  | Finished v =>
    if Str.truthy (answer v)
    then ChatCompleted (answer v) (final_sql v) (query_data v) session
    else ChatUnexpected
  | Interrupted q v _ _ =>
    if Str.truthy (answer v)
    then ChatCompleted (answer v) (final_sql v) (query_data v) session
    else ChatInterrupted q session
  end.

Definition process_chat (query : option pystr)
    (database_id session : pystr) (resume_input : option pystr)
    (store : Store) (w : World) : ChatResult * Store * World :=
  let w' := Call SvBuildGraph :: w in
  match graph_build env (calls SvBuildGraph w) database_id with
  | inl e => (ChatRaised e, store, w')
  | inr _ =>
    match resume_input with
    | Some value =>
      match resume DEFAULT_RECURSION_LIMIT store database_id session value w' with
      | None => (ChatUnexpected, store, w')
      | Some r =>
        (chat_result session (final r),
         store_put store session (checkpoint_of (final r)), world r)
      end
    | None =>
      if blank query
      then (ChatRaised (InvalidQueryError EMPTY_QUERY_MSG), store, w')
      else
        let q := match query with Some q => q | None => [] end in
        let r := start DEFAULT_RECURSION_LIMIT store q database_id session w' in
        (chat_result session (final r),
         store_put store session (checkpoint_of (final r)), world r)
    end
  end.

(** The chunk [stream_chat] yields for the update of one stage: the
    last transcript entry names it and gives the content, and an empty
    content yields nothing.  An update carries every attribute of the
    state the stage returned. *)
Definition chunk_of (u : Node * DeepState) : list StreamEvent :=
  let state_update := snd u in
  match List.rev (messages state_update) with
  | last_msg :: _ =>
    if Str.truthy (content last_msg)
    then [EvChunk (role last_msg) (content last_msg)] else []
  | [] =>
    if Str.truthy (answer state_update)
    then [EvChunk (node_name (fst u)) (answer state_update)] else []
  end.

(** The events of one streamed run: the chunks, then the interrupt, the
    completion (when the last update has an answer) or the error.  When
    nothing was streamed, [final_state] is still [None] and the final
    test raises [TypeError]. *)
Definition stream_events (r : Run) : list StreamEvent :=
  List.flat_map chunk_of (updates r) ++
  match final r with
  | Interrupted q _ _ _ => [EvInterrupt q]
  | Crashed e _ _ _ => [EvError (exn_str e)]
  | Finished _ =>
    match List.rev (updates r) with
    | (_, final_state) :: _ =>
      if Str.truthy (answer final_state)
      then [EvComplete (answer final_state) (final_sql final_state)]
      else []
    | [] => [EvError NONE_NOT_ITERABLE]
    end
  end.

Definition stream_chat (query : option pystr)
    (database_id session : pystr) (resume_input : option pystr)
    (store : Store) (w : World) : list StreamEvent * Store * World :=
  let w' := Call SvBuildGraph :: w in
  match graph_build env (calls SvBuildGraph w) database_id with
  | inl e => ([EvError (exn_str e)], store, w')
  | inr _ =>
    match resume_input with
    | Some value =>
      match resume STREAM_RECURSION_LIMIT store database_id session value w' with
      | None => ([EvError NONE_NOT_ITERABLE], store, w')
      | Some r =>
        (stream_events r,
         store_put store session (checkpoint_of (final r)), world r)
      end
    | None =>
      if blank query
      then ([EvError EMPTY_QUERY_MSG], store, w')
      else
        let q := match query with Some q => q | None => [] end in
        let r := start STREAM_RECURSION_LIMIT store q database_id session w' in
        (stream_events r,
         store_put store session (checkpoint_of (final r)), world r)
    end
  end.

End App.

(** ** Vocabulary of the properties *)

(** Two states that agree on every attribute except [messages]. *)
Definition differ_only_in_messages (a b : DeepState) : Prop :=
  set_messages a [] = set_messages b [].

(** A reply the parser takes for a label: after lower-casing and
    stripping it is exactly [query] or [analyze], or it is shorter than
    20 characters and contains one of them. *)
Definition reads_as_label (env : Env) (reply : pystr) : bool :=
  let t := Str.strip (str_lower env reply) in
  Str.eqb t LABEL_QUERY || Str.eqb t LABEL_ANALYZE
  || (Str.contains LABEL_QUERY t || Str.contains LABEL_ANALYZE t)
     && (Str.len t <? 20)%Z.

(** The stages that begin with [if state.answer:]. *)
Definition guarded (n : Node) : bool :=
  match n with
  | table_search | sql_coder | sql_fix | analyzer => true
  | query_intent | query_analyze => false
  end.

(** The label of the empty transcript entry such a stage leaves. *)
Definition skip_role (n : Node) (st : DeepState) : pystr :=
  match n with
  | table_search => ROLE_SEARCH
  | sql_coder => ROLE_CODER
  | sql_fix => ROLE_FIX ++ Str.of_int (cnt st)
  | analyzer => ROLE_REPORT
  | query_intent | query_analyze => []
  end.

(** The topics still mapped to no value, in the order of the mapping. *)
Definition unresolved (d : Ambiguity) : list pystr :=
  List.map fst
    (List.filter
       (fun kv => match snd kv with None => true | Some _ => false end) d).

(** The assignments of the clarification loop: the j-th value goes to
    the j-th question. *)
Fixpoint resolve (d : Ambiguity) (qs vs : list pystr) : Ambiguity :=
  match qs, vs with
  | q :: qs', v :: vs' => resolve (dict_set d q (Some v)) qs' vs'
  | _, _ => d
  end.

(** The state after the loop of assignments, when every question had its
    value. *)
Fixpoint clarified (qs vs : list pystr) (st : DeepState) : DeepState :=
  match qs, vs with
  | q :: qs', v :: vs' =>
    clarified qs' vs'
      (set_intent_ambiguous st (dict_set (intent_ambiguous st) q (Some v)))
  | _, _ => st
  end.

(** The query text [analyze_query] shows to the model. *)
Definition asked (st : DeepState) : pystr :=
  if Str.truthy (actual_query st) then actual_query st else user_input st.

(** The state [analyze_query] returns once the model has replied. *)
Definition analysed (st : DeepState) (schema : list (pystr * pystr))
    (result : QueryIntent) : DeepState :=
  let st := set_table_schema st (render_tables schema) in
  let st :=
    if Str.truthy (qi_cannot_answer result)
    then set_answer st (qi_cannot_answer result) else st in
  let st := set_actual_query st (qi_actual_query result) in
  let st := append_message st ROLE_ANALYZE (qi_thought result) in
  set_intent_ambiguous st
    (mark_unresolved (intent_ambiguous st) (qi_intent_ambiguous result)).

Section LoopVocabulary.

Variable env : Env.
Variable graph_database : pystr.

(** [loops st w k st' w']: starting from [st] and [w], the engine ran
    [fix_sql] [k] times in a row, the router sending it back to
    [sql_fix] after each, and arrived at [st'] and [w']. *)
Inductive loops (st : DeepState) (w : World)
  : nat -> DeepState -> World -> Prop :=
  | loops_start : loops st w 0 st w
  | loops_again k st1 w1 st2 w2 :
      loops st w k st1 w1 ->
      fix_sql env graph_database st1 (Enter sql_fix :: w1) = Ok st2 w2 ->
      fix_path st2 = Goto sql_fix ->
      loops st w (S k) st2 w2.

(** A rendered result table is never the empty text. *)
Definition renders_tables : Prop :=
  forall i sql table, read_sql env i sql = inr table -> table <> [].

(** [k] rounds of [fix_sql], each sent back to [sql_fix] by the router. *)
Fixpoint fix_iter (k : nat) (st : DeepState) (w : World)
  : option (DeepState * World) :=
  match k with
  | O => Some (st, w)
  | S k' =>
    match fix_iter k' st w with
    | Some (st1, w1) =>
      match fix_sql env graph_database st1 (Enter sql_fix :: w1) with
      | Ok st2 w2 =>
        match fix_path st2 with
        | Goto sql_fix => Some (st2, w2)
        | _ => None
        end
      | _ => None
      end
    | None => None
    end
  end.

End LoopVocabulary.

(** ** Scripted environments for the worked examples *)

Definition TABLE_LIST : pystr := Eval vm_compute in Str.lit "[12, 15]".
Definition DEMO_SCHEMA : list (pystr * pystr) :=
  Eval vm_compute in [(Str.lit "sales", Str.lit "orders")].

(** An environment whose services all succeed; the replies of the
    classifier, the analysis model, the SQL writer, the database and the
    repair agent are given per call, the others are fixed.  Case mapping
    is the ASCII one, exact on the ASCII texts of the examples. *)
Definition scripted
    (classify : nat -> pystr) (analyze : nat -> QueryIntent)
    (coder : nat -> pystr) (execute : nat -> pystr + pystr)
    (repair : nat -> pystr) : Env :=
  {| str_lower := Str.ascii_lower;
     str_upper := Str.ascii_upper;
     id_list_match := fun t => if Str.eqb t TABLE_LIST then Some t else None;
     classify_reply := fun i _ => inr (classify i);
     table_schemas := fun _ _ => inr (Some DEMO_SCHEMA);
     analyze_reply := fun i _ _ _ => inr (analyze i);
     search_reply := fun _ _ => inr TABLE_LIST;
     field_lookup := fun _ _ =>
       inr (FieldsFound (Str.lit "product_id, sales_amount")
                        (Str.lit "sales.product_id, sales.sales_amount"));
     sql_history := fun _ _ => inr [];
     query_history := fun _ _ => inr [];
     coder_reply := fun i _ _ _ _ => inr (coder i);
     db_engine := fun _ _ => inr tt;
     read_sql := fun i _ => execute i;
     repair_reply := fun i _ _ _ => inr (repair i);
     summary_reply := fun _ _ _ => inr (Str.lit "report");
     graph_build := fun _ _ => inr tt |}.

Definition plain_analysis (q : pystr) : QueryIntent :=
  {| qi_thought := Str.lit "clear"; qi_intent_ambiguous := [];
     qi_cannot_answer := []; qi_actual_query := q |}.

(** ** Scenarios for the worked examples *)

Definition DEMO_QUERY : pystr :=
  Eval vm_compute in Str.lit "show top 10 products by sales".
Definition DEMO_DB : pystr := Eval vm_compute in Str.lit "chenjie".
Definition DEMO_SESSION : pystr := Eval vm_compute in Str.lit "default".
Definition DEMO_SQL : pystr :=
  Eval vm_compute in
    Str.lit "SELECT product_id, sales_amount FROM sales ORDER BY sales_amount DESC LIMIT 10".
Definition DEMO_TABLE : pystr :=
  Eval vm_compute in Str.lit "| product_id | sales_amount |".
Definition DEMO_FIX : pystr := Eval vm_compute in Str.lit "[sql]SELECT 1".
Definition DEMO_ERROR : pystr := Eval vm_compute in Str.lit "no such column".

Definition empty_store : Store := fun _ => None.

(** The state of a first request on a new thread. *)
Definition demo_state : DeepState :=
  initial_state None DEMO_QUERY DEMO_DB DEMO_SESSION.

(** The scenario of the specification: the classifier says [query], the
    analysis finds nothing to clarify, the SQL writer returns
    [DEMO_SQL] and the database renders [DEMO_TABLE]. *)
Definition happy_env : Env :=
  scripted (fun _ => LABEL_QUERY) (fun _ => plain_analysis DEMO_QUERY)
    (fun _ => DEMO_SQL) (fun _ => inr DEMO_TABLE) (fun _ => DEMO_FIX).

Definition res_value {A} (r : Res A) (default : A) : A :=
  match r with Ok a _ => a | _ => default end.

Definition res_world {A} (r : Res A) : World :=
  match r with Ok _ w | Susp _ w | Raised _ w => w end.

(** Every execution fails and the repair agent always proposes new SQL. *)
Definition failing_env : Env :=
  scripted (fun _ => LABEL_QUERY) (fun _ => plain_analysis DEMO_QUERY)
    (fun _ => DEMO_SQL) (fun _ => inl DEMO_ERROR) (fun _ => DEMO_FIX).

(** The state in which the repair stage is first entered. *)
Definition at_repair : DeepState :=
  set_final_sql (set_intent_type demo_state QUERY) (Some DEMO_SQL).

Definition round10 : DeepState * World :=
  match fix_iter failing_env DEMO_DB 10 at_repair [] with
  | Some p => p
  | None => (at_repair, [])
  end.

Definition round11 : Res (FixOutcome * DeepState) :=
  fix_sql_traced failing_env DEMO_DB (fst round10) (Enter sql_fix :: snd round10).

Definition REFUSAL : pystr := Eval vm_compute in Str.lit "no sales data here".
Definition REFUSAL2 : pystr := Eval vm_compute in Str.lit "still no sales data".
Definition TOPIC_METRIC : pystr := Eval vm_compute in Str.lit "metric".
Definition TOPIC_PERIOD : pystr := Eval vm_compute in Str.lit "period".
Definition VALUE_SALES : pystr := Eval vm_compute in Str.lit "sales amount".
Definition VALUE_2024 : pystr := Eval vm_compute in Str.lit "2024".

Definition refusal (msg : pystr) (topics : list pystr) : QueryIntent :=
  {| qi_thought := Str.lit "unrelated"; qi_intent_ambiguous := topics;
     qi_cannot_answer := msg; qi_actual_query := DEMO_QUERY |}.

Definition asking (topics : list pystr) : QueryIntent :=
  {| qi_thought := Str.lit "unclear"; qi_intent_ambiguous := topics;
     qi_cannot_answer := []; qi_actual_query := DEMO_QUERY |}.

(** The analysis finds the database does not cover the request. *)
Definition unanswerable_env : Env :=
  scripted (fun _ => LABEL_QUERY) (fun _ => refusal REFUSAL [])
    (fun _ => DEMO_SQL) (fun _ => inr DEMO_TABLE) (fun _ => DEMO_FIX).

(** The analysis refuses and asks about a topic, then refuses in other
    words. *)
Definition refusing_twice_env : Env :=
  scripted (fun _ => LABEL_QUERY)
    (fun i => match i with
              | O => refusal REFUSAL [TOPIC_METRIC]
              | _ => refusal REFUSAL2 []
              end)
    (fun _ => DEMO_SQL) (fun _ => inr DEMO_TABLE) (fun _ => DEMO_FIX).

Definition answered_state : DeepState := set_answer at_repair REFUSAL.

(** The analysis asks about the metric, then, given the metric, about
    the period, and is then satisfied. *)
Definition asking_env : Env :=
  scripted (fun _ => LABEL_QUERY)
    (fun i => match i with
              | 0 => asking [TOPIC_METRIC]
              | 1 => asking [TOPIC_PERIOD]
              | _ => asking []
              end)
    (fun _ => DEMO_SQL) (fun _ => inr DEMO_TABLE) (fun _ => DEMO_FIX).

(** The analysis keeps naming the metric as ambiguous. *)
Definition relisting_env : Env :=
  scripted (fun _ => LABEL_QUERY) (fun _ => asking [TOPIC_METRIC])
    (fun _ => DEMO_SQL) (fun _ => inr DEMO_TABLE) (fun _ => DEMO_FIX).

(** A state with one open topic. *)
Definition one_open : DeepState :=
  set_intent_ambiguous (set_intent_type demo_state QUERY) [(TOPIC_METRIC, None)].

Definition GREETING : pystr :=
  Eval vm_compute in
    Str.lit "Hello! I can query and analyze your sales data.".
Definition FORMATTED_LABEL : pystr :=
  Eval vm_compute in Str.lit "Intent: query".

(** The classifier answers a greeting in free text. *)
Definition greeting_env : Env :=
  scripted (fun _ => GREETING) (fun _ => plain_analysis DEMO_QUERY)
    (fun _ => DEMO_SQL) (fun _ => inr DEMO_TABLE) (fun _ => DEMO_FIX).

(** The classifier wraps the label in a few words. *)
Definition formatted_env : Env :=
  scripted (fun _ => FORMATTED_LABEL) (fun _ => plain_analysis DEMO_QUERY)
    (fun _ => DEMO_SQL) (fun _ => inr DEMO_TABLE) (fun _ => DEMO_FIX).

Definition greeted : DeepState :=
  res_value (parse_intent greeting_env demo_state [Enter query_intent])
    demo_state.

Definition BLANKS : pystr := Eval vm_compute in Str.lit "   ".

(** [get_sql_copilot] raises: no language model can be set up. *)
Definition BUILD_FAILED : pystr :=
  Eval vm_compute in Str.lit "LLM initialization failed: no API key".

Definition no_graph_env : Env :=
  {| str_lower := str_lower happy_env;
     str_upper := str_upper happy_env;
     id_list_match := id_list_match happy_env;
     classify_reply := classify_reply happy_env;
     table_schemas := table_schemas happy_env;
     analyze_reply := analyze_reply happy_env;
     search_reply := search_reply happy_env;
     field_lookup := field_lookup happy_env;
     sql_history := sql_history happy_env;
     query_history := query_history happy_env;
     coder_reply := coder_reply happy_env;
     db_engine := db_engine happy_env;
     read_sql := read_sql happy_env;
     repair_reply := repair_reply happy_env;
     summary_reply := summary_reply happy_env;
     graph_build := fun _ _ => inl (ServiceError SvBuildGraph BUILD_FAILED) |}.

(** The state before and after SQL generation. *)
Definition uncoded : DeepState := set_final_sql at_repair None.

Definition coded : DeepState :=
  res_value (code_sql happy_env uncoded []) uncoded.

(** ** Further parts of the code *)

(** The values a run stopped with. *)
Definition final_values (f : Final) : DeepState :=
  match f with
  | Finished v | Interrupted _ v _ _ | Crashed _ v _ _ => v
  end.

(** [a] is [b] with entries added at the end. *)
Definition extends_transcript (a b : DeepState) : Prop :=
  exists more, messages b = messages a ++ more.

(** A state as it enters stage [n] in a run begun by a new request: the
    counter is still 0 before the repair stage, and the repair stage is
    entered with the counter at 10 or less unless an answer is set. *)
Definition counter_in_bounds (n : Node) (st : DeepState) : Prop :=
  match n with
  | query_intent | query_analyze | table_search | sql_coder => cnt st = 0%Z
  | sql_fix => (0 <= cnt st <= 10)%Z \/ ((0 <= cnt st <= 11)%Z /\ answer st <> [])
  | analyzer => (0 <= cnt st <= 11)%Z
  end.

Definition is_interrupt (e : StreamEvent) : bool :=
  match e with EvInterrupt _ => true | _ => false end.

(** *** [app.py]: [ask] *)

Section Ask.

Variable env : Env.

(** [input(question)]: the text typed at the [k]-th prompt. *)
Variable typed : nat -> pystr -> pystr.

(** The [while] loop of [ask]; [k] prompts have been answered so far.
    The result is [None] when [fuel] rounds did not end the loop. *)
Fixpoint ask_loop (fuel k : nat) (database_id session : pystr)
    (p : ChatResult * Store * World)
  : option (ChatResult * Store * World * nat) :=
  match fst (fst p) with
  | ChatInterrupted question _ =>
    match fuel with
    | O => None
    | S fuel' =>
      ask_loop fuel' (S k) database_id session
        (process_chat env None database_id session (Some (typed k question))
           (snd (fst p)) (snd p))
    end
  | _ => Some (p, k)
  end.

Definition ask (fuel : nat) (query : option pystr)
    (database_id session : pystr) (store : Store) (w : World)
  : option (ChatResult * Store * World * nat) :=
  ask_loop fuel 0 database_id session
    (process_chat env query database_id session None store w).

End Ask.

(** *** [web_app.py]: [chat_stream] *)

Module Web.

(** What the Flask session cookie holds; [None] is a missing key. *)
Record Browser := {
  cookie_session_id : option pystr;
  chat_history : option (list pystr)
}.

(** [session_states]: per session id, the flag [waiting_for_input] when
    it has been written. *)
Definition Flags := pystr -> option bool.

Definition set_flag (f : Flags) (sid : pystr) (b : bool) : Flags :=
  fun k => if Str.eqb k sid then Some b else f k.

(** [session_states[sid].get("waiting_for_input")], as a truth value. *)
Definition waiting (f : Flags) (sid : pystr) : bool :=
  match f sid with Some true => true | _ => false end.

Inductive Response :=
  | BadRequest (error : pystr)                 (* status 400 *)
  | EventStream (events : list StreamEvent).

Definition EMPTY_MESSAGE : pystr := Eval vm_compute in Str.lit "消息不能为空".
Definition WEB_DATABASE : pystr := Eval vm_compute in Str.lit "chenjie".

(** [chat_stream], the response body read to its end.  [fresh] is the
    identifier [uuid.uuid4()] would give; time stamps are left out of
    the history.  [stream_chat] handles every exception itself, so the
    handler around the loop of [generate] is never reached. *)
Definition chat_stream (env : Env) (fresh : pystr) (br : Browser)
    (message : option pystr) (flags : Flags) (store : Store) (w : World)
  : Response * Browser * Flags * Store * World :=
  let br :=
    match cookie_session_id br with
    | Some _ => br
    | None => {| cookie_session_id := Some fresh; chat_history := Some [] |}
    end in
  let sid := match cookie_session_id br with Some s => s | None => fresh end in
  let message := Str.strip (match message with Some m => m | None => [] end) in
  if negb (Str.truthy message)
  then (BadRequest EMPTY_MESSAGE, br, flags, store, w)
  else
    let history := match chat_history br with Some h => h | None => [] end in
    let br :=
      {| cookie_session_id := cookie_session_id br;
         chat_history := Some (history ++ [message]) |} in
    let is_waiting := waiting flags sid in
    let resume_input := if is_waiting then Some message else None in
    let flags := if is_waiting then set_flag flags sid false else flags in
    let query_to_process := if is_waiting then None else Some message in
    let s := stream_chat env query_to_process WEB_DATABASE sid resume_input
               store w in
    let events := fst (fst s) in
    let flags :=
      if List.existsb is_interrupt events then set_flag flags sid true
      else flags in
    (EventStream events, br, flags, snd (fst s), snd s).

End Web.

(** *** [data/llm_config_manager.py] *)

Module LlmConfig.

Inductive Error :=
  | ValueError (msg : pystr)
  | AttributeError
  | ConfigurationError (msg : pystr).

Definition KEY_EMPTY : pystr :=
  Eval vm_compute in Str.lit "API key cannot be empty".
Definition KEY_PLACEHOLDER : pystr :=
  Eval vm_compute in
    Str.lit "Please replace placeholder API key with actual value".
Definition YOUR_ : pystr := Eval vm_compute in Str.lit "your_".
Definition PLACEHOLDER : pystr := Eval vm_compute in Str.lit "placeholder".
Definition URL_SCHEME : pystr :=
  Eval vm_compute in Str.lit "Base URL must start with http:// or https://".
Definition HTTP : pystr := Eval vm_compute in Str.lit "http://".
Definition HTTPS : pystr := Eval vm_compute in Str.lit "https://".
Definition ALLOWED_PROVIDERS : list pystr :=
  Eval vm_compute in
    List.map Str.lit ["openai"; "azure"; "anthropic"; "cohere"]%string.
Definition PROVIDER_MSG : pystr :=
  Eval vm_compute in Str.lit "Provider must be one of: ".
Definition COMMA_SP : pystr := Eval vm_compute in Str.lit ", ".
Definition DEFAULT : pystr := Eval vm_compute in Str.lit "default".
Definition INIT_FAILED : pystr :=
  Eval vm_compute in Str.lit "LLM initialization failed: ".

Section Validators.

(** [str.lower] *)
Variable lower : pystr -> pystr.

(** [OpenAIConfig.validate_api_key] and
    [EmbeddingConfig.validate_api_key] *)
Definition validate_api_key (v : pystr) : Error + pystr :=
  if negb (Str.truthy v) || Str.eqb (Str.strip v) []
  then inl (ValueError KEY_EMPTY)
  else if Str.contains YOUR_ (lower v) || Str.contains PLACEHOLDER (lower v)
  then inl (ValueError KEY_PLACEHOLDER)
  else inr (Str.strip v).

(** [OpenAIConfig.validate_base_url] *)
Definition validate_base_url (v : option pystr) : Error + option pystr :=
  match v with
  | None => inr None
  | Some u =>
    if Str.truthy u && negb (Str.startswith HTTP u || Str.startswith HTTPS u)
    then inl (ValueError URL_SCHEME)
    else inr (Some u)
  end.

(** [LLMConfig.validate_provider] *)
Definition validate_provider (v : pystr) : Error + pystr :=
  if List.existsb (Str.eqb (lower v)) ALLOWED_PROVIDERS
  then inr (lower v)
  else inl (ValueError (PROVIDER_MSG ++ Str.join COMMA_SP ALLOWED_PROVIDERS)).

End Validators.

Section Lookup.

(** A configuration object and the client built from it. *)
Variables Config Model : Type.

(** [self.llm_configs] or [self.embedding_configs] *)
Definition Configs := pystr -> option Config.

(** [get_llm_config] and [get_embedding_config]: a configuration object
    is always true, so [not config] means that the key is missing. *)
Definition get_config (configs : Configs) (config_id : pystr)
  : option Config :=
  match configs config_id with
  | Some c => Some c
  | None =>
    if negb (Str.eqb config_id DEFAULT)
    then match configs DEFAULT with
         | Some d => Some d
         | None => None
         end
    else None
  end.

(** [ChatOpenAI(model=conf["model"], ...)]: the client, or the text of
    whatever was raised inside the [try]. *)
Variable build : Config -> pystr + Model.

Definition get_llm (configs : Configs) (config_id : pystr) : Error + Model :=
  let llm_config := get_config configs config_id in
  let llm_config :=
    match llm_config with
    | Some c => Some c
    | None => get_config configs DEFAULT
    end in
  match llm_config with
  | None => inl AttributeError
  | Some c =>
    match build c with
    | inr m => inr m
    | inl e => inl (ConfigurationError (INIT_FAILED ++ e))
    end
  end.

End Lookup.

End LlmConfig.

(** *** [data/database_manager.py] *)

Module Db.

Record DatabaseConfig := {
  id : pystr;
  name : pystr;
  type : pystr;
  host : pystr;
  port : Z;
  username : pystr;
  password : pystr;
  database : pystr
}.

Inductive Error :=
  | ValueError (msg : pystr)
  | LibraryError (msg : pystr).

Definition SQLITE : pystr := Eval vm_compute in Str.lit "sqlite".
Definition MYSQL : pystr := Eval vm_compute in Str.lit "mysql".
Definition SQLITE_URL : pystr := Eval vm_compute in Str.lit "sqlite:///".
Definition MYSQL_URL : pystr := Eval vm_compute in Str.lit "mysql+pymysql://".
Definition CHARSET : pystr := Eval vm_compute in Str.lit "?charset=utf8mb4".
Definition COLON : pystr := Eval vm_compute in Str.lit ":".
Definition AT : pystr := Eval vm_compute in Str.lit "@".
Definition SLASH : pystr := Eval vm_compute in Str.lit "/".
Definition NO_DATABASE : pystr := Eval vm_compute in Str.lit "数据库不存在: ".
Definition BAD_TYPE : pystr := Eval vm_compute in Str.lit "不支持的数据库类型: ".

(** The connection URLs of [get_engine]. *)
Definition sqlite_url (c : DatabaseConfig) : pystr := SQLITE_URL ++ database c.

Definition mysql_url (quote_plus : pystr -> pystr) (c : DatabaseConfig)
  : pystr :=
  MYSQL_URL ++ username c ++ COLON ++ quote_plus (password c) ++ AT
  ++ host c ++ COLON ++ Str.of_int (port c) ++ SLASH ++ database c ++ CHARSET.

Section Manager.

(** Engines and table schemas as the libraries give them. *)
Variables Engine Schemas : Type.

(** [urllib.parse.quote_plus] and [sqlalchemy.create_engine] *)
Variable quote_plus : pystr -> pystr.
Variable create_engine : pystr -> Error + Engine.

(** The queries of [get_table_schemas], given what [get_engine]
    returned. *)
Variable introspect : DatabaseConfig -> option Engine -> Error + Schemas.

(** [self.databases], [self.connections], [self.schemas] *)
Record Manager := {
  databases : pystr -> option DatabaseConfig;
  connections : pystr -> option Engine;
  schemas : pystr -> option Schemas
}.

Definition put {A} (m : pystr -> option A) (k : pystr) (v : A)
  : pystr -> option A :=
  fun k' => if Str.eqb k' k then Some v else m k'.

Definition with_connection (m : Manager) (k : pystr) (e : Engine) : Manager :=
  {| databases := databases m; connections := put (connections m) k e;
     schemas := schemas m |}.

Definition with_schemas (m : Manager) (k : pystr) (s : Schemas) : Manager :=
  {| databases := databases m; connections := connections m;
     schemas := put (schemas m) k s |}.

(** [get_engine]: the engine ([None] when the function falls off its
    end) and the manager afterwards, or what was raised. *)
Definition get_engine (m : Manager) (database_id : pystr)
  : Error + (option Engine * Manager) :=
  match connections m database_id with
  | Some e => inr (Some e, m)
  | None =>
    match databases m database_id with
    | None => inl (ValueError (NO_DATABASE ++ database_id))
    | Some db_config =>
      if Str.eqb (type db_config) SQLITE
      then
        match create_engine (sqlite_url db_config) with
        | inl e => inl e
        | inr conn => inr (Some conn, with_connection m database_id conn)
        end
      else if Str.eqb (type db_config) MYSQL
      then
        match create_engine (mysql_url quote_plus db_config) with
        | inl e => inl e
        | inr conn => inr (Some conn, with_connection m database_id conn)
        end
      else inr (None, m)
    end
  end.

(** [self.databases[database_id]] inside the [try] of
    [get_table_schemas]. *)
Definition KEY_ERROR : Error := LibraryError [].

(** [get_table_schemas]: what is returned or raised, and the manager
    afterwards; an engine made on the way stays in [connections] when a
    later step raises. *)
Definition get_table_schemas (m : Manager) (database_id : pystr)
  : (Error + Schemas) * Manager :=
  match schemas m database_id with
  | Some s => (inr s, m)
  | None =>
    match get_engine m database_id with
    | inl e => (inl e, m)
    | inr (engine, m) =>
      match databases m database_id with
      | None => (inl KEY_ERROR, m)
      | Some db_config =>
        if Str.eqb (type db_config) MYSQL || Str.eqb (type db_config) SQLITE
        then
          match introspect db_config engine with
          | inl e => (inl e, m)
          | inr s => (inr s, with_schemas m database_id s)
          end
        else (inl (ValueError (BAD_TYPE ++ type db_config)), m)
      end
    end
  end.

End Manager.

End Db.

(** *** [data/knowledge_manager.py] *)

Module Knowledge.

Definition NULL_COMMENT : pystr := Eval vm_compute in Str.lit "null".

Section Store.

(** Hits and embedding vectors as the services give them. *)
Variables Hit Vector : Type.

(** [get_milvus_client()]: the error it raises, if any. *)
Variable get_milvus_client : option pystr.

(** [client.search] on the collection of past SQL, with the joined
    keywords. *)
Variable bm25_search : pystr -> pystr + list Hit.

(** [search_sql] *)
Definition search_sql (keywords : list pystr) : pystr + list Hit :=
  match get_milvus_client with
  | Some e => inl e
  | None =>
    match keywords with
    | [] => inr []
    | _ => bm25_search (Str.join SPACE keywords)
    end
  end.

(** [LlmConfigManager.get_embedding] *)
Variable get_embedding : pystr -> pystr + Vector.

(** The loop of [add_column]: the rows collected, or the error that
    ended it. *)
Fixpoint column_rows (columns : list (Z * option pystr))
  : pystr + list (Z * pystr * Vector) :=
  match columns with
  | [] => inr []
  | (column_id, column_comment) :: rest =>
    let comment :=
      match column_comment with
      | Some c => if Str.truthy c then c else NULL_COMMENT
      | None => NULL_COMMENT
      end in
    match get_embedding comment with
    | inl e => inl e
    | inr embedding =>
      match column_rows rest with
      | inl e => inl e
      | inr data => inr ((column_id, comment, embedding) :: data)
      end
    end
  end.

(** [add_column]: the rows handed to [client.insert] in its one call. *)
Definition add_column (columns : list (Z * option pystr))
  : pystr + list (Z * pystr * Vector) :=
  match get_milvus_client with
  | Some e => inl e
  | None => column_rows columns
  end.

End Store.

End Knowledge.

(** ** Further scenarios *)

Definition OTHER_SESSION : pystr := Eval vm_compute in Str.lit "someone else".

Definition DEMO_SQLITE : Db.DatabaseConfig :=
  {| Db.id := DEMO_DB; Db.name := DEMO_DB; Db.type := Db.SQLITE;
     Db.host := []; Db.port := 0; Db.username := []; Db.password := [];
     Db.database := Str.lit "demo.db" |}.

(** A manager that knows one SQLite database and has opened nothing;
    an engine is represented by its URL. *)
Definition demo_manager : Db.Manager pystr unit :=
  {| Db.databases := fun k => if Str.eqb k DEMO_DB then Some DEMO_SQLITE
                              else None;
     Db.connections := fun _ => None;
     Db.schemas := fun _ => None |}.

(** A thread that holds the result of an earlier request. *)
Definition stale_store : Store :=
  store_put empty_store DEMO_SESSION
    {| cp_values := set_query_data demo_state DEMO_TABLE; cp_next := None |}.

(** The classifier is out of reach. *)
Definition TIMEOUT : pystr := Eval vm_compute in Str.lit "timed out".

Definition classifier_down_env : Env :=
  {| str_lower := str_lower happy_env;
     str_upper := str_upper happy_env;
     id_list_match := id_list_match happy_env;
     classify_reply := fun _ _ => inl (ServiceError SvClassify TIMEOUT);
     table_schemas := table_schemas happy_env;
     analyze_reply := analyze_reply happy_env;
     search_reply := search_reply happy_env;
     field_lookup := field_lookup happy_env;
     sql_history := sql_history happy_env;
     query_history := query_history happy_env;
     coder_reply := coder_reply happy_env;
     db_engine := db_engine happy_env;
     read_sql := read_sql happy_env;
     repair_reply := repair_reply happy_env;
     summary_reply := summary_reply happy_env;
     graph_build := graph_build happy_env |}.

(** ** Vocabulary of the further properties *)

(** A computation that enters no stage: it only calls collaborators. *)
Definition quiet {A} (m : M A) : Prop :=
  forall w, entered (res_world (m w)) = entered w.

(** The place of a stage in the graph of [get_sql_copilot]. *)
Definition rank (n : Node) : nat :=
  match n with
  | query_intent => 0
  | query_analyze => 1
  | table_search => 2
  | sql_coder => 3
  | sql_fix => 4
  | analyzer => 5
  end.

(** [b] may run after [a]: it comes later in the graph, or it is [a]
    again and [a] is one of the two stages with an edge to itself. *)
Definition precedes (a b : Node) : Prop :=
  rank a < rank b \/ (a = b /\ (a = query_analyze \/ a = sql_fix)).

(** How often the repair stage has been entered so far. *)
Definition repair_entries (w : World) : nat :=
  List.length
    (List.filter (fun n => match n with sql_fix => true | _ => false end)
       (entered w)).

(** A chunk, with some content. *)
Definition is_full_chunk (e : StreamEvent) : Prop :=
  match e with EvChunk _ c => c <> [] | _ => False end.

(** The event that closes a stream, if any, fits the way the run ended. *)
Definition closes (f : Final) (tail : list StreamEvent) : Prop :=
  match tail with
  | [] => exists v, f = Finished v
  | [EvInterrupt q] => exists v n rs, f = Interrupted q v n rs
  | [EvComplete c _] => c <> [] /\ exists v, f = Finished v /\ answer v = c
  | [EvError _] => True
  | _ => False
  end.

(** No white space at either end. *)
Definition trimmed (t : pystr) : Prop :=
  match t with c :: _ => Str.isspace c = false | [] => True end /\
  match List.rev t with c :: _ => Str.isspace c = false | [] => True end.

(** * Properties *)

(** ** Python strings, on examples *)

Example lit_ascii : Str.lit "[sql]" = [91; 115; 113; 108; 93]%N.
Proof. reflexivity. Qed.

Example lit_cjk : Str.lit "路由" = [36335; 30001]%N.
Proof. reflexivity. Qed.

Example split_last_think :
  Str.split_last THINK_END (Str.lit "<think>x</think> query ")
  = Str.lit " query ".
Proof. reflexivity. Qed.

Example split_last_absent :
  Str.split_last THINK_END (Str.lit "query") = Str.lit "query".
Proof. reflexivity. Qed.

Example replace_fence :
  Str.replace FENCE [] (Str.lit "```SELECT 1```") = Str.lit "SELECT 1".
Proof. reflexivity. Qed.

Example strip_both_ends : Str.strip (Str.lit "  a b  ") = Str.lit "a b".
Proof. reflexivity. Qed.

Example strip_newline : Str.strip (nl ++ Str.lit "query" ++ nl) = LABEL_QUERY.
Proof. reflexivity. Qed.

Example from_index_tag :
  Str.from_index TAG_SQL (Str.lit "fixed: [sql]SELECT 1") = DEMO_FIX.
Proof. reflexivity. Qed.

Example of_int_eleven : Str.of_int 11 = Str.lit "11".
Proof. reflexivity. Qed.

Example clean_sql_fenced :
  clean_sql (Str.lit "<think>hm</think>```sql" ++ nl ++ DEMO_SQL ++ nl ++ FENCE)
  = DEMO_SQL.
Proof. reflexivity. Qed.

Example has_sql_keyword_lower_case :
  has_sql_keyword happy_env (Str.lit "select 1") = true.
Proof. reflexivity. Qed.

(** ** Routers and the transcript *)

Lemma differ_only_in_messages_fields (a b : DeepState) :
  differ_only_in_messages a b ->
  intent_type a = intent_type b /\
  intent_ambiguous a = intent_ambiguous b /\
  query_data a = query_data b /\
  answer a = answer b.
Proof.
  unfold differ_only_in_messages; intros H.
  repeat split.
  - exact (f_equal intent_type H).
  - exact (f_equal intent_ambiguous H).
  - exact (f_equal query_data H).
  - exact (f_equal answer H).
Qed.

(** C8: the transcript is never consulted for routing.  For two states
    that differ only in [messages], the router after classify-intent
    ([intent_path]), the router after the clarification stage
    ([analyze_path_map]), the router after repair-sql ([fix_path]) and
    the edge out of every stage ([route]) give the same decision. *)
Theorem routers_ignore_transcript (a b : DeepState) :
  differ_only_in_messages a b ->
  intent_path a = intent_path b /\
  analyze_path_map a = analyze_path_map b /\
  fix_path a = fix_path b /\
  forall n, route n a = route n b.
Proof.
  intros H.
  destruct (differ_only_in_messages_fields H) as (Hi & Ha & Hq & _).
  assert (P1 : intent_path a = intent_path b)
    by (unfold intent_path; now rewrite Hi).
  assert (P2 : analyze_path_map a = analyze_path_map b)
    by (unfold analyze_path_map, get_user_question; now rewrite Ha).
  assert (P3 : fix_path a = fix_path b)
    by (unfold fix_path; now rewrite Hq, Hi).
  repeat split; trivial.
  intros []; simpl; trivial.
Qed.

(** ** Classification *)

Section Classification.

Variable env : Env.
Variable graph_database : pystr.

Lemma parse_intent_world (st st' : DeepState) (w w' : World) :
  parse_intent env st w = Ok st' w' -> w' = Call SvClassify :: w.
Proof.
  unfold parse_intent, try_except, bind, call, raise, ret.
  destruct (classify_reply env (calls SvClassify w) (user_input st)); try discriminate.
  destruct (_parse_intent_result env (_extract_response_text p)) as [i r].
  now intros [= _ <-].
Qed.

(** C6: when the classify-intent stage sets the intent to [other], the
    router after it returns the terminal marker and the run ends there:
    the stage's state is the final one, and the only stage the engine
    entered is classify-intent, so field discovery, SQL generation,
    repair and summarize are never invoked. *)
Theorem other_intent_ends_run (fuel : nat) (st st' : DeepState) (w w' : World) :
  parse_intent env st (Enter query_intent :: w) = Ok st' w' ->
  intent_type st' = OTHER ->
  intent_path st' = END /\
  final (run env graph_database (S fuel) query_intent [] st w) = Finished st' /\
  updates (run env graph_database (S fuel) query_intent [] st w)
    = [(query_intent, st')] /\
  entered (world (run env graph_database (S fuel) query_intent [] st w))
    = entered w ++ [query_intent].
Proof.
  intros Hp Hi.
  assert (Hr : intent_path st' = END) by (unfold intent_path; now rewrite Hi).
  pose proof (parse_intent_world _ _ Hp) as Hw.
  simpl. rewrite Hp. simpl. rewrite Hr. simpl.
  repeat split; trivial.
  now rewrite Hw.
Qed.

End Classification.

Lemma parse_intent_result_other (env : Env) (reply : pystr) :
  reads_as_label env reply = false ->
  _parse_intent_result env reply = (OTHER, Some reply).
Proof.
  unfold reads_as_label, _parse_intent_result; cbv zeta.
  destruct (Str.eqb _ LABEL_QUERY); [discriminate|].
  destruct (Str.eqb _ LABEL_ANALYZE); [discriminate|].
  destruct (Str.contains LABEL_QUERY _), (Str.contains LABEL_ANALYZE _),
    (Str.len _ <? 20)%Z; simpl; intros; try discriminate; reflexivity.
Qed.

Lemma parse_intent_result_label (env : Env) (reply : pystr) :
  reads_as_label env reply = true ->
  _parse_intent_result env reply = (QUERY, None) \/
  _parse_intent_result env reply = (ANALYZE, None).
Proof.
  unfold reads_as_label, _parse_intent_result; cbv zeta.
  destruct (Str.eqb _ LABEL_QUERY); [now left|].
  destruct (Str.eqb _ LABEL_ANALYZE); [now right|].
  destruct (Str.contains LABEL_QUERY _), (Str.contains LABEL_ANALYZE _),
    (Str.len _ <? 20)%Z; simpl; intros; try discriminate; auto.
Qed.

(** C7, as the code has it: the stage works on the text of the
    classifier reply after [_extract_response_text] has cut everything
    up to the last [</think>] and stripped the white space at both
    ends.  When that text does not read as a label (it is not [query]
    or [analyze] up to case and surrounding white space, and it is not
    a text shorter than 20 characters that contains one of them), the
    stage sets the intent to [other] and that text, cut and stripped,
    becomes the answer; when it is empty the answer is left as it was,
    which is empty when a run starts. *)
Theorem freeform_reply_is_other (env : Env) (st : DeepState) (w : World)
    (raw : pystr) :
  classify_reply env (calls SvClassify w) (user_input st) = inr raw ->
  reads_as_label env (_extract_response_text raw) = false ->
  exists st',
    parse_intent env st w = Ok st' (Call SvClassify :: w) /\
    intent_type st' = OTHER /\
    answer st' = (if Str.truthy (_extract_response_text raw)
                  then _extract_response_text raw else answer st) /\
    (answer st = [] -> answer st' = _extract_response_text raw).
Proof.
  intros Hc Hl.
  unfold parse_intent, try_except, bind, call, ret.
  rewrite Hc, (parse_intent_result_other _ _ Hl).
  destruct (_extract_response_text raw) as [|c r] eqn:E; simpl;
    eexists; repeat split; auto.
Qed.

(** ** SQL generation *)

Lemma calls_other (s s' : Service) (w : World) :
  Service_eqb s s' = false -> calls s (Call s' :: w) = calls s w.
Proof. intros H; simpl; now rewrite H. Qed.

(** C10: what [code_sql] stores.  When the stage returns, either an
    answer was already set and the stage left [final_sql] and [answer]
    alone, or the model replied and, with [res] the reply after the
    clean-up: if [res] is non-empty and its upper-cased text contains
    SELECT, INSERT, UPDATE or DELETE, then [final_sql] is [res]; otherwise
    [final_sql] is unchanged and [answer] is the fixed failure message.
    Hence whenever [final_sql] changes, the stored text contains one of
    the four keywords, case-insensitively. *)
Theorem code_sql_stores_only_sql (env : Env) (st st' : DeepState)
    (w w' : World) :
  code_sql env st w = Ok st' w' ->
  ((Str.truthy (answer st) = true /\
    final_sql st' = final_sql st /\ answer st' = answer st)
   \/
   exists q_text s_text reply,
     coder_reply env (calls SvCoder w) (actual_query st) (schema_context st)
       q_text s_text = inr reply /\
     let res := clean_sql reply in
     if Str.truthy res && has_sql_keyword env res
     then final_sql st' = Some res /\ answer st' = answer st
     else final_sql st' = final_sql st /\ answer st' = INVALID_SQL_MSG)
  /\
  (final_sql st' <> final_sql st ->
   exists res,
     final_sql st' = Some res /\ res <> [] /\
     List.existsb (fun keyword => Str.contains keyword (str_upper env res))
       SQL_KEYWORDS = true).
Proof.
  unfold code_sql.
  destruct (Str.truthy (answer st)) eqn:Ha.
  - unfold ret; intros [= <- <-]; simpl.
    split; [left; auto | intros C; now elim C].
  - unfold bind, call, ret.
    destruct (sql_history env (calls SvSqlHistory w) (tables st)) as [e|sh];
      [discriminate|].
    destruct (query_history env _ (actual_query st)) as [e|qh]; [discriminate|].
    rewrite !calls_other by reflexivity.
    match goal with
    | |- context [coder_reply env ?i ?a ?b ?c ?d] =>
      destruct (coder_reply env i a b c d) as [e|reply] eqn:Hr; [discriminate|]
    end.
    destruct (Str.truthy (clean_sql reply) && has_sql_keyword env (clean_sql reply))
      eqn:Hk; intros [= <- <-]; simpl.
    + split.
      * right; do 3 eexists; split; [exact Hr|]. cbv zeta. rewrite Hk. auto.
      * intros _. exists (clean_sql reply).
        apply andb_prop in Hk as [Ht Hs].
        repeat split; trivial.
        intros E; rewrite E in Ht; discriminate.
    + split.
      * right; do 3 eexists; split; [exact Hr|]. cbv zeta. rewrite Hk. auto.
      * intros C; now elim C.
Qed.

(** ** What the keyword test accepts *)

Lemma startswith_spec (p s : pystr) :
  Str.startswith p s = true <-> exists post, s = p ++ post.
Proof.
  revert s. induction p as [|a p IH]; intros s; cbn.
  - split; [intros _; now exists s | reflexivity].
  - destruct s as [|b s].
    + split; [discriminate | intros [post H]; discriminate].
    + rewrite andb_true_iff, N.eqb_eq, IH. split.
      * intros [-> [post ->]]. now exists post.
      * intros [post [= -> ->]]. split; [reflexivity | now exists post].
Qed.

Lemma contains_spec (sub s : pystr) :
  Str.contains sub s = true <-> exists pre post, s = pre ++ sub ++ post.
Proof.
  induction s as [|c s IH].
  - cbn [Str.contains]. rewrite orb_false_r, startswith_spec. split.
    + intros [post H]. now exists [], post.
    + intros [[|x pre] [post H]]; [now exists post | discriminate].
  - cbn [Str.contains]. rewrite orb_true_iff, startswith_spec, IH. split.
    + intros [[post H] | [pre [post H]]].
      * now exists [], post.
      * exists (c :: pre), post. now rewrite H.
    + intros [[|x pre] [post H]].
      * left. now exists post.
      * right. injection H as -> ->. now exists pre, post.
Qed.

(** With the ASCII case mapping, a text passes the test for a keyword
    exactly when it contains the keyword in some mixture of upper and
    lower case. *)
Lemma contains_in_any_case (keyword s : pystr) :
  Str.contains keyword (Str.ascii_upper s) = true <->
  exists pre mid post,
    s = pre ++ mid ++ post /\ Str.ascii_upper mid = keyword.
Proof.
  rewrite contains_spec. unfold Str.ascii_upper. split.
  - intros (pre' & post' & H).
    apply map_eq_app in H as (pre & rest & -> & _ & H).
    apply map_eq_app in H as (mid & post & -> & Hm & _).
    now exists pre, mid, post.
  - intros (pre & mid & post & -> & <-).
    rewrite !map_app. eauto.
Qed.

(** ** Input validation *)

Lemma lstrip_spaces (q : pystr) :
  Forall (fun c => Str.isspace c = true) q -> Str.lstrip q = [].
Proof.
  induction 1 as [|c r Hc _ IH]; simpl; [reflexivity|].
  now rewrite Hc.
Qed.

Lemma blank_spaces (q : pystr) :
  Forall (fun c => Str.isspace c = true) q -> blank (Some q) = true.
Proof.
  intros H; unfold blank, Str.strip.
  rewrite (lstrip_spaces H); simpl.
  now rewrite orb_true_r.
Qed.

(** C9, as the code has it: a new request (no resume value) whose query
    is missing, empty or made of white space only never starts a run:
    no stage is entered and the checkpoint store is left as it was, in
    [process_chat] and in [stream_chat].  Both build the graph object
    before they look at the query: once that has succeeded,
    [process_chat] raises [InvalidQueryError] and [stream_chat] yields
    the single error event carrying its message. *)
Theorem blank_query_rejected (env : Env) (query : option pystr)
    (database_id session : pystr) (store : Store) (w : World) :
  match query with
  | None => True
  | Some q => Forall (fun c => Str.isspace c = true) q
  end ->
  let p := process_chat env query database_id session None store w in
  let s := stream_chat env query database_id session None store w in
  snd (fst p) = store /\ entered (snd p) = entered w /\
  snd (fst s) = store /\ entered (snd s) = entered w /\
  (forall u, graph_build env (calls SvBuildGraph w) database_id = inr u ->
     fst (fst p) = ChatRaised (InvalidQueryError EMPTY_QUERY_MSG) /\
     fst (fst s) = [EvError EMPTY_QUERY_MSG]).
Proof.
  intros Hq.
  assert (Hb : blank query = true).
  { destruct query as [q|]; [now apply blank_spaces | reflexivity]. }
  unfold process_chat, stream_chat; cbv zeta.
  destruct (graph_build env (calls SvBuildGraph w) database_id) as [e|u];
    rewrite ?Hb; simpl; repeat split; trivial; intros; discriminate.
Qed.

(** ** The engine, one step at a time *)

Section EngineSteps.

Variable env : Env.
Variable graph_database : pystr.

Lemma run_goto (fuel : nat) (n n' : Node) (rs : list pystr)
    (st st' : DeepState) (w w' : World) :
  exec env graph_database n rs st (Enter n :: w) = Ok st' w' ->
  route n st' = Goto n' ->
  run env graph_database (S fuel) n rs st w =
  {| updates := (n, st') :: updates (run env graph_database fuel n' [] st' w');
     final := final (run env graph_database fuel n' [] st' w');
     world := world (run env graph_database fuel n' [] st' w') |}.
Proof. intros He Hr; simpl; now rewrite He, Hr. Qed.

Lemma run_end (fuel : nat) (n : Node) (rs : list pystr)
    (st st' : DeepState) (w w' : World) :
  exec env graph_database n rs st (Enter n :: w) = Ok st' w' ->
  route n st' = END ->
  run env graph_database (S fuel) n rs st w =
  {| updates := [(n, st')]; final := Finished st'; world := w' |}.
Proof. intros He Hr; simpl; now rewrite He, Hr. Qed.

End EngineSteps.

(** ** A query answered at the first execution *)

Section FirstExecutionSucceeds.

Variable env : Env.
Variables (store : Store) (q db sid : pystr) (w : World).
Variables (raw : pystr) (schema : list (pystr * pystr)) (qi : QueryIntent).
Variables (found_reply schema_md cols_md : pystr).
Variables (sh : list pystr) (qh : list (pystr * pystr)).
Variables (sql_reply table : pystr).

(** The classifier's reply reads as the label [query]. *)
Hypothesis classified :
  classify_reply env (calls SvClassify w) q = inr raw.
Hypothesis is_query :
  _parse_intent_result env (_extract_response_text raw) = (QUERY, None).

(** The analysis finds the request answerable and unambiguous. *)
Hypothesis schemas_ok :
  table_schemas env (calls SvSchemas w) db = inr (Some schema).
Hypothesis analysed :
  analyze_reply env (calls SvAnalyze w) q NO_INFO (render_tables schema)
  = inr qi.
Hypothesis answerable : qi_cannot_answer qi = [].
Hypothesis unambiguous : qi_intent_ambiguous qi = [].

(** Field discovery succeeds. *)
Hypothesis searched :
  search_reply env (calls SvSearchAgent w) (qi_actual_query qi)
  = inr found_reply.
Hypothesis is_list : Str.startswith LBRACKET (id_list_text env found_reply) = true.
Hypothesis looked_up :
  field_lookup env (calls SvFieldLookup w) (id_list_text env found_reply)
  = inr (FieldsFound schema_md cols_md).

(** SQL generation succeeds. *)
Hypothesis sql_hist : sql_history env (calls SvSqlHistory w) [] = inr sh.
Hypothesis query_hist :
  query_history env (calls SvQueryHistory w) (qi_actual_query qi) = inr qh.
Hypothesis coded :
  coder_reply env (calls SvCoder w) (qi_actual_query qi) schema_md
    (query_his_text_of qh) (sql_his_text_of sh) = inr sql_reply.
Hypothesis valid_sql :
  Str.truthy (clean_sql sql_reply) && has_sql_keyword env (clean_sql sql_reply)
  = true.

(** The first execution succeeds and renders a table. *)
Hypothesis connected : db_engine env (calls SvEngine w) db = inr tt.
Hypothesis executed :
  read_sql env (calls SvExecute w) (Some (clean_sql sql_reply)) = inr table.
Hypothesis rendered : table <> [].

(** C3, as the code has it: when the intent is [query], nothing is
    ambiguous, field discovery and SQL generation succeed and the first
    execution succeeds, the run ends normally after the five stages
    classify, clarify, discover, generate and repair, without a call to
    the repair agent; [process_chat] reports completion with the
    rendered table as answer, and the attempt counter stands at 1: it
    counts executions, and the one execution was counted. *)
Theorem first_execution_success (fuel : nat) :
  let r := start env (5 + fuel) store q db sid w in
  exists st',
    final r = Finished st' /\
    cnt st' = 1%Z /\
    answer st' = table /\
    query_data st' = table /\
    final_sql st' = Some (clean_sql sql_reply) /\
    chat_result sid (final r)
      = ChatCompleted table (Some (clean_sql sql_reply)) table sid /\
    entered (world r)
      = entered w ++ [query_intent; query_analyze; table_search; sql_coder; sql_fix] /\
    calls SvExecute (world r) = S (calls SvExecute w) /\
    calls SvRepair (world r) = calls SvRepair w.
Proof.
  cbv zeta. unfold start.
  set (s0 := initial_state (store sid) q db sid).
  (* classify *)
  set (s1 := set_intent_type
               (append_message s0 ROLE_ROUTE
                  (intent_map_get (_extract_response_text raw))) QUERY).
  assert (E1 : exec env db query_intent [] s0 (Enter query_intent :: w)
               = Ok s1 (Call SvClassify :: Enter query_intent :: w)).
  { simpl. unfold parse_intent, try_except, bind, call, ret. simpl.
    rewrite classified, is_query. reflexivity. }
  (* clarify *)
  set (s2 := set_intent_ambiguous
               (append_message
                  (set_actual_query (set_table_schema s1 (render_tables schema))
                     (qi_actual_query qi))
                  ROLE_ANALYZE (qi_thought qi)) []).
  assert (E2 : exec env db query_analyze [] s1
                 (Enter query_analyze :: Call SvClassify :: Enter query_intent :: w)
               = Ok s2 (Call SvAnalyze :: Call SvSchemas :: Enter query_analyze
                        :: Call SvClassify :: Enter query_intent :: w)).
  { simpl. unfold analyze_query, bind, call, ret. simpl.
    rewrite schemas_ok. simpl. rewrite analysed, answerable, unambiguous.
    reflexivity. }
  (* discover *)
  set (s3 := append_message (set_schema_context s2 schema_md) ROLE_SEARCH cols_md).
  assert (E3 : forall w0, calls SvSearchAgent w0 = calls SvSearchAgent w ->
                 calls SvFieldLookup w0 = calls SvFieldLookup w ->
                 exec env db table_search [] s2 w0
                 = Ok s3 (Call SvFieldLookup :: Call SvSearchAgent :: w0)).
  { intros w0 Ha Hb.
    change (exec env db table_search [] s2 w0) with (search env s2 w0).
    unfold search, bind, call, ret.
    change (answer s2) with (@nil N).
    change (actual_query s2) with (qi_actual_query qi).
    cbn [Str.truthy].
    rewrite Ha, searched, is_list; cbn iota.
    rewrite !calls_other by reflexivity.
    rewrite Hb, looked_up. reflexivity. }
  (* generate *)
  set (s4 := set_final_sql
               (append_message s3 ROLE_CODER
                  (FENCE_SQL ++ nl ++ sql_reply ++ nl ++ FENCE))
               (Some (clean_sql sql_reply))).
  assert (E4 : forall w0, calls SvSqlHistory w0 = calls SvSqlHistory w ->
                 calls SvQueryHistory w0 = calls SvQueryHistory w ->
                 calls SvCoder w0 = calls SvCoder w ->
                 exec env db sql_coder [] s3 w0
                 = Ok s4 (Call SvCoder :: Call SvQueryHistory :: Call SvSqlHistory :: w0)).
  { intros w0 Ha Hb Hc.
    change (exec env db sql_coder [] s3 w0) with (code_sql env s3 w0).
    unfold code_sql, bind, call, ret.
    change (answer s3) with (@nil N).
    change (actual_query s3) with (qi_actual_query qi).
    change (schema_context s3) with schema_md.
    change (tables s3) with (@nil pystr).
    cbn [Str.truthy].
    rewrite Ha, sql_hist; cbn iota.
    rewrite !calls_other by reflexivity.
    rewrite Hb, query_hist; cbn iota.
    rewrite !calls_other by reflexivity.
    rewrite Hc, coded; cbn iota. rewrite valid_sql. reflexivity. }
  (* execute *)
  set (s5 := set_answer (set_query_data (set_cnt s4 1) table) table).
  assert (E5 : forall w0, calls SvEngine w0 = calls SvEngine w ->
                 calls SvExecute w0 = calls SvExecute w ->
                 exec env db sql_fix [] s4 w0
                 = Ok s5 (Call SvExecute :: Call SvEngine :: w0)).
  { intros w0 Ha Hb.
    change (exec env db sql_fix [] s4 w0) with (fix_sql env db s4 w0).
    unfold fix_sql, fix_sql_traced, bind, call, call_caught, ret.
    change (answer s4) with (@nil N).
    change (final_sql s4) with (Some (clean_sql sql_reply)).
    cbn [Str.truthy].
    rewrite Ha, connected; cbn iota.
    rewrite !calls_other by reflexivity.
    rewrite Hb, executed. reflexivity. }
  assert (R5 : route sql_fix s5 = END).
  { simpl. unfold fix_path. simpl. destruct table; [now elim rendered|reflexivity]. }
  change (5 + fuel) with (S (S (S (S (S fuel))))).
  erewrite run_goto; [| exact E1 | reflexivity].
  erewrite run_goto; [| exact E2 | reflexivity].
  erewrite run_goto; [| apply E3; reflexivity | reflexivity].
  erewrite run_goto; [| apply E4; reflexivity | reflexivity].
  erewrite run_end; [| apply E5; reflexivity | exact R5].
  exists s5. simpl.
  repeat split; trivial.
  - destruct table; [now elim rendered|reflexivity].
  - now rewrite <- !app_assoc.
Qed.

End FirstExecutionSucceeds.

(** *** The scenario of the specification *)

Lemma first_execution_success_witness :
  exists st',
    final (start happy_env 25 empty_store DEMO_QUERY DEMO_DB DEMO_SESSION [])
      = Finished st' /\
    cnt st' = 1%Z /\ answer st' = DEMO_TABLE.
Proof.
  destruct (@first_execution_success happy_env empty_store DEMO_QUERY DEMO_DB
              DEMO_SESSION [] LABEL_QUERY
              DEMO_SCHEMA
              (plain_analysis DEMO_QUERY) TABLE_LIST
              (Str.lit "product_id, sales_amount")
              (Str.lit "sales.product_id, sales.sales_amount")
              [] [] DEMO_SQL DEMO_TABLE)
    with (fuel := 20) as (st' & Hf & Hc & Ha & _);
    try reflexivity; try discriminate.
  exists st'; auto.
Defined.

(** C3 as stated fails: in the scenario of the specification the run
    completes with the table as answer, and the attempt counter is 1,
    not 0. *)
Lemma first_execution_counter_not_zero :
  exists st',
    final (start happy_env 25 empty_store DEMO_QUERY DEMO_DB DEMO_SESSION [])
      = Finished st' /\
    intent_type st' = QUERY /\
    answer st' = DEMO_TABLE /\
    cnt st' = 1%Z /\ cnt st' <> 0%Z.
Proof.
  vm_compute. eexists. repeat split. discriminate.
Qed.

(** ** The repair loop *)

Section RepairLoop.

Variable env : Env.
Variable graph_database : pystr.

(** What each way out of [fix_sql] did to the counter, the answer, the
    result and the call log. *)
Lemma fix_sql_traced_inv (st st' : DeepState) (w w' : World) (tag : FixOutcome) :
  fix_sql_traced env graph_database st w = Ok (tag, st') w' ->
  match tag with
  | Skipped =>
    answer st <> [] /\ w' = w /\
    st' = append_message st (ROLE_FIX ++ Str.of_int (cnt st)) []
  | Succeeded =>
    answer st = [] /\ w' = Call SvExecute :: Call SvEngine :: w /\
    cnt st' = (cnt st + 1)%Z /\
    read_sql env (calls SvExecute w) (final_sql st) = inr (query_data st') /\
    answer st' = (if IntentType_eqb (intent_type st) QUERY
                  then query_data st' else [])
  | Exhausted =>
    answer st = [] /\ w' = Call SvExecute :: Call SvEngine :: w /\
    cnt st' = (cnt st + 1)%Z /\ (10 < cnt st')%Z /\
    answer st' = EXHAUSTED_MSG /\ query_data st' = query_data st /\
    final_sql st' = final_sql st
  | Repaired =>
    answer st = [] /\
    w' = Call SvRepair :: Call SvExecute :: Call SvEngine :: w /\
    cnt st' = (cnt st + 1)%Z /\ (cnt st' <= 10)%Z /\
    answer st' = [] /\ query_data st' = query_data st
  | GaveUp =>
    answer st = [] /\
    w' = Call SvRepair :: Call SvExecute :: Call SvEngine :: w /\
    cnt st' = (cnt st + 1)%Z /\ (cnt st' <= 10)%Z /\
    query_data st' = query_data st
  end.
Proof.
  unfold fix_sql_traced.
  destruct (answer st) as [|c a] eqn:Ha; cbn [Str.truthy].
  2:{ unfold ret. intros [= <- <- <-]. repeat split; congruence. }
  unfold bind, call, call_caught, ret.
  destruct (db_engine env (calls SvEngine w) graph_database) as [e|u];
    [discriminate|].
  rewrite calls_other by reflexivity.
  destruct (read_sql env (calls SvExecute w) (final_sql st)) as [error|table]
    eqn:Hx.
  - cbn [cnt set_cnt].
    destruct (cnt st + 1 >? 10)%Z eqn:Hc.
    + intros [= <- <- <-]. cbn. repeat split; trivial. lia.
    + rewrite !calls_other by reflexivity.
      match goal with
      | |- context [repair_reply env ?i ?a ?b ?c] =>
        destruct (repair_reply env i a b c) as [e|reply]; [discriminate|]
      end.
      destruct (Str.contains TAG_SQL (clean_fix reply));
        [|destruct (Str.startswith TAG_REPLY (clean_fix reply))];
        intros [= <- <- <-]; cbn; repeat split; trivial; lia.
  - intros [= <- <- <-].
    destruct (intent_type st); cbn; repeat split; trivial.
Qed.

Lemma fix_sql_as_traced (st st' : DeepState) (w w' : World) :
  fix_sql env graph_database st w = Ok st' w' ->
  exists tag, fix_sql_traced env graph_database st w = Ok (tag, st') w'.
Proof.
  unfold fix_sql, bind, ret.
  destruct (fix_sql_traced env graph_database st w) as [[tag s] w0| |];
    try discriminate.
  intros [= <- <-]. now exists tag.
Qed.

(** The engine follows the loop. *)
Lemma run_follows_loops (st : DeepState) (w : World) (k : nat)
    (st' : DeepState) (w' : World) :
  loops env graph_database st w k st' w' ->
  forall fuel,
    final (run env graph_database (k + fuel) sql_fix [] st w)
    = final (run env graph_database fuel sql_fix [] st' w').
Proof.
  induction 1 as [|k st1 w1 st2 w2 _ IH He Hr]; intros fuel; [reflexivity|].
  replace (S k + fuel) with (k + S fuel) by lia.
  rewrite IH.
  erewrite run_goto; [reflexivity | exact He | exact Hr].
Qed.

(** While the answer is still empty after [k] rounds, every round
    executed the SQL once, and a round called the repair agent only with
    the counter at 10 or less. *)
Lemma loops_count (st : DeepState) (w : World) (k : nat)
    (st' : DeepState) (w' : World) :
  cnt st = 0%Z ->
  loops env graph_database st w k st' w' ->
  answer st' = [] ->
  cnt st' = Z.of_nat k /\
  calls SvRepair w' <= calls SvRepair w + Nat.min k 10 /\
  calls SvExecute w' = calls SvExecute w + k.
Proof.
  intros H0.
  induction 1 as [|k st1 w1 st2 w2 _ IH He Hr]; intros Ha.
  - cbn. repeat split; lia.
  - destruct (fix_sql_as_traced _ _ He) as [tag Ht].
    pose proof (fix_sql_traced_inv _ _ Ht) as Hi.
    destruct tag.
    + destruct Hi as (Hne & _ & ->). now elim Hne.
    + destruct Hi as (Ha1 & -> & Hc & _).
      destruct (IH Ha1) as (I1 & I2 & I3).
      cbn. repeat split; lia.
    + destruct Hi as (_ & _ & _ & _ & Hm & _).
      rewrite Ha in Hm. discriminate.
    + destruct Hi as (Ha1 & -> & Hc & Hle & _).
      destruct (IH Ha1) as (I1 & I2 & I3).
      cbn. repeat split; lia.
    + destruct Hi as (Ha1 & -> & Hc & Hle & _).
      destruct (IH Ha1) as (I1 & I2 & I3).
      cbn. repeat split; lia.
Qed.

(** When every result renders as a non-empty table, a round that is
    sent back to the stage with the answer still empty was a failed
    execution followed by a repair. *)
Lemma loops_count_repairs (st : DeepState) (w : World) (k : nat)
    (st' : DeepState) (w' : World) :
  renders_tables env ->
  loops env graph_database st w k st' w' ->
  answer st' = [] ->
  calls SvRepair w' = calls SvRepair w + k /\
  (0 < k -> (cnt st' <= 10)%Z).
Proof.
  intros Hrender.
  induction 1 as [|k st1 w1 st2 w2 _ IH He Hr]; intros Ha.
  - split; lia.
  - destruct (fix_sql_as_traced _ _ He) as [tag Ht].
    pose proof (fix_sql_traced_inv _ _ Ht) as Hi.
    destruct tag.
    + destruct Hi as (Hne & _ & ->). now elim Hne.
    + destruct Hi as (_ & _ & _ & Hx & _).
      apply Hrender in Hx. unfold fix_path in Hr.
      destruct (query_data st2); [now elim Hx|].
      cbn in Hr. destruct (IntentType_eqb _ _); discriminate.
    + destruct Hi as (_ & _ & _ & _ & Hm & _).
      rewrite Ha in Hm. discriminate.
    + destruct Hi as (Ha1 & -> & Hc & Hle & _).
      destruct (IH Ha1) as (I2 & _).
      cbn. split; lia.
    + destruct Hi as (Ha1 & -> & Hc & Hle & _).
      destruct (IH Ha1) as (I2 & _).
      cbn. split; lia.
Qed.

(** C1, as the code has it: [fix_sql] increments the counter on entry
    and tests [cnt > 10] after the execution has failed.  Starting the
    loop with the counter at 0, a run that leaves through the exhausted
    branch after [k] rounds has the counter at [k + 1], above 10, the
    fixed exhaustion message as answer, and at most ten calls to the
    repair agent behind it.  When every successful execution renders a
    non-empty table, there were exactly ten rounds: the counter stands
    at 11 (eleven executions were counted, the last one failed), and
    exactly ten calls to the repair agent were made and no eleventh. *)
Theorem exhaustion_after_ten_repairs (st : DeepState) (w : World) (k : nat)
    (st1 : DeepState) (w1 : World) (st2 : DeepState) (w2 : World) :
  cnt st = 0%Z ->
  loops env graph_database st w k st1 w1 ->
  fix_sql_traced env graph_database st1 (Enter sql_fix :: w1)
    = Ok (Exhausted, st2) w2 ->
  answer st2 = EXHAUSTED_MSG /\
  cnt st2 = (Z.of_nat k + 1)%Z /\ (10 < cnt st2)%Z /\
  calls SvRepair w2 <= calls SvRepair w + 10 /\
  calls SvExecute w2 = calls SvExecute w + k + 1 /\
  (renders_tables env ->
   k = 10 /\ cnt st2 = 11%Z /\
   calls SvRepair w2 = calls SvRepair w + 10 /\
   calls SvExecute w2 = calls SvExecute w + 11).
Proof.
  intros H0 Hl Hx.
  pose proof (fix_sql_traced_inv _ _ Hx) as (Ha & -> & Hc & Hgt & Hm & _).
  destruct (loops_count H0 Hl Ha) as (I1 & I2 & I3).
  cbn.
  split; [exact Hm|].
  split; [lia|].
  split; [lia|].
  split; [lia|].
  split; [lia|].
  intros Hrender.
  destruct (loops_count_repairs Hrender Hl Ha) as (J1 & J2).
  repeat split; lia.
Qed.

End RepairLoop.

(** ** Stages that find an answer already set *)

Section AnswerSet.

Variable env : Env.
Variable graph_database : pystr.

Lemma guarded_stage_skips (n : Node) (rs : list pystr) (st : DeepState)
    (w : World) :
  guarded n = true -> answer st <> [] ->
  exec env graph_database n rs st w
  = Ok (append_message st (skip_role n st) []) w.
Proof.
  intros Hg Ha.
  destruct n; try discriminate; cbn [exec skip_role];
    unfold search, code_sql, fix_sql, fix_sql_traced, analyze_data, bind, ret;
    destruct (answer st); try (now elim Ha); reflexivity.
Qed.

Lemma route_ignores_messages (n : Node) (st : DeepState)
    (m : list QueryMessage) :
  route n (set_messages st m) = route n st.
Proof. destruct n; reflexivity. Qed.

Lemma route_ignores_answer (n : Node) (st : DeepState) (a : pystr) :
  route n (set_answer st a) = route n st.
Proof. destruct n; reflexivity. Qed.

Lemma calls_enter (s : Service) (n : Node) (w : World) :
  calls s (Enter n :: w) = calls s w.
Proof. reflexivity. Qed.

(** With a result in hand the skipping stages lead to the end. *)
Lemma answered_run_ends (n : Node) (st : DeepState) (w : World) (fuel : nat) :
  guarded n = true -> answer st <> [] -> query_data st <> [] ->
  exists st',
    final (run env graph_database (4 + fuel) n [] st w) = Finished st' /\
    differ_only_in_messages st st' /\
    forall s, calls s (world (run env graph_database (4 + fuel) n [] st w))
              = calls s w.
Proof.
  intros Hg Ha Hq.
  assert (skip : forall m k st0 w0,
             guarded m = true -> answer st0 = answer st ->
             exec env graph_database m k st0 w0
             = Ok (append_message st0 (skip_role m st0) []) w0).
  { intros m k st0 w0 Hm E. apply guarded_stage_skips; congruence. }
  assert (at_fix : forall st0 w0 f,
             answer st0 = answer st -> query_data st0 = query_data st ->
             differ_only_in_messages st st0 ->
             (forall s, calls s w0 = calls s w) ->
             exists st',
               final (run env graph_database (2 + f) sql_fix [] st0 w0)
                 = Finished st' /\
               differ_only_in_messages st st' /\
               forall s,
                 calls s (world (run env graph_database (2 + f) sql_fix [] st0 w0))
                 = calls s w).
  { intros st0 w0 f E1 E2 D C.
    change (2 + f) with (S (S f)).
    destruct (IntentType_eqb (intent_type st0) ANALYZE) eqn:Hi.
    - erewrite run_goto;
        [| apply skip; [reflexivity | exact E1]
         | cbn; unfold fix_path; cbn; rewrite E2, Hi;
           destruct (query_data st); [now elim Hq | reflexivity]].
      erewrite run_end; [| apply skip; [reflexivity | exact E1] | reflexivity].
      eexists; cbn; repeat split; [|exact C].
      unfold differ_only_in_messages in *. rewrite D. reflexivity.
    - erewrite run_end;
        [| apply skip; [reflexivity | exact E1]
         | cbn; unfold fix_path; cbn; rewrite E2, Hi;
           destruct (query_data st); [now elim Hq | reflexivity]].
      eexists; cbn; repeat split; [|exact C].
      unfold differ_only_in_messages in *. rewrite D. reflexivity. }
  assert (D0 : differ_only_in_messages st st) by reflexivity.
  destruct n; try discriminate.
  - change (4 + fuel) with (S (S (2 + fuel))).
    erewrite run_goto; [| apply skip; reflexivity | reflexivity].
    erewrite run_goto; [| apply skip; reflexivity | reflexivity].
    cbn [updates final world].
    apply at_fix; try reflexivity.
  - change (4 + fuel) with (S (2 + S fuel)).
    erewrite run_goto; [| apply skip; reflexivity | reflexivity].
    cbn [updates final world].
    apply at_fix; try reflexivity.
  - change (4 + fuel) with (2 + (2 + fuel)).
    apply at_fix; try reflexivity.
  - change (4 + fuel) with (S (3 + fuel)).
    erewrite run_end; [| apply skip; reflexivity | reflexivity].
    eexists; cbn; repeat split.
Qed.

(** How the code goes about an answer already set: the test is made by
    the stages, not by the engine and not by the routers.  Each of
    discover-fields, generate-sql, repair-sql and summarize, entered
    with a non-empty answer, calls no collaborator and returns the state
    with one empty transcript entry added and nothing else changed, so
    none of them overwrites the answer; no router reads [answer]; and
    when a query result is present as well (left by an earlier request
    on the thread), a run entering any of these stages reaches the end
    through the ordinary edges with the answer untouched. *)
Theorem answered_stages_only_log (st : DeepState) (w : World) :
  answer st <> [] ->
  (forall n rs, guarded n = true ->
     exec env graph_database n rs st w
     = Ok (append_message st (skip_role n st) []) w) /\
  (forall n a, route n (set_answer st a) = route n st) /\
  (query_data st <> [] ->
   forall n fuel, guarded n = true ->
     exists st',
       final (run env graph_database (4 + fuel) n [] st w) = Finished st' /\
       differ_only_in_messages st st' /\
       answer st' = answer st /\
       forall s, calls s (world (run env graph_database (4 + fuel) n [] st w))
                 = calls s w).
Proof.
  intros Ha. split; [|split].
  - intros n rs Hg. now apply guarded_stage_skips.
  - intros n a. destruct n; reflexivity.
  - intros Hq n fuel Hg.
    destruct (@answered_run_ends n st w fuel Hg Ha Hq) as (st' & Hf & Hd & Hc).
    exists st'. repeat split; trivial.
    symmetry. apply (differ_only_in_messages_fields Hd).
Qed.

(** Without a query result the router after repair-sql sends an
    answered state back to repair-sql, which skips again: the run never
    reaches the end and stops at the recursion limit. *)
Lemma answered_run_without_result_never_ends (st : DeepState) (w : World)
    (fuel : nat) :
  answer st <> [] -> query_data st = [] ->
  exists st' w',
    final (run env graph_database fuel sql_fix [] st w)
    = Crashed GraphRecursionError st' sql_fix [] /\
    world (run env graph_database fuel sql_fix [] st w) = w' /\
    answer st' = answer st.
Proof.
  revert st w. induction fuel as [|fuel IH]; intros st w Ha Hq.
  - cbn. eauto.
  - erewrite run_goto;
      [| apply guarded_stage_skips; [reflexivity | exact Ha]
       | cbn; unfold fix_path; cbn; now rewrite Hq].
    cbn [final world].
    destruct (IH (append_message st (skip_role sql_fix st) [])
                 (Enter sql_fix :: w) Ha Hq) as (st' & w' & H1 & H2 & H3).
    exists st', w'. auto.
Qed.

End AnswerSet.

(** ** The ambiguity mapping *)

Lemma str_eqb_eq (a b : pystr) : Str.eqb a b = true <-> a = b.
Proof.
  unfold Str.eqb. destruct (list_eq_dec N.eq_dec a b); split; congruence.
Qed.

Lemma str_eqb_refl (a : pystr) : Str.eqb a a = true.
Proof. now apply str_eqb_eq. Qed.

Lemma str_eqb_neq (a b : pystr) : a <> b -> Str.eqb a b = false.
Proof.
  intros H. destruct (Str.eqb a b) eqn:E; [|reflexivity].
  apply str_eqb_eq in E. contradiction.
Qed.

Lemma get_user_question_unresolved (st : DeepState) :
  get_user_question st = unresolved (intent_ambiguous st).
Proof. unfold get_user_question. now destruct (intent_ambiguous st). Qed.

Lemma unresolved_in (d : Ambiguity) (k : pystr) :
  In k (unresolved d) <-> In (k, None) d.
Proof.
  unfold unresolved. rewrite in_map_iff. split.
  - intros ([k' v] & E & H). apply filter_In in H as [H Hv].
    cbn in *. subst. destruct v; [discriminate | exact H].
  - intros H. exists (k, None). split; [reflexivity|].
    apply filter_In. now split.
Qed.

Lemma dict_get_set_same (d : Ambiguity) (k : pystr) (v : option pystr) :
  dict_get (dict_set d k v) k = Some v.
Proof.
  induction d as [|[k' v'] r IH]; cbn.
  - now rewrite str_eqb_refl.
  - destruct (Str.eqb k' k) eqn:E; cbn; rewrite E; [reflexivity | exact IH].
Qed.

Lemma dict_get_set_other (d : Ambiguity) (k k' : pystr) (v : option pystr) :
  k <> k' -> dict_get (dict_set d k v) k' = dict_get d k'.
Proof.
  intros Hn. induction d as [|[k0 v0] r IH]; cbn.
  - now rewrite str_eqb_neq.
  - destruct (Str.eqb k0 k) eqn:E; cbn.
    + apply str_eqb_eq in E. subst k0. now rewrite str_eqb_neq.
    + now rewrite IH.
Qed.

Lemma dict_keys_set_present (d : Ambiguity) (k : pystr) (v : option pystr) :
  In k (dict_keys d) -> dict_keys (dict_set d k v) = dict_keys d.
Proof.
  unfold dict_keys. induction d as [|[k0 v0] r IH]; cbn; [tauto|].
  intros [E | H].
  - subst. now rewrite str_eqb_refl.
  - destruct (Str.eqb k0 k) eqn:E; cbn; [reflexivity | now rewrite IH].
Qed.

Lemma dict_keys_set_absent (d : Ambiguity) (k : pystr) (v : option pystr) :
  ~ In k (dict_keys d) -> dict_keys (dict_set d k v) = dict_keys d ++ [k].
Proof.
  unfold dict_keys. induction d as [|[k0 v0] r IH]; cbn; [reflexivity|].
  intros H. rewrite str_eqb_neq by tauto. cbn. rewrite IH by tauto. reflexivity.
Qed.

(** An assignment never removes a key. *)
Lemma dict_keys_set_incl (d : Ambiguity) (k : pystr) (v : option pystr) :
  incl (dict_keys d) (dict_keys (dict_set d k v)).
Proof.
  destruct (in_dec (list_eq_dec N.eq_dec) k (dict_keys d)) as [H|H].
  - rewrite dict_keys_set_present by exact H. apply incl_refl.
  - rewrite dict_keys_set_absent by exact H. now apply incl_appl, incl_refl.
Qed.

Lemma dict_set_nodup (d : Ambiguity) (k : pystr) (v : option pystr) :
  NoDup (dict_keys d) -> NoDup (dict_keys (dict_set d k v)).
Proof.
  intros H.
  destruct (in_dec (list_eq_dec N.eq_dec) k (dict_keys d)) as [Hi|Hi].
  - now rewrite dict_keys_set_present.
  - rewrite dict_keys_set_absent by exact Hi.
    apply NoDup_app; [exact H | repeat constructor; intros [] | ].
    intros x Hx [<-|[]]. contradiction.
Qed.

Lemma dict_get_in (d : Ambiguity) (k : pystr) (v : option pystr) :
  NoDup (dict_keys d) -> (In (k, v) d <-> dict_get d k = Some v).
Proof.
  unfold dict_keys. induction d as [|[k0 v0] r IH]; cbn; intros Hn.
  - split; [tauto | discriminate].
  - inversion Hn as [|? ? Hnot Hr]; subst.
    destruct (Str.eqb k0 k) eqn:E.
    + apply str_eqb_eq in E. subst k0. split.
      * intros [[= ->] | H]; [reflexivity|].
        elim Hnot. apply in_map_iff. now exists (k, v).
      * intros [= ->]. now left.
    + rewrite <- (IH Hr). split; [|tauto].
      intros [[= -> ->] | H]; [|exact H].
      rewrite str_eqb_refl in E. discriminate.
Qed.

Lemma unresolved_nodup (d : Ambiguity) :
  NoDup (dict_keys d) -> NoDup (unresolved d).
Proof.
  unfold dict_keys, unresolved.
  induction d as [|[k v] r IH]; cbn; intros H; [constructor|].
  inversion H as [|? ? Hnot Hr]; subst.
  destruct v; cbn; [now apply IH|].
  constructor; [|now apply IH].
  intros Hin. apply Hnot. apply in_map_iff in Hin as (kv & E & Hf).
  apply filter_In in Hf as [Hf _]. apply in_map_iff. now exists kv.
Qed.

Lemma unresolved_keys (d : Ambiguity) :
  incl (unresolved d) (dict_keys d).
Proof.
  intros k H. apply unresolved_in in H.
  unfold dict_keys. apply in_map_iff. now exists (k, None).
Qed.

Lemma resolve_keys (qs vs : list pystr) (d : Ambiguity) :
  incl qs (dict_keys d) -> dict_keys (resolve d qs vs) = dict_keys d.
Proof.
  revert vs d. induction qs as [|q qs IH]; intros [|v vs] d H; cbn; trivial.
  assert (Hq : In q (dict_keys d)) by (apply H; now left).
  rewrite IH; rewrite dict_keys_set_present by exact Hq; trivial.
  intros x Hx. apply H. now right.
Qed.

Lemma resolve_get_other (qs vs : list pystr) (d : Ambiguity) (k : pystr) :
  ~ In k qs -> dict_get (resolve d qs vs) k = dict_get d k.
Proof.
  revert vs d. induction qs as [|q qs IH]; intros [|v vs] d H; cbn; trivial.
  rewrite IH by (cbn in H; tauto).
  apply dict_get_set_other. cbn in H. tauto.
Qed.

Lemma resolve_get (qs vs : list pystr) (d : Ambiguity) (j : nat) :
  NoDup qs -> List.length vs = List.length qs -> j < List.length qs ->
  dict_get (resolve d qs vs) (nth j qs []) = Some (Some (nth j vs [])).
Proof.
  revert vs d j.
  induction qs as [|q qs IH]; intros [|v vs] d j Hn Hl Hj; cbn in *;
    try lia.
  inversion Hn as [|? ? Hnot Hr]; subst.
  destruct j as [|j].
  - rewrite resolve_get_other by exact Hnot. apply dict_get_set_same.
  - apply IH; [exact Hr | lia | lia].
Qed.

Lemma resolve_nodup (qs vs : list pystr) (d : Ambiguity) :
  NoDup (dict_keys d) -> NoDup (dict_keys (resolve d qs vs)).
Proof.
  revert vs d. induction qs as [|q qs IH]; intros [|v vs] d H; cbn; trivial.
  now apply IH, dict_set_nodup.
Qed.

(** Once every open topic has its value, none is left open. *)
Lemma resolve_all (d : Ambiguity) (vs : list pystr) :
  NoDup (dict_keys d) -> List.length vs = List.length (unresolved d) ->
  unresolved (resolve d (unresolved d) vs) = [].
Proof.
  intros Hn Hl.
  destruct (unresolved (resolve d (unresolved d) vs)) as [|k r] eqn:E;
    [reflexivity | exfalso].
  assert (Hk : In k (unresolved (resolve d (unresolved d) vs)))
    by (rewrite E; now left).
  apply unresolved_in in Hk.
  apply dict_get_in in Hk; [|now apply resolve_nodup].
  destruct (in_dec (list_eq_dec N.eq_dec) k (unresolved d)) as [Hi|Hi].
  - apply In_nth with (d := []) in Hi as (j & Hj & <-).
    rewrite resolve_get in Hk;
      [discriminate | now apply unresolved_nodup | exact Hl | exact Hj].
  - rewrite resolve_get_other in Hk by exact Hi.
    apply dict_get_in in Hk; [|exact Hn].
    apply Hi. now apply unresolved_in.
Qed.

Lemma mark_unresolved_keys (cs : list pystr) (d : Ambiguity) :
  incl (dict_keys d) (dict_keys (mark_unresolved d cs)).
Proof.
  unfold mark_unresolved. revert d.
  induction cs as [|c cs IH]; intros d; cbn; [apply incl_refl|].
  eapply incl_tran; [apply dict_keys_set_incl | apply IH].
Qed.

Lemma mark_unresolved_nodup (cs : list pystr) (d : Ambiguity) :
  NoDup (dict_keys d) -> NoDup (dict_keys (mark_unresolved d cs)).
Proof.
  unfold mark_unresolved. revert d.
  induction cs as [|c cs IH]; intros d H; cbn; [exact H|].
  now apply IH, dict_set_nodup.
Qed.

Lemma mark_unresolved_get_other (cs : list pystr) (d : Ambiguity) (k : pystr) :
  ~ In k cs -> dict_get (mark_unresolved d cs) k = dict_get d k.
Proof.
  unfold mark_unresolved. revert d.
  induction cs as [|c cs IH]; intros d H; cbn; [reflexivity|].
  rewrite IH by (cbn in H; tauto).
  apply dict_get_set_other. cbn in H. tauto.
Qed.

Lemma mark_unresolved_keeps_none (cs : list pystr) (d : Ambiguity) (k : pystr) :
  dict_get d k = Some None -> dict_get (mark_unresolved d cs) k = Some None.
Proof.
  unfold mark_unresolved. revert d.
  induction cs as [|c cs IH]; intros d H; cbn; [exact H|].
  apply IH.
  destruct (list_eq_dec N.eq_dec c k) as [->|Hn].
  - apply dict_get_set_same.
  - now rewrite dict_get_set_other.
Qed.

Lemma mark_unresolved_get (cs : list pystr) (d : Ambiguity) (k : pystr) :
  In k cs -> dict_get (mark_unresolved d cs) k = Some None.
Proof.
  revert d. induction cs as [|c cs IH]; intros d H; [destruct H|].
  change (mark_unresolved d (c :: cs))
    with (mark_unresolved (dict_set d c None) cs).
  destruct (list_eq_dec N.eq_dec c k) as [->|Hn].
  - apply mark_unresolved_keeps_none, dict_get_set_same.
  - apply IH. destruct H; [contradiction | assumption].
Qed.

(** ** Clarification by interrupt *)

Lemma clarified_dict (qs vs : list pystr) (st : DeepState) :
  intent_ambiguous (clarified qs vs st) = resolve (intent_ambiguous st) qs vs.
Proof.
  revert vs st. induction qs as [|q qs IH]; intros [|v vs] st; cbn; trivial.
Qed.

Lemma clarified_rest (qs vs : list pystr) (st : DeepState) :
  actual_query (clarified qs vs st) = actual_query st /\
  user_input (clarified qs vs st) = user_input st /\
  database (clarified qs vs st) = database st /\
  answer (clarified qs vs st) = answer st.
Proof.
  revert vs st. induction qs as [|q qs IH]; intros [|v vs] st; cbn; auto.
  destruct (IH vs (set_intent_ambiguous st
                     (dict_set (intent_ambiguous st) q (Some v))))
    as (-> & -> & -> & ->).
  auto.
Qed.

Lemma clarify_done (qs vs : list pystr) (st : DeepState) (w : World) :
  List.length vs = List.length qs ->
  clarify qs vs st w = Ok (clarified qs vs st) w.
Proof.
  revert vs st. induction qs as [|q qs IH]; intros [|v vs] st H;
    cbn in H; try lia.
  - reflexivity.
  - cbn [clarify clarified]. unfold bind, interrupt. apply IH. lia.
Qed.

Lemma clarify_suspends (qs vs : list pystr) (st : DeepState) (w : World) :
  List.length vs < List.length qs ->
  clarify qs vs st w = Susp (nth (List.length vs) qs []) w.
Proof.
  revert vs st. induction qs as [|q qs IH]; intros vs st H; cbn in H; [lia|].
  destruct vs as [|v vs]; cbn [clarify List.length nth]; unfold bind, interrupt;
    [reflexivity|].
  apply IH. cbn in H. lia.
Qed.

Section Clarification.

Variable env : Env.
Variable graph_database : pystr.

Lemma analyze_query_suspends (st : DeepState) (vs : list pystr) (w : World)
    (schema : list (pystr * pystr)) :
  List.length vs < List.length (get_user_question st) ->
  table_schemas env (calls SvSchemas w) (database st) = inr (Some schema) ->
  analyze_query env st vs w
  = Susp (nth (List.length vs) (get_user_question st) []) (Call SvSchemas :: w).
Proof.
  intros Hl Hs. unfold analyze_query, bind, call.
  rewrite Hs. now rewrite clarify_suspends.
Qed.

Lemma analyze_query_done (st : DeepState) (vs : list pystr) (w : World)
    (schema : list (pystr * pystr)) (qi : QueryIntent) :
  List.length vs = List.length (get_user_question st) ->
  table_schemas env (calls SvSchemas w) (database st) = inr (Some schema) ->
  analyze_reply env (calls SvAnalyze w) (asked st)
    (ambiguity_info
       (resolve (intent_ambiguous st) (get_user_question st) vs))
    (render_tables schema) = inr qi ->
  analyze_query env st vs w
  = Ok (analysed (clarified (get_user_question st) vs st) schema qi)
       (Call SvAnalyze :: Call SvSchemas :: w).
Proof.
  intros Hl Hs Hq. unfold analyze_query, bind, call, ret.
  rewrite Hs, clarify_done by exact Hl.
  rewrite calls_other by reflexivity.
  rewrite clarified_dict. fold (asked st). rewrite Hq.
  reflexivity.
Qed.

End Clarification.

Lemma analysed_dict (st : DeepState) (schema : list (pystr * pystr))
    (qi : QueryIntent) :
  intent_ambiguous (analysed st schema qi)
  = mark_unresolved (intent_ambiguous st) (qi_intent_ambiguous qi).
Proof. unfold analysed. now destruct (Str.truthy (qi_cannot_answer qi)). Qed.

Lemma analyze_path_map_open (st : DeepState) :
  (exists k, In (k, None) (intent_ambiguous st)) ->
  analyze_path_map st = Goto query_analyze.
Proof.
  intros [k H]. apply unresolved_in in H.
  unfold analyze_path_map. rewrite get_user_question_unresolved.
  destruct (unresolved (intent_ambiguous st)); [destruct H | reflexivity].
Qed.

Lemma analyze_path_map_closed (st : DeepState) :
  (forall k, ~ In (k, None) (intent_ambiguous st)) ->
  analyze_path_map st = Goto table_search.
Proof.
  intros H. unfold analyze_path_map. rewrite get_user_question_unresolved.
  destruct (unresolved (intent_ambiguous st)) as [|k r] eqn:E; [reflexivity|].
  elim (H k). apply unresolved_in. rewrite E. now left.
Qed.

Section ClarificationRuns.

Variable env : Env.
Variable graph_database : pystr.

(** C4, as the code has it.  While some entry of the mapping has no
    value, the router after the clarification stage returns to that
    stage; when none is open it goes on to field discovery.  Entered
    with N open topics, the stage suspends once per topic, in the order
    of the mapping and each time with a different topic: with fewer than
    N values supplied the run stops at the next open topic, the stored
    state being the one the stage was entered with, and field discovery
    has not been entered.  With the N-th value the stage completes and
    asks the model again; the router then goes on to field discovery
    exactly when that reply names no ambiguous topic, and back to the
    clarification stage, for further questions, when it names one. *)
Theorem one_suspension_per_open_topic (st : DeepState) :
  NoDup (dict_keys (intent_ambiguous st)) ->
  (forall s, (exists k, In (k, None) (intent_ambiguous s)) ->
             analyze_path_map s = Goto query_analyze) /\
  (forall s, (forall k, ~ In (k, None) (intent_ambiguous s)) ->
             analyze_path_map s = Goto table_search) /\
  NoDup (get_user_question st) /\
  (forall fuel vs w schema,
     List.length vs < List.length (get_user_question st) ->
     table_schemas env (calls SvSchemas w) (database st) = inr (Some schema) ->
     final (run env graph_database (S fuel) query_analyze vs st w)
       = Interrupted (nth (List.length vs) (get_user_question st) [])
           st query_analyze vs /\
     entered (world (run env graph_database (S fuel) query_analyze vs st w))
       = entered w ++ [query_analyze]) /\
  (forall vs w schema qi,
     List.length vs = List.length (get_user_question st) ->
     table_schemas env (calls SvSchemas w) (database st) = inr (Some schema) ->
     analyze_reply env (calls SvAnalyze w) (asked st)
       (ambiguity_info
          (resolve (intent_ambiguous st) (get_user_question st) vs))
       (render_tables schema) = inr qi ->
     let st' := analysed (clarified (get_user_question st) vs st) schema qi in
     exec env graph_database query_analyze vs st w
       = Ok st' (Call SvAnalyze :: Call SvSchemas :: w) /\
     (qi_intent_ambiguous qi = [] ->
        route query_analyze st' = Goto table_search) /\
     (qi_intent_ambiguous qi <> [] ->
        route query_analyze st' = Goto query_analyze)).
Proof.
  intros Hn.
  split; [exact analyze_path_map_open|].
  split; [exact analyze_path_map_closed|].
  split; [rewrite get_user_question_unresolved; now apply unresolved_nodup|].
  split.
  - intros fuel vs w schema Hl Hs. cbn [run exec].
    erewrite analyze_query_suspends; [| exact Hl | exact Hs]. cbn.
    split; reflexivity.
  - intros vs w schema qi Hl Hs Hq st'. cbn [exec].
    split; [now apply analyze_query_done|].
    assert (Hd : intent_ambiguous st'
                 = mark_unresolved
                     (resolve (intent_ambiguous st) (get_user_question st) vs)
                     (qi_intent_ambiguous qi)).
    { unfold st'. now rewrite analysed_dict, clarified_dict. }
    cbn [route]. split.
    + intros Hc. apply analyze_path_map_closed. intros k Hk.
      rewrite Hd, Hc in Hk. cbn in Hk.
      apply unresolved_in in Hk.
      rewrite get_user_question_unresolved in Hk, Hl.
      rewrite resolve_all in Hk by assumption. destruct Hk.
    + intros Hc. apply analyze_path_map_open.
      destruct (qi_intent_ambiguous qi) as [|c cs] eqn:E; [now elim Hc|].
      exists c. rewrite Hd.
      apply dict_get_in.
      * now apply mark_unresolved_nodup, resolve_nodup.
      * apply mark_unresolved_get. now left.
Qed.

Lemma exec_keeps_keys (n : Node) (rs : list pystr) (st st' : DeepState)
    (w w' : World) :
  exec env graph_database n rs st w = Ok st' w' ->
  incl (dict_keys (intent_ambiguous st)) (dict_keys (intent_ambiguous st')).
Proof.
  destruct n; cbn [exec].
  - unfold parse_intent, try_except, bind, call, ret, raise.
    destruct (classify_reply env _ _); [discriminate|].
    destruct (_parse_intent_result env _) as [[] [a|]];
      try destruct (Str.truthy a); intros [= <- _]; apply incl_refl.
  - unfold analyze_query, bind, call, ret.
    destruct (table_schemas env _ _) as [e|[schema|]];
      [discriminate | | intros [= <- _]; apply incl_refl].
    destruct (Nat.lt_ge_cases (List.length rs)
                (List.length (get_user_question st))) as [Hl|Hl].
    + rewrite clarify_suspends by exact Hl. discriminate.
    + assert (Hc : exists st1 w1,
                 clarify (get_user_question st) rs st (Call SvSchemas :: w)
                 = Ok st1 w1 /\
                 incl (dict_keys (intent_ambiguous st))
                      (dict_keys (intent_ambiguous st1))).
      { generalize (get_user_question st) (Call SvSchemas :: w) Hl.
        clear Hl. revert st.
        induction rs as [|v vs IH]; intros st qs w0 Hl.
        - destruct qs; [|cbn in Hl; lia]. cbn. do 2 eexists.
          split; [reflexivity | apply incl_refl].
        - destruct qs as [|q qs].
          + cbn. do 2 eexists. split; [reflexivity | apply incl_refl].
          + cbn [clarify]. unfold bind, interrupt.
            destruct (IH (set_intent_ambiguous st
                            (dict_set (intent_ambiguous st) q (Some v)))
                         qs w0) as (st1 & w1 & E & I);
              [cbn in Hl; lia|].
            exists st1, w1. split; [exact E|].
            eapply incl_tran; [|exact I]. apply dict_keys_set_incl. }
      destruct Hc as (st1 & w1 & -> & I).
      destruct (analyze_reply env _ _ _ _) as [e|qi]; [discriminate|].
      intros [= <- _].
      eapply incl_tran; [exact I|].
      destruct (Str.truthy (qi_cannot_answer qi)); cbn;
        apply mark_unresolved_keys.
  - unfold search, bind, call, ret.
    destruct (Str.truthy (answer st)); [intros [= <- _]; apply incl_refl|].
    destruct (search_reply env _ _); [discriminate|].
    destruct (Str.startswith _ _); [|intros [= <- _]; apply incl_refl].
    destruct (field_lookup env _ _) as [e|[]]; try discriminate;
      intros [= <- _]; apply incl_refl.
  - unfold code_sql, bind, call, ret.
    destruct (Str.truthy (answer st)); [intros [= <- _]; apply incl_refl|].
    destruct (sql_history env _ _); [discriminate|].
    destruct (query_history env _ _); [discriminate|].
    destruct (coder_reply env _ _ _ _ _); [discriminate|].
    destruct (_ && _); intros [= <- _]; apply incl_refl.
  - intros H. apply fix_sql_as_traced in H as [tag H].
    revert H. unfold fix_sql_traced, bind, call, call_caught, ret.
    destruct (Str.truthy (answer st)); [intros [= _ <- _]; apply incl_refl|].
    destruct (db_engine env _ _); [discriminate|].
    destruct (read_sql env _ _).
    + destruct (_ >? _)%Z; [intros [= _ <- _]; apply incl_refl|].
      destruct (repair_reply env _ _ _ _); [discriminate|].
      destruct (Str.contains _ _); [|destruct (Str.startswith _ _)];
        intros [= _ <- _]; apply incl_refl.
    + destruct (IntentType_eqb _ _); intros [= _ <- _]; apply incl_refl.
  - unfold analyze_data, bind, call, ret.
    destruct (Str.truthy (answer st)); [intros [= <- _]; apply incl_refl|].
    destruct (summary_reply env _ _ _); [discriminate|].
    intros [= <- _]; apply incl_refl.
Qed.

End ClarificationRuns.

Section ResumeValues.

Variable env : Env.
Variable graph_database : pystr.

(** C5, as the code has it.  The values supplied on resume are assigned
    by the clarification stage itself, the j-th value to the j-th open
    topic of the state the stage was entered with; the assignments add
    and remove no key and touch no other entry.  When the stage returns,
    a topic answered in this way holds the supplied value unless the
    model's reply of that same execution names the topic again, in which
    case it is open again; in both cases it is still present, and no
    stage of the graph ever removes a key from the mapping. *)
Theorem resume_value_goes_to_next_open_topic (st : DeepState)
    (vs : list pystr) (w : World) (schema : list (pystr * pystr))
    (qi : QueryIntent) :
  NoDup (dict_keys (intent_ambiguous st)) ->
  List.length vs = List.length (get_user_question st) ->
  table_schemas env (calls SvSchemas w) (database st) = inr (Some schema) ->
  analyze_reply env (calls SvAnalyze w) (asked st)
    (ambiguity_info (resolve (intent_ambiguous st) (get_user_question st) vs))
    (render_tables schema) = inr qi ->
  let qs := get_user_question st in
  let d1 := resolve (intent_ambiguous st) qs vs in
  let st' := analysed (clarified qs vs st) schema qi in
  analyze_query env st vs w = Ok st' (Call SvAnalyze :: Call SvSchemas :: w) /\
  intent_ambiguous (clarified qs vs st) = d1 /\
  dict_keys d1 = dict_keys (intent_ambiguous st) /\
  (forall j, j < List.length qs ->
     dict_get d1 (nth j qs []) = Some (Some (nth j vs []))) /\
  (forall k, ~ In k qs -> dict_get d1 k = dict_get (intent_ambiguous st) k) /\
  (forall j, j < List.length qs ->
     dict_get (intent_ambiguous st') (nth j qs [])
     = if in_dec (list_eq_dec N.eq_dec) (nth j qs []) (qi_intent_ambiguous qi)
       then Some None else Some (Some (nth j vs []))) /\
  (forall n rs s s' w0 w1,
     exec env graph_database n rs s w0 = Ok s' w1 ->
     incl (dict_keys (intent_ambiguous s)) (dict_keys (intent_ambiguous s'))).
Proof.
  intros Hn Hl Hs Hq qs d1 st'.
  assert (Hqs : NoDup qs).
  { unfold qs. rewrite get_user_question_unresolved. now apply unresolved_nodup. }
  assert (Hget : forall j, j < List.length qs ->
            dict_get d1 (nth j qs []) = Some (Some (nth j vs []))).
  { intros j Hj. now apply resolve_get. }
  split; [now apply analyze_query_done|].
  split; [apply clarified_dict|].
  split.
  { apply resolve_keys. unfold qs. rewrite get_user_question_unresolved.
    apply unresolved_keys. }
  split; [exact Hget|].
  split; [intros k Hk; now apply resolve_get_other|].
  split.
  - intros j Hj. unfold st'. rewrite analysed_dict, clarified_dict.
    destruct (in_dec _ _ _) as [Hi|Hi].
    + now apply mark_unresolved_get.
    + rewrite mark_unresolved_get_other by exact Hi. now apply Hget.
  - intros n rs s s' w0 w1. apply exec_keeps_keys.
Qed.

End ResumeValues.

(** ** The repair loop, executably *)

Section RepairLoopRun.

Variable env : Env.
Variable graph_database : pystr.

Lemma fix_iter_loops (k : nat) (st : DeepState) (w : World)
    (st' : DeepState) (w' : World) :
  fix_iter env graph_database k st w = Some (st', w') -> loops env graph_database st w k st' w'.
Proof.
  revert st' w'. induction k as [|k IH]; intros st' w'; cbn.
  - intros [= <- <-]. constructor.
  - destruct (fix_iter env graph_database k st w) as [[st1 w1]|]; [|discriminate].
    destruct (fix_sql env graph_database st1 (Enter sql_fix :: w1))
      as [st2 w2| |] eqn:E; try discriminate.
    destruct (fix_path st2) as [[]|] eqn:R; try discriminate.
    intros [= <- <-]. econstructor; [now apply IH | exact E | exact R].
Qed.

End RepairLoopRun.

(** ** The properties on the scenarios *)

Lemma exhaustion_after_ten_repairs_witness :
  cnt (snd (res_value round11 (Skipped, at_repair))) = 11%Z /\
  answer (snd (res_value round11 (Skipped, at_repair))) = EXHAUSTED_MSG /\
  calls SvRepair (res_world round11) = 10 /\
  calls SvExecute (res_world round11) = 11.
Proof.
  assert (Hrender : renders_tables failing_env)
    by (intros i sql table; discriminate).
  assert (Hloop : loops failing_env DEMO_DB at_repair [] 10
                    (fst round10) (snd round10))
    by (apply fix_iter_loops; vm_compute; reflexivity).
  assert (Hx : fix_sql_traced failing_env DEMO_DB (fst round10)
                 (Enter sql_fix :: snd round10)
               = Ok (Exhausted, snd (res_value round11 (Skipped, at_repair)))
                    (res_world round11))
    by (vm_compute; reflexivity).
  destruct (exhaustion_after_ten_repairs (eq_refl : cnt at_repair = 0%Z)
              Hloop Hx) as (Ha & _ & _ & _ & _ & Hexact).
  destruct (Hexact Hrender) as (_ & Hc & Hr & He).
  repeat split; assumption.
Defined.

(** C1 as stated fails: after ten failed executions, each repaired, the
    eleventh round leaves through the exhausted branch with the counter
    at 11, which exceeds 10. *)
Lemma exhausted_counter_exceeds_ten :
  exists st1 w1 st2 w2,
    fix_iter failing_env DEMO_DB 10 at_repair [] = Some (st1, w1) /\
    fix_sql_traced failing_env DEMO_DB st1 (Enter sql_fix :: w1)
      = Ok (Exhausted, st2) w2 /\
    cnt at_repair = 0%Z /\
    cnt st2 = 11%Z /\ (10 < cnt st2)%Z /\
    calls SvRepair w2 = 10.
Proof.
  do 4 eexists.
  split; [vm_compute; reflexivity|].
  split; [vm_compute; reflexivity|].
  repeat split.
Qed.

(** The same scenario from the front end: the exhaustion message is in
    the stored state, but the router after repair-sql finds no query
    result and keeps re-entering the stage until the engine gives up. *)
Lemma ten_failures_end_at_recursion_limit :
  let p := process_chat failing_env (Some DEMO_QUERY) DEMO_DB DEMO_SESSION
             None empty_store [] in
  fst (fst p) = ChatRaised GraphRecursionError /\
  option_map (fun c => (cnt (cp_values c), answer (cp_values c)))
    (snd (fst p) DEMO_SESSION) = Some (11%Z, EXHAUSTED_MSG) /\
  calls SvRepair (snd p) = 10 /\
  calls SvExecute (snd p) = 11.
Proof. vm_compute. repeat split. Qed.

(** *** An answer set before the repair stage *)

Lemma answered_stages_only_log_witness :
  exec happy_env DEMO_DB sql_coder [] answered_state []
  = Ok (append_message answered_state ROLE_CODER []) [].
Proof.
  assert (Ha : answer answered_state <> []) by discriminate.
  destruct (@answered_stages_only_log happy_env DEMO_DB answered_state [] Ha)
    as (Hskip & _ & _).
  exact (Hskip sql_coder [] eq_refl).
Defined.

(** C2, the code at a request the database cannot answer.  The analysis
    stage sets the answer to the refusal.  Field discovery, SQL
    generation and repair are then entered and pass the state through,
    each by its test [if state.answer:]; but [fix_path], which reads the
    query result only, sends the run back to the repair stage, 21 times,
    until the recursion limit: [process_chat] raises
    [GraphRecursionError] instead of returning the answer, which is left
    in the checkpoint.  (And the analysis stage, entered again after an
    interrupt, replaces a first refusal by a second.) *)
Lemma answered_run_is_not_ended :
  let p := process_chat unanswerable_env (Some DEMO_QUERY) DEMO_DB DEMO_SESSION
             None empty_store [] in
  fst (fst p) = ChatRaised GraphRecursionError /\
  option_map (fun c => answer (cp_values c)) (snd (fst p) DEMO_SESSION)
    = Some REFUSAL /\
  entered (snd p)
    = [query_intent; query_analyze; table_search; sql_coder] ++ repeat sql_fix 21 /\
  answer answered_state = REFUSAL /\
  fix_path answered_state = Goto sql_fix /\
  (let asked_once :=
     res_value (analyze_query refusing_twice_env demo_state [] []) demo_state in
   answer asked_once = REFUSAL /\
   get_user_question asked_once = [TOPIC_METRIC] /\
   answer (res_value (analyze_query refusing_twice_env asked_once
                        [VALUE_SALES] [Call SvAnalyze])
             demo_state) = REFUSAL2).
Proof. vm_compute. repeat split. Qed.

(** *** Clarification *)

Lemma one_open_nodup : NoDup (dict_keys (intent_ambiguous one_open)).
Proof. repeat constructor. intros []. Qed.

Lemma one_suspension_per_open_topic_witness :
  final (run asking_env DEMO_DB 25 query_analyze [] one_open [])
  = Interrupted TOPIC_METRIC one_open query_analyze [].
Proof.
  destruct (@one_suspension_per_open_topic asking_env DEMO_DB one_open
              one_open_nodup)
    as (_ & _ & _ & Hsusp & _).
  destruct (Hsusp 24 [] [] DEMO_SCHEMA)
    as [Hf _]; [cbn; lia | reflexivity | exact Hf].
Defined.

(** C4 as stated fails: the state has one open topic when the run first
    suspends, yet the run suspends twice before field discovery, because
    the analysis that follows the first answer names a further topic.
    The second question need not even be a different one: when the
    analysis names the answered topic again, the mapping still has one
    key and the run suspends on it a second time. *)
Lemma one_open_topic_two_suspensions :
  let p1 := process_chat asking_env (Some DEMO_QUERY) DEMO_DB DEMO_SESSION
              None empty_store [] in
  let p2 := process_chat asking_env None DEMO_DB DEMO_SESSION
              (Some VALUE_SALES) (snd (fst p1)) (snd p1) in
  let p3 := process_chat asking_env None DEMO_DB DEMO_SESSION
              (Some VALUE_2024) (snd (fst p2)) (snd p2) in
  let r1 := process_chat relisting_env (Some DEMO_QUERY) DEMO_DB DEMO_SESSION
              None empty_store [] in
  let r2 := process_chat relisting_env None DEMO_DB DEMO_SESSION
              (Some VALUE_SALES) (snd (fst r1)) (snd r1) in
  (fst (fst p1) = ChatInterrupted TOPIC_METRIC DEMO_SESSION /\
   option_map (fun c => get_user_question (cp_values c))
     (snd (fst p1) DEMO_SESSION) = Some [TOPIC_METRIC] /\
   fst (fst p2) = ChatInterrupted TOPIC_PERIOD DEMO_SESSION /\
   existsb (fun n => match n with table_search => true | _ => false end)
     (entered (snd p2)) = false /\
   fst (fst p3)
     = ChatCompleted DEMO_TABLE (Some DEMO_SQL) DEMO_TABLE DEMO_SESSION) /\
  (fst (fst r1) = ChatInterrupted TOPIC_METRIC DEMO_SESSION /\
   fst (fst r2) = ChatInterrupted TOPIC_METRIC DEMO_SESSION /\
   option_map (fun c => dict_keys (intent_ambiguous (cp_values c)))
     (snd (fst r2) DEMO_SESSION) = Some [TOPIC_METRIC] /\
   existsb (fun n => match n with table_search => true | _ => false end)
     (entered (snd r2)) = false).
Proof. vm_compute. repeat split. Qed.

Lemma resume_value_goes_to_next_open_topic_witness :
  dict_get
    (resolve (intent_ambiguous one_open) (get_user_question one_open)
       [VALUE_SALES])
    TOPIC_METRIC
  = Some (Some VALUE_SALES).
Proof.
  destruct (@resume_value_goes_to_next_open_topic asking_env DEMO_DB
              one_open [VALUE_SALES] []
              DEMO_SCHEMA
              (asking [TOPIC_METRIC])
              one_open_nodup eq_refl eq_refl eq_refl)
    as (_ & _ & _ & Hget & _).
  exact (Hget 0 (Nat.lt_0_succ 0)).
Defined.

(** C5 as stated fails in one respect: the user answers the open topic,
    the stage assigns the value, and the state the stage returns has the
    topic open again, because the model's reply named it once more. *)
Lemma answered_topic_reopened :
  let r := analyze_query relisting_env one_open [VALUE_SALES] [] in
  dict_get (intent_ambiguous (clarified (get_user_question one_open)
                                [VALUE_SALES] one_open)) TOPIC_METRIC
    = Some (Some VALUE_SALES) /\
  dict_get (intent_ambiguous (res_value r demo_state)) TOPIC_METRIC
    = Some None /\
  dict_get (intent_ambiguous (res_value r demo_state)) TOPIC_METRIC
    <> Some (Some VALUE_SALES).
Proof. vm_compute. repeat split. discriminate. Qed.

(** *** Classification *)

Lemma freeform_reply_is_other_witness :
  exists st',
    parse_intent greeting_env demo_state [] = Ok st' [Call SvClassify] /\
    intent_type st' = OTHER /\ answer st' = GREETING.
Proof.
  destruct (@freeform_reply_is_other greeting_env demo_state [] GREETING
              eq_refl eq_refl) as (st' & Hp & Hi & Ha & _).
  exists st'. repeat split; assumption.
Defined.

(** C7 as stated fails: the reply [Intent: query] is not one of the two
    labels, yet the stage sets the intent to [query] and sets no
    answer. *)
Lemma wrapped_label_is_not_other :
  let reply := _extract_response_text FORMATTED_LABEL in
  let st' := res_value (parse_intent formatted_env demo_state []) demo_state in
  reply <> LABEL_QUERY /\ reply <> LABEL_ANALYZE /\
  parse_intent formatted_env demo_state [] = Ok st' [Call SvClassify] /\
  intent_type st' = QUERY /\ intent_type st' <> OTHER /\
  answer st' = [] /\ answer st' <> reply.
Proof. vm_compute. repeat split; discriminate. Qed.

(** The label is looked for after the reasoning block has been cut: a
    reply that ends in a label after [</think>] is that label, and the
    white space around a free reply is not part of the answer. *)
Example label_after_reasoning_block :
  _parse_intent_result greeting_env
    (_extract_response_text (Str.lit "<think>a greeting?</think> query "))
  = (QUERY, None).
Proof. vm_compute. reflexivity. Qed.

Example free_reply_is_stripped :
  _extract_response_text (Str.lit "  Hello, how can I help?  ")
  = Str.lit "Hello, how can I help?".
Proof. vm_compute. reflexivity. Qed.

Lemma other_intent_ends_run_witness :
  final (run greeting_env DEMO_DB 25 query_intent [] demo_state [])
    = Finished greeted /\
  entered (world (run greeting_env DEMO_DB 25 query_intent [] demo_state []))
    = [query_intent].
Proof.
  destruct (@other_intent_ends_run greeting_env DEMO_DB 24 demo_state greeted
              [] [Call SvClassify; Enter query_intent] eq_refl eq_refl)
    as (_ & Hf & _ & He).
  split; assumption.
Defined.

(** *** Routers, input validation, SQL generation *)

Lemma routers_ignore_transcript_witness :
  fix_path (append_message answered_state ROLE_FIX []) = fix_path answered_state.
Proof.
  destruct (@routers_ignore_transcript
              (append_message answered_state ROLE_FIX []) answered_state
              eq_refl) as (_ & _ & Hf & _).
  exact Hf.
Defined.

Lemma blank_query_rejected_witness :
  fst (fst (process_chat happy_env (Some BLANKS) DEMO_DB DEMO_SESSION None
              empty_store []))
    = ChatRaised (InvalidQueryError EMPTY_QUERY_MSG) /\
  fst (fst (stream_chat happy_env (Some BLANKS) DEMO_DB DEMO_SESSION None
              empty_store []))
    = [EvError EMPTY_QUERY_MSG].
Proof.
  assert (Hb : Forall (fun c => Str.isspace c = true) BLANKS)
    by (repeat constructor).
  destruct (@blank_query_rejected happy_env (Some BLANKS) DEMO_DB DEMO_SESSION
              empty_store [] Hb) as (_ & _ & _ & _ & Hr).
  exact (Hr tt eq_refl).
Defined.

(** C9 as stated fails: the graph object is built before the query is
    looked at, so a blank request made when [get_sql_copilot] raises is
    not rejected with the invalid-input error; the caller gets the
    error of the construction, from [process_chat] and from
    [stream_chat]. *)
Lemma blank_query_on_failed_build :
  let p := process_chat no_graph_env (Some BLANKS) DEMO_DB DEMO_SESSION None
             empty_store [] in
  let s := stream_chat no_graph_env (Some BLANKS) DEMO_DB DEMO_SESSION None
             empty_store [] in
  blank (Some BLANKS) = true /\
  fst (fst p) = ChatRaised (ServiceError SvBuildGraph BUILD_FAILED) /\
  fst (fst p) <> ChatRaised (InvalidQueryError EMPTY_QUERY_MSG) /\
  fst (fst s) = [EvError BUILD_FAILED] /\
  fst (fst s) <> [EvError EMPTY_QUERY_MSG].
Proof. vm_compute. repeat split; discriminate. Qed.

Lemma code_sql_stores_only_sql_witness :
  final_sql uncoded = None /\
  exists res,
    final_sql coded = Some res /\ has_sql_keyword happy_env res = true.
Proof.
  split; [reflexivity|].
  destruct (@code_sql_stores_only_sql happy_env uncoded coded
              [] [Call SvCoder; Call SvQueryHistory; Call SvSqlHistory]
              eq_refl) as (_ & Hchg).
  destruct Hchg as (res & Hs & _ & Hk); [discriminate|].
  exists res. split; assumption.
Defined.

(** * Further properties of the code *)

(** ** What a stage leaves alone *)

Lemma clarify_frame (qs rs : list pystr) (st st1 : DeepState) (w w1 : World) :
  clarify qs rs st w = Ok st1 w1 ->
  w1 = w /\ set_intent_ambiguous st1 [] = set_intent_ambiguous st [].
Proof.
  revert rs st. induction qs as [|q qs IH]; intros rs st; cbn [clarify].
  - unfold ret. intros [= <- <-]. auto.
  - unfold bind, interrupt. destruct rs as [|v rs]; [discriminate|].
    cbn [fst snd]. intros H. apply IH in H as [-> H]. auto.
Qed.

Lemma extends_refl (st : DeepState) : extends_transcript st st.
Proof. exists []. now rewrite app_nil_r. Qed.

Lemma extends_trans (a b c : DeepState) :
  extends_transcript a b -> extends_transcript b c -> extends_transcript a c.
Proof.
  intros [m1 H1] [m2 H2]. exists (m1 ++ m2). now rewrite H2, H1, app_assoc.
Qed.

Lemma extends_append (st : DeepState) (r c : pystr) :
  extends_transcript st (append_message st r c).
Proof. now exists [{| role := r; content := c |}]. Qed.

Ltac ext_tac :=
  first [ exists []; cbn; now rewrite app_nil_r
        | eexists; cbn; reflexivity ].

Ltac frame_tac :=
  cbn; repeat split; auto; try congruence;
  try (unfold extends_transcript; ext_tac);
  try (right; repeat split; auto; congruence).

(** What a stage that returns has done to the attributes that identify
    the request, to the transcript, to the counter and to the result. *)
Lemma exec_frame (env : Env) (db : pystr) (n : Node) (rs : list pystr)
    (st st' : DeepState) (w w' : World) :
  exec env db n rs st w = Ok st' w' ->
  (user_input st' = user_input st /\ session_id st' = session_id st /\
   database st' = database st /\ tables st' = tables st /\
   error_message st' = error_message st) /\
  extends_transcript st st' /\
  (cnt st' = cnt st \/
   (n = sql_fix /\ answer st = [] /\ cnt st' = (cnt st + 1)%Z)) /\
  (n <> sql_fix -> query_data st' = query_data st).
Proof.
  destruct n; cbn [exec].
  - unfold parse_intent, try_except, bind, call, ret, raise.
    destruct (classify_reply env _ _); [discriminate|].
    destruct (_parse_intent_result env _) as [[] [a|]];
      try destruct (Str.truthy a); intros [= <- _]; cbn;
      repeat split; auto; ext_tac.
  - unfold analyze_query, bind, call, ret.
    destruct (table_schemas env _ _) as [e|[schema|]]; [discriminate| |].
    2:{ intros [= <- _]. cbn. repeat split; auto. ext_tac. }
    destruct (clarify _ _ _ _) as [st1 w1| |] eqn:Hc; try discriminate.
    apply clarify_frame in Hc as [-> Hc].
    destruct (analyze_reply env _ _ _ _) as [e|qi]; [discriminate|].
    intros [= <- _].
    pose proof (f_equal user_input Hc) as E1.
    pose proof (f_equal session_id Hc) as E2.
    pose proof (f_equal database Hc) as E3.
    pose proof (f_equal tables Hc) as E4.
    pose proof (f_equal error_message Hc) as E5.
    pose proof (f_equal messages Hc) as E6.
    pose proof (f_equal cnt Hc) as E7.
    pose proof (f_equal query_data Hc) as E8.
    cbn in E1, E2, E3, E4, E5, E6, E7, E8.
    destruct (Str.truthy (qi_cannot_answer qi)); cbn;
      repeat split; auto; unfold extends_transcript; cbn; rewrite E6;
      ext_tac.
  - unfold search, bind, call, ret.
    destruct (Str.truthy (answer st)).
    { intros [= <- _]. cbn. repeat split; auto. ext_tac. }
    destruct (search_reply env _ _); [discriminate|].
    destruct (Str.startswith _ _).
    2:{ intros [= <- _]. cbn. repeat split; auto. ext_tac. }
    destruct (field_lookup env _ _) as [e|[]]; try discriminate;
      intros [= <- _]; cbn; repeat split; auto;
      try ext_tac; ext_tac.
  - unfold code_sql, bind, call, ret.
    destruct (Str.truthy (answer st)).
    { intros [= <- _]. cbn. repeat split; auto. ext_tac. }
    destruct (sql_history env _ _); [discriminate|].
    destruct (query_history env _ _); [discriminate|].
    destruct (coder_reply env _ _ _ _ _); [discriminate|].
    destruct (_ && _); intros [= <- _]; cbn; repeat split; auto;
      ext_tac.
  - unfold fix_sql, bind, ret.
    destruct (fix_sql_traced env db st w) as [[tag s] w0| |] eqn:Ht;
      try discriminate.
    intros [= <- <-]. revert Ht.
    unfold fix_sql_traced, bind, call, call_caught, ret.
    destruct (answer st) eqn:Ha; cbn [Str.truthy].
    2:{ intros [= _ <- _]. cbn. repeat split; auto; try congruence.
        ext_tac. }
    destruct (db_engine env _ _); [discriminate|].
    destruct (read_sql env _ _).
    + destruct (_ >? _)%Z.
      { intros [= _ <- _]. frame_tac. }
      destruct (repair_reply env _ _ _ _); [discriminate|].
      destruct (Str.contains _ _); [|destruct (Str.startswith _ _)];
        intros [= _ <- _]; frame_tac.
    + destruct (IntentType_eqb _ _); intros [= _ <- _]; frame_tac.
  - unfold analyze_data, bind, call, ret.
    destruct (Str.truthy (answer st)).
    { intros [= <- _]. cbn. repeat split; auto. ext_tac. }
    destruct (summary_reply env _ _ _); [discriminate|].
    intros [= <- _]; cbn; repeat split; auto. ext_tac.
Qed.

(** A relation that every stage respects holds between the state a run
    starts with and every state it goes through. *)
Lemma run_preserves (env : Env) (db : pystr)
    (R : DeepState -> DeepState -> Prop) :
  (forall s, R s s) ->
  (forall a b c, R a b -> R b c -> R a c) ->
  (forall n rs s w s' w', exec env db n rs s w = Ok s' w' -> R s s') ->
  forall fuel n rs st w,
    R st (final_values (final (run env db fuel n rs st w))) /\
    Forall (fun u => R st (snd u)) (updates (run env db fuel n rs st w)).
Proof.
  intros Hrefl Htrans Hstep.
  induction fuel as [|fuel IH]; intros n rs st w; cbn [run].
  - cbn. auto.
  - destruct (exec env db n rs st (Enter n :: w)) as [st' w'| |] eqn:He;
      cbn; auto.
    pose proof (Hstep _ _ _ _ _ _ He) as H1.
    destruct (route n st') as [n'|]; cbn; auto.
    destruct (IH n' [] st' w') as [H2 H3].
    split; [eauto|].
    constructor; [exact H1|].
    eapply Forall_impl; [|exact H3]. cbn. eauto.
Qed.

(** A property of the state on entry to each stage that every stage
    hands on to the stage the router names holds all along a run. *)
Lemma run_invariant (env : Env) (db : pystr)
    (Inv : Node -> DeepState -> Prop) (Q : DeepState -> Prop) :
  (forall n st, Inv n st -> Q st) ->
  (forall n rs st w st' w',
     Inv n st -> exec env db n rs st w = Ok st' w' ->
     Q st' /\ match route n st' with Goto n' => Inv n' st' | END => True end) ->
  forall fuel n rs st w,
    Inv n st ->
    Q (final_values (final (run env db fuel n rs st w))) /\
    Forall (fun u => Q (snd u)) (updates (run env db fuel n rs st w)).
Proof.
  intros Hq Hstep.
  induction fuel as [|fuel IH]; intros n rs st w Hi; cbn [run].
  - cbn. eauto.
  - destruct (exec env db n rs st (Enter n :: w)) as [st' w'| |] eqn:He;
      cbn; eauto.
    destruct (Hstep _ _ _ _ _ _ Hi He) as [H1 H2].
    destruct (route n st') as [n'|]; cbn; auto.
    destruct (IH n' [] st' w' H2) as [H3 H4].
    split; [exact H3 | constructor; assumption].
Qed.

Lemma cp_values_checkpoint_of (f : Final) :
  cp_values (checkpoint_of f) = final_values f.
Proof. now destruct f. Qed.

Lemma store_put_same (s : Store) (k : pystr) (c : Checkpoint) :
  store_put s k c k = Some c.
Proof. unfold store_put. now rewrite str_eqb_refl. Qed.

Lemma store_put_other (s : Store) (k k' : pystr) (c : Checkpoint) :
  k' <> k -> store_put s k c k' = s k'.
Proof. intros H. unfold store_put. now rewrite str_eqb_neq. Qed.

(** ** The transcript and the counter along a run *)

(** X1: the transcript is append-only.  Whatever the stage a run starts
    in and however it ends (at the end of the graph, at a question, at
    an exception or at the recursion limit), the transcript of every
    state the run goes through, and of the state it stops with, is the
    transcript it started with, followed by further entries. *)
Theorem transcript_only_grows (env : Env) (db : pystr) (fuel : nat) (n : Node)
    (rs : list pystr) (st : DeepState) (w : World) :
  extends_transcript st (final_values (final (run env db fuel n rs st w))) /\
  Forall (fun u => extends_transcript st (snd u))
    (updates (run env db fuel n rs st w)).
Proof.
  apply run_preserves.
  - apply extends_refl.
  - apply extends_trans.
  - intros n0 rs0 s w0 s' w' H. apply (exec_frame _ _ _ _ _ _ H).
Qed.

Lemma Node_eq_dec_sql_fix (n : Node) : {n = sql_fix} + {n <> sql_fix}.
Proof. destruct n; (now left) || (right; discriminate). Qed.

Lemma counter_step (env : Env) (db : pystr) (n : Node) (rs : list pystr)
    (st st' : DeepState) (w w' : World) :
  renders_tables env ->
  counter_in_bounds n st ->
  exec env db n rs st w = Ok st' w' ->
  (0 <= cnt st' <= 11)%Z /\
  match route n st' with
  | Goto n' => counter_in_bounds n' st'
  | END => True
  end.
Proof.
  intros Hrender Hi He.
  destruct (Node_eq_dec_sql_fix n) as [->|Hn].
  - cbn [exec] in He. apply fix_sql_as_traced in He as [tag Ht].
    pose proof Ht as H. apply fix_sql_traced_inv in H.
    cbn [counter_in_bounds] in Hi. cbn [route]. unfold fix_path.
    destruct tag.
    + destruct H as (Hne & _ & ->). cbn.
      assert (Hb : (0 <= cnt st <= 11)%Z) by (destruct Hi as [|[]]; lia).
      split; [exact Hb|].
      destruct (Str.truthy (query_data st)); [|right; auto].
      destruct (IntentType_eqb _ _); cbn; auto.
    + destruct H as (Ha & _ & Hc & Hx & _).
      destruct Hi as [Hi|[_ Hi]]; [|contradiction].
      split; [lia|].
      apply Hrender in Hx.
      destruct (query_data st'); [now elim Hx|]. cbn.
      destruct (IntentType_eqb _ _); cbn; [lia | trivial].
    + destruct H as (Ha & _ & Hc & _ & Hm & _).
      destruct Hi as [Hi|[_ Hi]]; [|contradiction].
      split; [lia|].
      destruct (Str.truthy (query_data st')).
      * destruct (IntentType_eqb _ _); cbn; [lia | trivial].
      * cbn. right. split; [lia|]. rewrite Hm. discriminate.
    + destruct H as (Ha & _ & Hc & Hle & _).
      destruct Hi as [Hi|[_ Hi]]; [|contradiction].
      split; [lia|].
      destruct (Str.truthy (query_data st')).
      * destruct (IntentType_eqb _ _); cbn; [lia | trivial].
      * cbn. left. lia.
    + destruct H as (Ha & _ & Hc & Hle & _).
      destruct Hi as [Hi|[_ Hi]]; [|contradiction].
      split; [lia|].
      destruct (Str.truthy (query_data st')).
      * destruct (IntentType_eqb _ _); cbn; [lia | trivial].
      * cbn. left. lia.
  - destruct (exec_frame _ _ _ _ _ _ He) as (_ & _ & [Hc|[Hc _]] & _);
      [|contradiction].
    destruct n; try (now elim Hn); cbn in Hi; cbn [route].
    + split; [lia|]. unfold intent_path.
      destruct (IntentType_eqb _ _); cbn; [trivial | lia].
    + split; [lia|]. unfold analyze_path_map.
      destruct (get_user_question st'); cbn; lia.
    + split; [lia|]. cbn. lia.
    + split; [lia|]. cbn. left. lia.
    + split; [lia | trivial].
Qed.

(** X2: the counter stays between 0 and 11.  In a run begun by a new
    request, when every successful execution renders a non-empty table,
    the attempt counter of every state the run goes through, and of the
    state it stops with, is at least 0 and at most 11. *)
Theorem counter_never_exceeds_eleven (env : Env) (limit : nat) (store : Store)
    (q db sid : pystr) (w : World) :
  renders_tables env ->
  let r := start env limit store q db sid w in
  (0 <= cnt (final_values (final r)) <= 11)%Z /\
  Forall (fun u => (0 <= cnt (snd u) <= 11)%Z) (updates r).
Proof.
  intros Hrender r. unfold r, start.
  apply run_invariant
    with (Inv := counter_in_bounds) (Q := fun s => (0 <= cnt s <= 11)%Z).
  - intros n st H. cbv beta.
    destruct n; cbn in H; try destruct H as [H|[H _]]; lia.
  - intros n rs st w0 st' w' Hi He. eapply counter_step; eassumption.
  - reflexivity.
Qed.

Lemma failing_env_renders : renders_tables failing_env.
Proof. intros i sql table H. discriminate. Qed.

Lemma counter_never_exceeds_eleven_witness :
  cnt (final_values
         (final (start failing_env 25 empty_store DEMO_QUERY DEMO_DB
                   DEMO_SESSION []))) = 11%Z /\
  (0 <= cnt (final_values
               (final (start failing_env 25 empty_store DEMO_QUERY DEMO_DB
                         DEMO_SESSION []))) <= 11)%Z.
Proof.
  split; [vm_compute; reflexivity|].
  exact (proj1 (@counter_never_exceeds_eleven failing_env 25 empty_store
                  DEMO_QUERY DEMO_DB DEMO_SESSION [] failing_env_renders)).
Defined.

(** ** What the front end stores *)

(** X3: the checkpoint belongs to the request.  After [process_chat] has
    run a new, non-blank request (the graph object having been built),
    the checkpointer holds for the session a state whose [user_input],
    [session_id] and [database] are those of the request, however the
    run ended; no stage changes them. *)
Theorem checkpoint_keeps_request (env : Env) (q db sid : pystr)
    (store : Store) (w : World) (u : unit) :
  blank (Some q) = false ->
  graph_build env (calls SvBuildGraph w) db = inr u ->
  exists c,
    snd (fst (process_chat env (Some q) db sid None store w)) sid = Some c /\
    user_input (cp_values c) = q /\
    session_id (cp_values c) = sid /\
    database (cp_values c) = db.
Proof.
  intros Hb Hg. unfold process_chat. cbv zeta. rewrite Hg, Hb.
  cbn [fst snd]. eexists. split; [apply store_put_same|].
  rewrite cp_values_checkpoint_of. unfold start.
  set (s0 := initial_state (store sid) q db sid).
  destruct (@run_preserves env db
              (fun a b => user_input b = user_input a /\
                          session_id b = session_id a /\
                          database b = database a))
    with (fuel := DEFAULT_RECURSION_LIMIT) (n := query_intent)
         (rs := @nil pystr) (st := s0) (w := Call SvBuildGraph :: w)
    as [(H1 & H2 & H3) _].
  - auto.
  - intros a b c (A1 & A2 & A3) (B1 & B2 & B3). repeat split; congruence.
  - intros n rs s w0 s' w' H.
    destruct (exec_frame _ _ _ _ _ _ H) as ((E1 & E2 & E3 & _) & _). auto.
  - rewrite H1, H2, H3. auto.
Qed.

Lemma checkpoint_keeps_request_witness :
  exists c,
    snd (fst (process_chat happy_env (Some DEMO_QUERY) DEMO_DB DEMO_SESSION
                None empty_store [])) DEMO_SESSION = Some c /\
    user_input (cp_values c) = DEMO_QUERY.
Proof.
  destruct (@checkpoint_keeps_request happy_env DEMO_QUERY DEMO_DB DEMO_SESSION
              empty_store [] tt eq_refl eq_refl) as (c & Hc & Hu & _).
  exists c. split; assumption.
Defined.

(** X4: one session at a time.  [process_chat] and [stream_chat] read
    and write the checkpoint of their own session only: the checkpoint
    of every other session is afterwards what it was before, whatever
    the request and however the run ended. *)
Theorem other_sessions_untouched (env : Env) (query : option pystr)
    (db sid other : pystr) (resume_input : option pystr)
    (store : Store) (w : World) :
  other <> sid ->
  snd (fst (process_chat env query db sid resume_input store w)) other
    = store other /\
  snd (fst (stream_chat env query db sid resume_input store w)) other
    = store other.
Proof.
  intros Hn. unfold process_chat, stream_chat, resume. cbv zeta.
  destruct (graph_build env _ _); cbn [fst snd]; [auto|].
  destruct resume_input as [v|].
  - destruct (store sid) as [c|]; cbn [fst snd]; [|auto].
    split; now apply store_put_other.
  - destruct (blank query); cbn [fst snd]; [auto|].
    split; now apply store_put_other.
Qed.

Lemma other_sessions_untouched_witness :
  snd (fst (process_chat happy_env (Some DEMO_QUERY) DEMO_DB DEMO_SESSION
              None empty_store [])) OTHER_SESSION = None.
Proof.
  assert (Hn : OTHER_SESSION <> DEMO_SESSION) by discriminate.
  exact (proj1 (@other_sessions_untouched happy_env (Some DEMO_QUERY) DEMO_DB
                  DEMO_SESSION OTHER_SESSION None empty_store [] Hn)).
Defined.

(** ** Stages enter no stage *)

Lemma quiet_ret {A} (a : A) : quiet (ret a).
Proof. intros w. reflexivity. Qed.

Lemma quiet_raise {A} (e : Exn) : quiet (@raise A e).
Proof. intros w. reflexivity. Qed.

Lemma quiet_call {A} (s : Service) (f : nat -> Exn + A) : quiet (call s f).
Proof. intros w. unfold call. now destruct (f (calls s w)). Qed.

Lemma quiet_call_caught {A} (s : Service) (f : nat -> pystr + A) :
  quiet (call_caught s f).
Proof. intros w. reflexivity. Qed.

Lemma quiet_interrupt (rs : list pystr) (q : pystr) : quiet (interrupt rs q).
Proof. intros w. unfold interrupt. now destruct rs. Qed.

Lemma quiet_bind {A B} (m : M A) (k : A -> M B) :
  quiet m -> (forall a, quiet (k a)) -> quiet (bind m k).
Proof.
  intros Hm Hk w. unfold bind. specialize (Hm w).
  destruct (m w) as [a w1|q w1|e w1]; cbn in *; [|assumption|assumption].
  now rewrite Hk.
Qed.

Lemma quiet_try {A} (m : M A) (h : Exn -> M A) :
  quiet m -> (forall e, quiet (h e)) -> quiet (try_except m h).
Proof.
  intros Hm Hh w. unfold try_except. specialize (Hm w).
  destruct (m w) as [a w1|q w1|e w1]; cbn in *; [assumption|assumption|].
  now rewrite Hh.
Qed.

Lemma quiet_clarify (qs rs : list pystr) (st : DeepState) :
  quiet (clarify qs rs st).
Proof.
  revert rs st. induction qs as [|q qs IH]; intros rs st; cbn [clarify].
  - apply quiet_ret.
  - apply quiet_bind; [apply quiet_interrupt | intros a; apply IH].
Qed.

Ltac quiet_tac :=
  repeat first
    [ apply quiet_ret | apply quiet_raise | apply quiet_call
    | apply quiet_call_caught | apply quiet_clarify
    | apply quiet_bind; [|intros ?]
    | apply quiet_try; [|intros ?]
    | match goal with
      | |- quiet (if ?b then _ else _) => destruct b
      | |- quiet (match ?x with _ => _ end) => destruct x
      | |- quiet (let '(_, _) := ?x in _) => destruct x
      end ].

(** Only the engine enters stages: a stage itself, however it ends,
    leaves the list of stages entered as it found it. *)
Lemma exec_quiet (env : Env) (db : pystr) (n : Node) (rs : list pystr)
    (st : DeepState) :
  quiet (exec env db n rs st).
Proof.
  destruct n; cbn [exec];
    unfold parse_intent, analyze_query, search, code_sql, fix_sql,
      fix_sql_traced, analyze_data;
    quiet_tac.
Qed.

(** ** What the front ends report *)

(** X5: completion means an answer.  When [process_chat] reports
    completion, the answer it returns is not empty, and the answer, the
    SQL and the query result it returns are those of the state the
    checkpointer now holds for the session; this covers a run that
    stopped at a question while an answer was already set. *)
Theorem completed_result_is_stored (env : Env) (query : option pystr)
    (db sid : pystr) (resume_input : option pystr) (store : Store) (w : World)
    (a : pystr) (sql : option pystr) (data s : pystr) :
  fst (fst (process_chat env query db sid resume_input store w))
    = ChatCompleted a sql data s ->
  a <> [] /\ s = sid /\
  exists c,
    snd (fst (process_chat env query db sid resume_input store w)) sid = Some c /\
    answer (cp_values c) = a /\
    final_sql (cp_values c) = sql /\
    query_data (cp_values c) = data.
Proof.
  assert (Hres : forall f,
            chat_result sid f = ChatCompleted a sql data s ->
            a <> [] /\ s = sid /\
            answer (final_values f) = a /\
            final_sql (final_values f) = sql /\
            query_data (final_values f) = data).
  { intros f. destruct f as [v|q v n rs|e v n rs]; cbn; try discriminate;
      destruct (answer v) eqn:Ha; cbn; try discriminate;
      intros [= <- <- <- <-]; repeat split; congruence. }
  unfold process_chat, resume. cbv zeta.
  destruct (graph_build env _ _); cbn [fst snd]; [discriminate|].
  destruct resume_input as [v|].
  - destruct (store sid) as [c|]; cbn [fst snd]; [|discriminate].
    intros H. apply Hres in H as (H1 & H2 & H3 & H4 & H5).
    split; [exact H1|]. split; [exact H2|].
    eexists. split; [apply store_put_same|].
    now rewrite cp_values_checkpoint_of.
  - destruct (blank query); cbn [fst snd]; [discriminate|].
    intros H. apply Hres in H as (H1 & H2 & H3 & H4 & H5).
    split; [exact H1|]. split; [exact H2|].
    eexists. split; [apply store_put_same|].
    now rewrite cp_values_checkpoint_of.
Qed.

Lemma completed_result_is_stored_witness :
  exists c,
    snd (fst (process_chat happy_env (Some DEMO_QUERY) DEMO_DB DEMO_SESSION
                None empty_store [])) DEMO_SESSION = Some c /\
    answer (cp_values c) = DEMO_TABLE.
Proof.
  destruct (@completed_result_is_stored happy_env (Some DEMO_QUERY) DEMO_DB
              DEMO_SESSION None empty_store [] DEMO_TABLE (Some DEMO_SQL)
              DEMO_TABLE DEMO_SESSION eq_refl)
    as (_ & _ & c & Hc & Ha & _).
  exists c. split; assumption.
Defined.

Lemma chunk_of_full (u : Node * DeepState) :
  Forall is_full_chunk (chunk_of u).
Proof.
  unfold chunk_of. cbv zeta.
  destruct (List.rev (messages (snd u))) as [|m r].
  - destruct (answer (snd u)) eqn:E; cbn; constructor; [|constructor].
    cbn. discriminate.
  - destruct (content m) eqn:E; cbn; constructor; [|constructor].
    cbn. discriminate.
Qed.

Lemma chunks_full (us : list (Node * DeepState)) :
  Forall is_full_chunk (List.flat_map chunk_of us).
Proof.
  induction us as [|u us IH]; cbn; [constructor|].
  apply Forall_app. split; [apply chunk_of_full | exact IH].
Qed.

(** The last update of a run that finished is the state it finished
    with. *)
Lemma run_last_update (env : Env) (db : pystr) (fuel : nat) (n : Node)
    (rs : list pystr) (st : DeepState) (w : World) (v : DeepState) :
  final (run env db fuel n rs st w) = Finished v ->
  exists m pre, updates (run env db fuel n rs st w) = pre ++ [(m, v)].
Proof.
  revert n rs st w. induction fuel as [|fuel IH]; intros n rs st w; cbn [run].
  - discriminate.
  - destruct (exec env db n rs st (Enter n :: w)) as [st' w'| |];
      try discriminate.
    destruct (route n st') as [n'|]; cbn [final updates].
    + intros H. apply IH in H as (m & pre & ->).
      exists m, ((n, st') :: pre). reflexivity.
    + intros [= <-]. exists n, []. reflexivity.
Qed.

(** X6: the shape of a stream.  The events of a streamed run are chunks,
    each with a non-empty content, followed by at most one closing
    event: an interrupt event carrying the question exactly when the run
    stopped at a question, a completion event exactly when the run
    finished with a non-empty answer, and then carrying that answer, or
    an error event. *)
Theorem stream_is_chunks_then_one_closing_event (env : Env) (db : pystr)
    (fuel : nat) (n : Node) (rs : list pystr) (st : DeepState) (w : World) :
  let r := run env db fuel n rs st w in
  exists chunks tail,
    stream_events r = chunks ++ tail /\
    Forall is_full_chunk chunks /\
    closes (final r) tail /\
    (List.existsb is_interrupt (stream_events r) = true <->
     exists q v m vs, final r = Interrupted q v m vs).
Proof.
  cbv zeta. remember (run env db fuel n rs st w) as r eqn:Hr.
  unfold stream_events.
  assert (Hno : List.existsb is_interrupt (List.flat_map chunk_of (updates r))
                = false).
  { pose proof (chunks_full (updates r)) as H.
    induction H as [|e l He _ IH]; [reflexivity|].
    cbn. rewrite IH. destruct e; cbn in He; try contradiction. reflexivity. }
  eexists. eexists. split; [reflexivity|].
  split; [apply chunks_full|].
  rewrite existsb_app, Hno. cbn [orb].
  destruct (final r) as [v|q v m vs|e v m vs] eqn:Hf.
  - assert (Hu : exists m pre, updates r = pre ++ [(m, v)])
      by (rewrite Hr in *; now apply run_last_update).
    destruct Hu as (m & pre & Hu).
    rewrite Hu, rev_app_distr. cbn [List.rev app].
    destruct (answer v) eqn:Ha; cbn.
    + split; [eauto|]. split; [discriminate|].
      intros (q & v' & m' & vs & H). discriminate.
    + split; [split; [discriminate | eauto]|].
      split; [discriminate|].
      intros (q & v' & m' & vs & H). discriminate.
  - cbn. split; [eauto|]. split; [eauto | reflexivity].
  - cbn. split; [trivial|]. split; [discriminate|].
    intros (q & v' & m' & vs' & H). discriminate.
Qed.

(** ** The command-line loop *)

(** A resumed call keeps the request in the checkpoint. *)
Lemma resume_keeps_request (env : Env) (q db sid value : pystr)
    (store : Store) (w : World) :
  (exists c, store sid = Some c /\ user_input (cp_values c) = q) ->
  exists c,
    snd (fst (process_chat env None db sid (Some value) store w)) sid = Some c /\
    user_input (cp_values c) = q.
Proof.
  intros (c & Hc & Hq). unfold process_chat, resume. cbv zeta.
  destruct (graph_build env _ _); cbn [fst snd]; [eauto|].
  rewrite Hc. cbn [fst snd]. eexists. split; [apply store_put_same|].
  rewrite cp_values_checkpoint_of.
  destruct (cp_next c) as [[n rs]|]; [|exact Hq].
  destruct (@run_preserves env db
              (fun a b => user_input b = user_input a))
    with (fuel := DEFAULT_RECURSION_LIMIT) (n := n)
         (rs := rs ++ [value]) (st := cp_values c) (w := Call SvBuildGraph :: w)
    as [H1 _].
  - auto.
  - intros a b c0 A B. congruence.
  - intros n0 rs0 s w0 s' w' H.
    destruct (exec_frame _ _ _ _ _ _ H) as ((E1 & _) & _). auto.
  - rewrite H1. exact Hq.
Qed.

Lemma new_request_kept (env : Env) (q db sid : pystr)
    (store : Store) (w : World) (u : unit) :
  blank (Some q) = false ->
  graph_build env (calls SvBuildGraph w) db = inr u ->
  exists c,
    snd (fst (process_chat env (Some q) db sid None store w)) sid = Some c /\
    user_input (cp_values c) = q.
Proof.
  intros Hb Hg. unfold process_chat. cbv zeta. rewrite Hg, Hb.
  cbn [fst snd]. eexists. split; [apply store_put_same|].
  rewrite cp_values_checkpoint_of. unfold start.
  destruct (@run_preserves env db
              (fun a b => user_input b = user_input a))
    with (fuel := DEFAULT_RECURSION_LIMIT) (n := query_intent)
         (rs := @nil pystr) (st := initial_state (store sid) q db sid)
         (w := Call SvBuildGraph :: w)
    as [H1 _].
  - auto.
  - intros a b c0 A B. congruence.
  - intros n0 rs0 s w0 s' w' H.
    destruct (exec_frame _ _ _ _ _ _ H) as ((E1 & _) & _). auto.
  - rewrite H1. reflexivity.
Qed.

Lemma ask_loop_spec (env : Env) (typed : nat -> pystr -> pystr)
    (q db sid : pystr) (fuel : nat) :
  forall k p r store' w' k',
    (exists c, snd (fst p) sid = Some c /\ user_input (cp_values c) = q) ->
    ask_loop env typed fuel k db sid p = Some (r, store', w', k') ->
    (forall question s, r <> ChatInterrupted question s) /\
    exists c, store' sid = Some c /\ user_input (cp_values c) = q.
Proof.
  induction fuel as [|fuel IH]; intros k p r store' w' k' Hs; cbn [ask_loop].
  - destruct p as [[r0 s0] w0]. cbn [fst snd] in *.
    destruct r0; try discriminate; intros [= <- <- <- <-];
      (split; [discriminate | exact Hs]).
  - destruct p as [[r0 s0] w0]. cbn [fst snd] in *.
    destruct r0;
      try (intros [= <- <- <- <-]; (split; [discriminate | exact Hs])).
    intros H. apply IH in H; [exact H|].
    now apply resume_keeps_request.
Qed.

(** X7: the command-line loop.  When [ask] returns after a non-blank
    request for which the graph object was built, its result is not an
    interruption, and the checkpoint of the session still holds the
    request as [user_input]: the replies typed at the prompts never
    replace it. *)
Theorem ask_ends_answered_and_keeps_request (env : Env)
    (typed : nat -> pystr -> pystr) (fuel : nat) (q db sid : pystr)
    (store : Store) (w : World) (u : unit)
    (r : ChatResult) (store' : Store) (w' : World) (prompts : nat) :
  blank (Some q) = false ->
  graph_build env (calls SvBuildGraph w) db = inr u ->
  ask env typed fuel (Some q) db sid store w = Some (r, store', w', prompts) ->
  (forall question s, r <> ChatInterrupted question s) /\
  exists c, store' sid = Some c /\ user_input (cp_values c) = q.
Proof.
  intros Hb Hg H. unfold ask in H.
  apply ask_loop_spec with (q := q) in H; [exact H|].
  eapply new_request_kept; eassumption.
Qed.

Lemma ask_ends_answered_and_keeps_request_witness :
  exists r store' w' prompts,
    ask asking_env (fun _ _ => DEMO_QUERY) 5 (Some DEMO_QUERY) DEMO_DB
      DEMO_SESSION empty_store [] = Some (r, store', w', prompts) /\
    prompts = 2 /\
    exists c, store' DEMO_SESSION = Some c /\
              user_input (cp_values c) = DEMO_QUERY.
Proof.
  destruct (ask asking_env (fun _ _ => DEMO_QUERY) 5 (Some DEMO_QUERY) DEMO_DB
              DEMO_SESSION empty_store [])
    as [[[[r store'] w'] prompts]|] eqn:E;
    [|vm_compute in E; discriminate].
  exists r, store', w', prompts. split; [reflexivity|].
  split; [vm_compute in E; congruence|].
  exact (proj2 (@ask_ends_answered_and_keeps_request asking_env
                  (fun _ _ => DEMO_QUERY) 5 DEMO_QUERY DEMO_DB DEMO_SESSION
                  empty_store [] tt r store' w' prompts eq_refl eq_refl E)).
Defined.

(** ** The web front end *)

(** X8: an empty message runs nothing.  When the message is missing or
    consists of white space only, [chat_stream] answers with status 400
    and leaves the waiting flags, the checkpoints, the collaborators and
    the chat history as they were (a browser without a session gets its
    identifier and an empty history); any other message gets an event
    stream. *)
Theorem empty_message_runs_nothing (env : Env) (fresh : pystr)
    (br : Web.Browser) (message : option pystr) (flags : Web.Flags)
    (store : Store) (w : World) :
  let out := Web.chat_stream env fresh br message flags store w in
  match Str.strip (match message with Some m => m | None => [] end) with
  | [] =>
    out = (Web.BadRequest Web.EMPTY_MESSAGE,
           match Web.cookie_session_id br with
           | Some _ => br
           | None => {| Web.cookie_session_id := Some fresh;
                        Web.chat_history := Some [] |}
           end, flags, store, w)
  | _ :: _ => exists events, fst (fst (fst (fst out))) = Web.EventStream events
  end.
Proof.
  cbv zeta. unfold Web.chat_stream. cbv zeta.
  destruct (Str.strip _) as [|c t]; cbn [Str.truthy negb fst snd].
  - reflexivity.
  - eexists. reflexivity.
Qed.

Lemma waiting_set_flag (f : Web.Flags) (sid : pystr) (b : bool) :
  Web.waiting (Web.set_flag f sid b) sid = b.
Proof.
  unfold Web.waiting, Web.set_flag. rewrite str_eqb_refl. now destruct b.
Qed.

(** X9: the waiting flag follows the stream.  After [chat_stream] has
    handled a message that is not empty, the session is marked as
    waiting for input exactly when the events sent contain an interrupt;
    the flags of all other sessions are what they were, and the chat
    history has gained the message, stripped, as its last entry. *)
Theorem waiting_flag_follows_interrupt (env : Env) (fresh sid : pystr)
    (br : Web.Browser) (m : pystr) (flags : Web.Flags)
    (store : Store) (w : World) :
  Web.cookie_session_id br = Some sid ->
  Str.strip m <> [] ->
  let out := Web.chat_stream env fresh br (Some m) flags store w in
  exists events,
    fst (fst (fst (fst out))) = Web.EventStream events /\
    Web.waiting (snd (fst (fst out))) sid
      = List.existsb is_interrupt events /\
    (forall other, other <> sid -> snd (fst (fst out)) other = flags other) /\
    Web.chat_history (snd (fst (fst (fst out))))
      = Some (match Web.chat_history br with Some h => h | None => [] end
              ++ [Str.strip m]).
Proof.
  intros Hs Hm. cbv zeta. unfold Web.chat_stream. cbv zeta.
  repeat (progress (try rewrite Hs; cbv iota)).
  destruct (Str.strip m) as [|c t] eqn:E; [now elim Hm|].
  cbn [Str.truthy negb fst snd Web.chat_history].
  eexists. split; [reflexivity|]. split; [|split; [|reflexivity]].
  - destruct (List.existsb is_interrupt _) eqn:Hi.
    + apply waiting_set_flag.
    + destruct (Web.waiting flags sid) eqn:Hw.
      * apply waiting_set_flag.
      * exact Hw.
  - intros other Hn.
    destruct (List.existsb is_interrupt _);
      destruct (Web.waiting flags sid); unfold Web.set_flag;
      rewrite ?(str_eqb_neq Hn); reflexivity.
Qed.

Lemma waiting_flag_follows_interrupt_witness :
  let out := Web.chat_stream asking_env []
               {| Web.cookie_session_id := Some DEMO_SESSION;
                  Web.chat_history := None |}
               (Some DEMO_QUERY) (fun _ => None) empty_store [] in
  exists events,
    fst (fst (fst (fst out))) = Web.EventStream events /\
    Web.waiting (snd (fst (fst out))) DEMO_SESSION
      = List.existsb is_interrupt events /\
    (forall other, other <> DEMO_SESSION ->
                   snd (fst (fst out)) other = None) /\
    Web.chat_history (snd (fst (fst (fst out))))
      = Some ([] ++ [Str.strip DEMO_QUERY]).
Proof.
  apply (@waiting_flag_follows_interrupt asking_env [] DEMO_SESSION
           {| Web.cookie_session_id := Some DEMO_SESSION;
              Web.chat_history := None |}
           DEMO_QUERY (fun _ => None) empty_store []).
  - reflexivity.
  - vm_compute. discriminate.
Defined.

(** ** White space and reasoning blocks *)

Lemma lstrip_head (s : pystr) (c : N) (r : pystr) :
  Str.lstrip s = c :: r -> Str.isspace c = false.
Proof.
  induction s as [|a s IH]; cbn; [discriminate|].
  destruct (Str.isspace a) eqn:E; [exact IH|].
  intros [= <- _]. exact E.
Qed.

Lemma lstrip_suffix (s : pystr) : exists pre, s = pre ++ Str.lstrip s.
Proof.
  induction s as [|a s [pre IH]]; cbn.
  - now exists [].
  - destruct (Str.isspace a).
    + exists (a :: pre). cbn. now rewrite <- IH.
    + now exists [].
Qed.

Lemma strip_substring (s : pystr) :
  exists pre post, s = pre ++ Str.strip s ++ post.
Proof.
  unfold Str.strip.
  destruct (lstrip_suffix s) as [pre Hpre].
  destruct (lstrip_suffix (List.rev (Str.lstrip s))) as [post Hpost].
  exists pre, (List.rev post).
  rewrite <- rev_app_distr, <- Hpost, rev_involutive. exact Hpre.
Qed.

Lemma strip_trimmed (s : pystr) : trimmed (Str.strip s).
Proof.
  unfold trimmed, Str.strip. rewrite rev_involutive.
  set (t := Str.lstrip s).
  destruct (lstrip_suffix (List.rev t)) as [pre Hpre].
  split.
  - destruct (Str.lstrip (List.rev t)) as [|c u] eqn:Eu; [exact I|].
    assert (Ht : t = List.rev (c :: u) ++ List.rev pre).
    { rewrite <- rev_app_distr, <- Hpre. now rewrite rev_involutive. }
    destruct (List.rev (c :: u)) as [|d v] eqn:Ev.
    + apply (f_equal (@List.length N)) in Ev.
      rewrite length_rev in Ev. discriminate.
    + cbn in Ht. apply (lstrip_head s Ht).
  - destruct (Str.lstrip (List.rev t)) as [|c u] eqn:Eu; [exact I|].
    apply (lstrip_head _ Eu).
Qed.

Lemma contains_false (sub s : pystr) :
  Str.contains sub s = false <->
  forall a b, s = a ++ b -> Str.startswith sub b = false.
Proof.
  induction s as [|c s IH]; cbn [Str.contains].
  - rewrite orb_false_r. split.
    + intros H a b E. symmetry in E. apply app_eq_nil in E as [_ ->]. exact H.
    + intros H. now apply (H [] []).
  - rewrite orb_false_iff, IH. split.
    + intros [H1 H2] [|x a] b E; cbn in E.
      * now subst b.
      * injection E as _ E. now apply (H2 a b).
    + intros H. split.
      * now apply (H [] (c :: s)).
      * intros a b E. apply (H (c :: a) b). cbn. now rewrite E.
Qed.

Lemma contains_substring (sub s pre post : pystr) :
  Str.contains sub (pre ++ s ++ post) = false -> Str.contains sub s = false.
Proof.
  intros H. destruct (Str.contains sub s) eqn:E; [|reflexivity].
  apply contains_spec in E as (a & b & ->).
  assert (Ht : Str.contains sub (pre ++ (a ++ sub ++ b) ++ post) = true).
  { apply contains_spec. exists (pre ++ a), (b ++ post).
    now rewrite <- !app_assoc. }
  congruence.
Qed.

Lemma split_aux_nonempty (sep : pystr) (s : pystr) :
  forall skip cur, Str.split_aux sep skip cur s <> [].
Proof.
  induction s as [|c r IH]; intros skip cur; cbn [Str.split_aux].
  - discriminate.
  - destruct skip; [|apply IH].
    destruct (Str.startswith sep (c :: r)); [discriminate | apply IH].
Qed.

Lemma last_cons_nonempty {A} (x d : A) (l : list A) :
  l <> [] -> last (x :: l) d = last l d.
Proof. destruct l; [congruence | reflexivity]. Qed.

(** The last piece of a split holds no separator. *)
Lemma split_aux_last_free (sep : pystr) :
  sep <> [] ->
  forall s skip cur,
    (forall a b, List.rev cur = a ++ b -> b <> [] ->
                 Str.startswith sep (b ++ skipn skip s) = false) ->
    Str.contains sep (last (Str.split_aux sep skip cur s) []) = false.
Proof.
  intros Hsep. induction s as [|c r IH]; intros skip cur Hinv;
    cbn [Str.split_aux].
  - cbn [last]. apply contains_false. intros a b E.
    destruct b as [|x b].
    + destruct sep; [congruence | reflexivity].
    + specialize (Hinv a (x :: b) E). rewrite skipn_nil, app_nil_r in Hinv.
      apply Hinv. discriminate.
  - destruct skip as [|k].
    + destruct (Str.startswith sep (c :: r)) eqn:Hst.
      * rewrite last_cons_nonempty by apply split_aux_nonempty.
        apply IH. intros a b E Hb. cbn in E.
        symmetry in E. apply app_eq_nil in E as [_ ->]. congruence.
      * apply IH. intros a b E Hb. cbn [skipn]. cbn [List.rev] in E.
        destruct (@exists_last _ b Hb) as (b' & x & ->).
        rewrite app_assoc in E. apply app_inj_tail in E as [E ->].
        rewrite <- app_assoc. cbn [app].
        destruct b' as [|y b'].
        -- exact Hst.
        -- apply (Hinv a (y :: b') E). discriminate.
    + apply IH. intros a b E Hb. apply (Hinv a b E Hb).
Qed.

Lemma split_last_free (sep s : pystr) :
  sep <> [] -> Str.contains sep (Str.split_last sep s) = false.
Proof.
  intros Hsep. unfold Str.split_last, Str.split.
  apply split_aux_last_free; [exact Hsep|].
  intros a b E Hb. cbn in E. symmetry in E.
  apply app_eq_nil in E as [_ ->]. congruence.
Qed.

Lemma strip_free (sub s : pystr) :
  Str.contains sub s = false -> Str.contains sub (Str.strip s) = false.
Proof.
  intros H. destruct (strip_substring s) as (pre & post & E).
  rewrite E in H. exact (contains_substring _ _ _ _ H).
Qed.

Lemma extracted_text_clean (text : pystr) :
  trimmed (_extract_response_text text) /\
  Str.contains THINK_END (_extract_response_text text) = false.
Proof.
  assert (Hne : THINK_END <> []) by discriminate.
  unfold _extract_response_text. cbv zeta. split; [apply strip_trimmed|].
  apply strip_free.
  destruct (Str.contains THINK_END text) eqn:E; [|exact E].
  apply strip_free. now apply split_last_free.
Qed.

(** X10: no reasoning block in an answer.  The answer that the intent
    stage or the report stage leaves in a state that had none has no
    white space at either end and does not contain the end tag of a
    reasoning block, whatever the model replied. *)
Theorem reasoning_block_is_cut (env : Env) (db : pystr) (n : Node)
    (rs : list pystr) (st st' : DeepState) (w w' : World) :
  n = query_intent \/ n = analyzer ->
  answer st = [] ->
  exec env db n rs st w = Ok st' w' ->
  trimmed (answer st') /\ Str.contains THINK_END (answer st') = false.
Proof.
  assert (Hne : THINK_END <> []) by discriminate.
  intros [-> | ->] Ha; cbn [exec].
  - unfold parse_intent, try_except, bind, call, ret, raise.
    destruct (classify_reply env _ _) as [e|response]; [discriminate|].
    pose proof (extracted_text_clean response) as Hc.
    unfold _parse_intent_result. cbv zeta.
    repeat match goal with
           | |- context [if ?b then _ else _] => destruct b
           end;
      intros [= <- _]; cbn; rewrite ?Ha; auto; now split.
  - unfold analyze_data, bind, call, ret.
    rewrite Ha. cbn [Str.truthy].
    destruct (summary_reply env _ _ _); [discriminate|].
    intros [= <- _]. cbn [answer set_answer]. split; [apply strip_trimmed|].
    apply strip_free. now apply split_last_free.
Qed.

Lemma reasoning_block_is_cut_witness :
  trimmed (Str.lit "report") /\
  Str.contains THINK_END (Str.lit "report") = false.
Proof.
  apply (@reasoning_block_is_cut happy_env DEMO_DB analyzer [] demo_state
           (set_answer demo_state (Str.lit "report")) []
           [Call SvSummarize]).
  - right. reflexivity.
  - reflexivity.
  - vm_compute. reflexivity.
Defined.

(** ** Configuration look-up ([data/llm_config_manager.py]) *)

(** X11: the default configuration stands in.  [get_llm_config] and
    [get_embedding_config] return the configuration stored under the
    identifier when there is one and the one stored under "default"
    otherwise; [get_llm] builds its client from that configuration, and
    fails with [AttributeError] exactly when neither is stored. *)
Theorem default_configuration_stands_in (Config Model : Type)
    (build : Config -> pystr + Model) (configs : LlmConfig.Configs Config)
    (config_id : pystr) :
  let chosen :=
    match configs config_id with
    | Some c => Some c
    | None => configs LlmConfig.DEFAULT
    end in
  LlmConfig.get_config configs config_id = chosen /\
  LlmConfig.get_llm build configs config_id =
    match chosen with
    | None => inl LlmConfig.AttributeError
    | Some c =>
      match build c with
      | inr m => inr m
      | inl e =>
        inl (LlmConfig.ConfigurationError (LlmConfig.INIT_FAILED ++ e))
      end
    end.
Proof.
  cbv zeta.
  assert (H : forall k, LlmConfig.get_config configs k =
                        match configs k with
                        | Some c => Some c
                        | None => configs LlmConfig.DEFAULT
                        end).
  { intros k. unfold LlmConfig.get_config.
    destruct (configs k) as [c|] eqn:Ek; [reflexivity|].
    destruct (Str.eqb k LlmConfig.DEFAULT) eqn:E; cbn [negb].
    - apply str_eqb_eq in E. subst k. now rewrite Ek.
    - now destruct (configs LlmConfig.DEFAULT). }
  split; [apply H|].
  unfold LlmConfig.get_llm. cbv zeta. rewrite !H.
  destruct (configs config_id) as [c|]; [reflexivity|].
  now destruct (configs LlmConfig.DEFAULT).
Qed.

Lemma existsb_eqb_in (x : pystr) (l : list pystr) :
  List.existsb (Str.eqb x) l = true -> In x l.
Proof.
  intros H. apply existsb_exists in H as (y & Hy & E).
  apply str_eqb_eq in E. now subst y.
Qed.

Lemma existsb_eqb_out (x : pystr) (l : list pystr) :
  List.existsb (Str.eqb x) l = false -> ~ In x l.
Proof.
  intros H Hin.
  assert (Ht : List.existsb (Str.eqb x) l = true).
  { apply existsb_exists. exists x. split; [exact Hin | apply str_eqb_refl]. }
  congruence.
Qed.

(** X12: what the validators let through.  [validate_api_key] stores
    the key without white space at its ends, and rejects exactly the
    keys that are empty or white space or have "your_" or "placeholder"
    in their lower-case form; [validate_provider] stores the provider in
    lower case and rejects exactly those whose lower-case form is not
    one of the four allowed names; [validate_base_url] stores the URL as
    given and rejects exactly the non-empty ones that start with neither
    "http://" nor "https://". *)
Theorem validators_normalise (lower : pystr -> pystr) (v : pystr) :
  match LlmConfig.validate_api_key lower v with
  | inr key =>
    key = Str.strip v /\ key <> [] /\ trimmed key /\
    Str.contains LlmConfig.YOUR_ (lower v) = false /\
    Str.contains LlmConfig.PLACEHOLDER (lower v) = false
  | inl _ =>
    Str.strip v = [] \/ Str.contains LlmConfig.YOUR_ (lower v) = true
    \/ Str.contains LlmConfig.PLACEHOLDER (lower v) = true
  end /\
  match LlmConfig.validate_provider lower v with
  | inr provider =>
    provider = lower v /\ In provider LlmConfig.ALLOWED_PROVIDERS
  | inl _ => ~ In (lower v) LlmConfig.ALLOWED_PROVIDERS
  end /\
  match LlmConfig.validate_base_url (Some v) with
  | inr u =>
    u = Some v /\
    (v = [] \/ Str.startswith LlmConfig.HTTP v = true
     \/ Str.startswith LlmConfig.HTTPS v = true)
  | inl _ =>
    v <> [] /\ Str.startswith LlmConfig.HTTP v = false /\
    Str.startswith LlmConfig.HTTPS v = false
  end.
Proof.
  split; [|split].
  - unfold LlmConfig.validate_api_key.
    destruct (negb (Str.truthy v) || Str.eqb (Str.strip v) []) eqn:E1.
    { left. apply orb_true_iff in E1 as [E1|E1].
      - destruct v; [reflexivity | discriminate].
      - now apply str_eqb_eq. }
    apply orb_false_iff in E1 as [_ E1].
    destruct (Str.contains LlmConfig.YOUR_ (lower v)) eqn:E2;
      cbn [orb]; [auto|].
    destruct (Str.contains LlmConfig.PLACEHOLDER (lower v)) eqn:E3; [auto|].
    split; [reflexivity|]. split.
    + intros H. rewrite H in E1. discriminate.
    + split; [apply strip_trimmed | now split].
  - unfold LlmConfig.validate_provider.
    destruct (List.existsb _ _) eqn:E.
    + split; [reflexivity | now apply existsb_eqb_in].
    + now apply existsb_eqb_out.
  - unfold LlmConfig.validate_base_url.
    destruct v as [|c v]; cbn [Str.truthy andb]; [auto|].
    destruct (Str.startswith LlmConfig.HTTP (c :: v)) eqn:E1; cbn [orb negb].
    { split; [reflexivity | auto]. }
    destruct (Str.startswith LlmConfig.HTTPS (c :: v)) eqn:E2; cbn [negb].
    { split; [reflexivity | auto]. }
    split; [discriminate | now split].
Qed.

(** ** Connections and table schemas ([data/database_manager.py]) *)

Lemma put_same {A} (m : pystr -> option A) (k : pystr) (v : A) :
  Db.put m k v k = Some v.
Proof. unfold Db.put. now rewrite str_eqb_refl. Qed.

Lemma put_other {A} (m : pystr -> option A) (k k' : pystr) (v : A) :
  k' <> k -> Db.put m k v k' = m k'.
Proof. intros H. unfold Db.put. now rewrite str_eqb_neq. Qed.

Lemma get_engine_inv (Engine Schemas : Type) (quote_plus : pystr -> pystr)
    (create_engine : pystr -> Db.Error + Engine)
    (m m' : Db.Manager Engine Schemas) (database_id : pystr)
    (engine : option Engine) :
  Db.get_engine quote_plus create_engine m database_id = inr (engine, m') ->
  Db.databases m' = Db.databases m /\ Db.schemas m' = Db.schemas m /\
  match engine with
  | Some e =>
    Db.connections m' database_id = Some e /\
    forall other, other <> database_id ->
                  Db.connections m' other = Db.connections m other
  | None =>
    m' = m /\ Db.connections m database_id = None /\
    exists c, Db.databases m database_id = Some c /\
              Db.type c <> Db.SQLITE /\ Db.type c <> Db.MYSQL
  end.
Proof.
  unfold Db.get_engine.
  destruct (Db.connections m database_id) as [e|] eqn:Ec.
  { intros [= <- <-]. repeat split; auto. }
  destruct (Db.databases m database_id) as [c|] eqn:Ed; [|discriminate].
  destruct (Str.eqb (Db.type c) Db.SQLITE) eqn:E1.
  { destruct (create_engine _) as [e|conn]; [discriminate|].
    intros [= <- <-]. cbn. repeat split; auto.
    - apply put_same.
    - intros other Hn. now apply put_other. }
  destruct (Str.eqb (Db.type c) Db.MYSQL) eqn:E2.
  { destruct (create_engine _) as [e|conn]; [discriminate|].
    intros [= <- <-]. cbn. repeat split; auto.
    - apply put_same.
    - intros other Hn. now apply put_other. }
  intros [= <- <-]. repeat split; auto.
  exists c. split; [reflexivity|].
  split; intros H; rewrite H in *; discriminate.
Qed.

(** X13: one engine per database.  Once [get_engine] has returned an
    engine for a database, every later call for that database returns
    the same engine without making one, whatever [create_engine] would
    do then, and changes nothing; the first call registers the engine
    for that database only and leaves the configurations and the cached
    schemas alone. *)
Theorem engine_is_made_once (Engine Schemas : Type)
    (quote_plus : pystr -> pystr)
    (create_engine create_engine' : pystr -> Db.Error + Engine)
    (m m' : Db.Manager Engine Schemas) (database_id : pystr) (e : Engine) :
  Db.get_engine quote_plus create_engine m database_id = inr (Some e, m') ->
  Db.get_engine quote_plus create_engine' m' database_id = inr (Some e, m') /\
  Db.databases m' = Db.databases m /\ Db.schemas m' = Db.schemas m /\
  forall other, other <> database_id ->
                Db.connections m' other = Db.connections m other.
Proof.
  intros H. apply get_engine_inv in H as (H1 & H2 & H3 & H4).
  split; [|auto].
  unfold Db.get_engine. now rewrite H3.
Qed.

Lemma engine_is_made_once_witness :
  Db.get_engine (fun p => p) (fun _ => inl (Db.LibraryError []))
    (Db.with_connection demo_manager DEMO_DB (Db.sqlite_url DEMO_SQLITE))
    DEMO_DB
  = inr (Some (Db.sqlite_url DEMO_SQLITE),
         Db.with_connection demo_manager DEMO_DB (Db.sqlite_url DEMO_SQLITE)).
Proof.
  exact (proj1 (@engine_is_made_once pystr unit (fun p => p)
                  (fun url => inr url) (fun _ => inl (Db.LibraryError []))
                  demo_manager
                  (Db.with_connection demo_manager DEMO_DB
                     (Db.sqlite_url DEMO_SQLITE))
                  DEMO_DB (Db.sqlite_url DEMO_SQLITE) eq_refl)).
Defined.

(** X14: schemas are read once.  Once [get_table_schemas] has returned
    the schemas of a database, every later call returns the same schemas
    and changes nothing, whatever the libraries would do then.  When it
    raises instead, the cached schemas and the configurations are what
    they were, and so are the engines of all other databases. *)
Theorem schemas_are_read_once (Engine Schemas : Type)
    (quote_plus : pystr -> pystr)
    (create_engine create_engine' : pystr -> Db.Error + Engine)
    (introspect introspect' :
       Db.DatabaseConfig -> option Engine -> Db.Error + Schemas)
    (m : Db.Manager Engine Schemas) (database_id : pystr) :
  let out := Db.get_table_schemas quote_plus create_engine introspect
               m database_id in
  match fst out with
  | inr s =>
    Db.get_table_schemas quote_plus create_engine' introspect'
      (snd out) database_id = (inr s, snd out)
  | inl _ =>
    Db.schemas (snd out) = Db.schemas m /\
    Db.databases (snd out) = Db.databases m /\
    forall other, other <> database_id ->
                  Db.connections (snd out) other = Db.connections m other
  end.
Proof.
  cbv zeta. unfold Db.get_table_schemas.
  destruct (Db.schemas m database_id) as [s|] eqn:Es; cbn [fst snd].
  { now rewrite Es. }
  destruct (Db.get_engine quote_plus create_engine m database_id)
    as [e|[engine m1]] eqn:Eg; cbn [fst snd]; [auto|].
  apply get_engine_inv in Eg as (H1 & H2 & H3).
  assert (H4 : forall other, other <> database_id ->
                 Db.connections m1 other = Db.connections m other).
  { destruct engine as [e|]; [apply H3|].
    destruct H3 as [-> _]. reflexivity. }
  destruct (Db.databases m1 database_id) as [c|] eqn:Ed; cbn [fst snd];
    [|auto].
  destruct (Str.eqb (Db.type c) Db.MYSQL || Str.eqb (Db.type c) Db.SQLITE);
    cbn [fst snd]; [|auto].
  destruct (introspect c engine) as [e|s]; cbn [fst snd]; [auto|].
  cbn. now rewrite put_same.
Qed.

(** ** The column index ([data/knowledge_manager.py]) *)

(** X15: the rows of [add_column].  When [add_column] reaches its
    insert, it inserts one row per column, in the order given and under
    the identifiers given, and no row has an empty comment: a missing or
    empty comment is stored as "null". *)
Theorem add_column_rows (Vector : Type) (get_milvus_client : option pystr)
    (get_embedding : pystr -> pystr + Vector)
    (columns : list (Z * option pystr)) (rows : list (Z * pystr * Vector)) :
  Knowledge.add_column get_milvus_client get_embedding columns = inr rows ->
  List.map (fun r => fst (fst r)) rows = List.map fst columns /\
  Forall (fun r => snd (fst r) <> []) rows.
Proof.
  unfold Knowledge.add_column.
  destruct get_milvus_client; [discriminate|].
  revert rows. induction columns as [|[i c] columns IH]; intros rows;
    cbn [Knowledge.column_rows].
  - intros [= <-]. split; constructor.
  - cbv zeta.
    set (comment := match c with
                    | Some c0 => if Str.truthy c0 then c0
                                 else Knowledge.NULL_COMMENT
                    | None => Knowledge.NULL_COMMENT
                    end).
    assert (Hc : comment <> []).
    { unfold comment. destruct c as [[|x c]|]; cbn; discriminate. }
    destruct (get_embedding comment) as [e|v]; [discriminate|].
    destruct (Knowledge.column_rows get_embedding columns) as [e|data];
      [discriminate|].
    intros [= <-]. destruct (IH data eq_refl) as [H1 H2].
    split; [cbn; now rewrite H1 | now constructor].
Qed.

Lemma add_column_rows_witness :
  List.map (fun r => fst (fst r)) [(7%Z, Knowledge.NULL_COMMENT, tt)] = [7%Z] /\
  Forall (fun r : Z * pystr * unit => snd (fst r) <> [])
    [(7%Z, Knowledge.NULL_COMMENT, tt)].
Proof.
  exact (@add_column_rows unit None (fun _ => inr tt) [(7%Z, Some [])]
           [(7%Z, Knowledge.NULL_COMMENT, tt)] eq_refl).
Defined.

(** ** Attributes no stage assigns *)

(** X16: the table list stays empty.  In a run begun by a new request,
    [tables] is the empty list in every state the run goes through and
    in the state it stops with, because no stage assigns it; so
    [search_sql], given the [tables] of any of these states, returns the
    empty list without searching. *)
Theorem tables_stay_empty (env : Env) (limit : nat) (store : Store)
    (q db sid : pystr) (w : World) (Hit : Type)
    (bm25_search : pystr -> pystr + list Hit) :
  let r := start env limit store q db sid w in
  tables (final_values (final r)) = [] /\
  Forall (fun u => tables (snd u) = [] /\
                   Knowledge.search_sql None bm25_search (tables (snd u))
                   = inr [])
    (updates r).
Proof.
  cbv zeta. unfold start.
  destruct (@run_preserves env db (fun a b => tables b = tables a))
    with (fuel := limit) (n := query_intent) (rs := @nil pystr)
         (st := initial_state (store sid) q db sid) (w := w)
    as [H1 H2].
  - auto.
  - intros a b c A B. congruence.
  - intros n rs s w0 s' w' H.
    destruct (exec_frame _ _ _ _ _ _ H) as ((_ & _ & _ & E & _) & _). exact E.
  - split; [exact H1|].
    eapply Forall_impl; [|exact H2]. cbn. intros u ->. auto.
Qed.

(** ** A result left on the thread *)

Lemma repair_entries_enter (n : Node) (w w' : World) :
  entered w' = entered (Enter n :: w) ->
  repair_entries w' =
  repair_entries w + match n with sql_fix => 1 | _ => 0 end.
Proof.
  intros H. unfold repair_entries. rewrite H. cbn [entered].
  rewrite filter_app, length_app. now destruct n.
Qed.

(** The repair stage hands on a result when it was given one. *)
Lemma fix_keeps_result (env : Env) (db : pystr) (rs : list pystr)
    (st st' : DeepState) (w w' : World) :
  renders_tables env ->
  query_data st <> [] ->
  exec env db sql_fix rs st w = Ok st' w' ->
  query_data st' <> [].
Proof.
  intros Hr Hq. cbn [exec]. unfold fix_sql, bind, ret.
  destruct (fix_sql_traced env db st w) as [[tag s] w0| |] eqn:Ht;
    try discriminate.
  intros [= <- <-]. revert Ht.
  unfold fix_sql_traced, bind, call, call_caught, ret.
  destruct (Str.truthy (answer st)).
  { intros [= _ <- _]. exact Hq. }
  destruct (db_engine env _ _); [discriminate|].
  destruct (read_sql env _ _) as [err|table] eqn:Er.
  - destruct (_ >? _)%Z.
    { intros [= _ <- _]. exact Hq. }
    destruct (repair_reply env _ _ _ _); [discriminate|].
    destruct (Str.contains _ _); [|destruct (Str.startswith _ _)];
      intros [= _ <- _]; exact Hq.
  - apply Hr in Er.
    destruct (IntentType_eqb _ _); intros [= _ <- _]; exact Er.
Qed.

Lemma stale_run (env : Env) (db : pystr) :
  renders_tables env ->
  forall fuel n rs st w,
    query_data st <> [] ->
    repair_entries (world (run env db fuel n rs st w))
    <= repair_entries w + match n with analyzer => 0 | _ => 1 end.
Proof.
  intros Hr. induction fuel as [|fuel IH]; intros n rs st w Hq; cbn [run].
  - cbn [world]. lia.
  - pose proof (exec_quiet env db n rs st (Enter n :: w)) as Hw.
    destruct (exec env db n rs st (Enter n :: w)) as [st' w'| |] eqn:He;
      cbn [res_world] in Hw; apply repair_entries_enter in Hw;
      cbn [world].
    2,3: destruct n; lia.
    assert (Hq' : query_data st' <> []).
    { destruct (Node_eq_dec_sql_fix n) as [->|Hn].
      - eapply fix_keeps_result; eassumption.
      - destruct (exec_frame _ _ _ _ _ _ He) as (_ & _ & _ & E).
        rewrite (E Hn). exact Hq. }
    destruct n; cbn [route]; cbn [world].
    + unfold intent_path. destruct (IntentType_eqb _ _); cbn [world]; [lia|].
      specialize (IH query_analyze [] st' w' Hq'). cbn in IH. lia.
    + unfold analyze_path_map. destruct (get_user_question st'); cbn [world].
      * specialize (IH table_search [] st' w' Hq'). cbn in IH. lia.
      * specialize (IH query_analyze [] st' w' Hq'). cbn in IH. lia.
    + specialize (IH sql_coder [] st' w' Hq'). cbn in IH. lia.
    + specialize (IH sql_fix [] st' w' Hq'). cbn in IH. lia.
    + unfold fix_path. destruct (query_data st') eqn:E; [congruence|].
      cbn [Str.truthy]. destruct (IntentType_eqb _ _); cbn [world]; [|lia].
      specialize (IH analyzer [] st' w').
      rewrite E in IH. specialize (IH Hq'). cbn in IH. lia.
    + lia.
Qed.

(** X17: a result left on the thread ends the repair loop.  A new
    request on a thread whose checkpoint holds a non-empty [query_data]
    enters the repair stage at most once, whether its SQL runs or not
    (every successful execution rendering a non-empty table): the
    router takes the old result for the result of this request. *)
Theorem stale_result_stops_repair (env : Env) (limit : nat) (store : Store)
    (q db sid : pystr) (w : World) (c : Checkpoint) :
  renders_tables env ->
  store sid = Some c ->
  query_data (cp_values c) <> [] ->
  repair_entries (world (start env limit store q db sid w))
  <= repair_entries w + 1.
Proof.
  intros Hr Hc Hq. unfold start.
  apply (@stale_run env db Hr limit query_intent).
  cbn [initial_state query_data]. now rewrite Hc.
Qed.

Lemma stale_result_stops_repair_witness :
  repair_entries
    (world (start failing_env 25 empty_store DEMO_QUERY DEMO_DB
              DEMO_SESSION [])) = 21 /\
  repair_entries
    (world (start failing_env 25 stale_store DEMO_QUERY DEMO_DB
              DEMO_SESSION [])) <= 0 + 1.
Proof.
  split; [vm_compute; reflexivity|].
  apply (@stale_result_stops_repair failing_env 25 stale_store DEMO_QUERY
           DEMO_DB DEMO_SESSION []
           {| cp_values := set_query_data demo_state DEMO_TABLE;
              cp_next := None |} failing_env_renders).
  - reflexivity.
  - discriminate.
Defined.

(** ** A classifier that fails *)

Lemma run_classifier_down (env : Env) (db : pystr) (fuel : nat)
    (st : DeepState) (w : World) (e : Exn) :
  classify_reply env (calls SvClassify w) (user_input st) = inl e ->
  run env db (S fuel) query_intent [] st w =
  {| updates := [];
     final := Crashed (LLMServiceError (INTENT_FAILED ++ exn_str e)) st
                query_intent [];
     world := Call SvClassify :: Enter query_intent :: w |}.
Proof.
  intros Hc. cbn [run exec].
  unfold parse_intent, try_except, bind, call, raise.
  cbn [calls]. now rewrite Hc.
Qed.

(** X18: a failing classifier ends the call.  When the first call of the
    classifier raises, [process_chat] raises [LLMServiceError] with the
    text of that exception after a fixed prefix; only the intent stage
    was entered, and the checkpoint of the session holds the initial
    state of the request, pending at the intent stage. *)
Theorem classifier_failure_is_wrapped (env : Env) (q db sid : pystr)
    (store : Store) (w : World) (u : unit) (e : Exn) :
  blank (Some q) = false ->
  graph_build env (calls SvBuildGraph w) db = inr u ->
  classify_reply env (calls SvClassify w) q = inl e ->
  process_chat env (Some q) db sid None store w =
  (ChatRaised (LLMServiceError (INTENT_FAILED ++ exn_str e)),
   store_put store sid
     {| cp_values := initial_state (store sid) q db sid;
        cp_next := Some (query_intent, []) |},
   Call SvClassify :: Enter query_intent :: Call SvBuildGraph :: w).
Proof.
  intros Hb Hg Hc. unfold process_chat. cbv zeta. rewrite Hg, Hb.
  unfold start, DEFAULT_RECURSION_LIMIT.
  rewrite (@run_classifier_down env db 24
             (initial_state (store sid) q db sid) (Call SvBuildGraph :: w) e)
    by exact Hc.
  reflexivity.
Qed.

Lemma classifier_failure_is_wrapped_witness :
  process_chat classifier_down_env (Some DEMO_QUERY) DEMO_DB DEMO_SESSION
    None empty_store [] =
  (ChatRaised
     (LLMServiceError
        (INTENT_FAILED ++ exn_str (ServiceError SvClassify TIMEOUT))),
   store_put empty_store DEMO_SESSION
     {| cp_values :=
          initial_state (empty_store DEMO_SESSION) DEMO_QUERY DEMO_DB
            DEMO_SESSION;
        cp_next := Some (query_intent, []) |},
   [Call SvClassify; Enter query_intent; Call SvBuildGraph]).
Proof.
  apply (@classifier_failure_is_wrapped classifier_down_env DEMO_QUERY
           DEMO_DB DEMO_SESSION empty_store [] tt
           (ServiceError SvClassify TIMEOUT)).
  - vm_compute. reflexivity.
  - reflexivity.
  - reflexivity.
Defined.

(** ** Questions *)

Lemma clarify_asks_listed (qs rs : list pystr) (st : DeepState) (w w' : World)
    (q : pystr) :
  clarify qs rs st w = Susp q w' -> In q qs.
Proof.
  revert rs st. induction qs as [|x qs IH]; intros rs st; cbn [clarify].
  - discriminate.
  - unfold bind, interrupt. destruct rs as [|v rs].
    + intros [= <- _]. now left.
    + cbn [fst snd]. intros H. right. eapply IH. exact H.
Qed.

(** Only the analysis stage suspends, and with an open topic. *)
Lemma exec_suspends (env : Env) (db : pystr) (n : Node) (rs : list pystr)
    (st : DeepState) (w w' : World) (q : pystr) :
  exec env db n rs st w = Susp q w' ->
  n = query_analyze /\ In (q, None) (intent_ambiguous st).
Proof.
  destruct n; cbn [exec].
  - unfold parse_intent, try_except, bind, call, ret, raise.
    destruct (classify_reply env _ _); [discriminate|].
    destruct (_parse_intent_result env _) as [[] [a|]];
      try destruct (Str.truthy a); discriminate.
  - unfold analyze_query, bind, call, ret.
    destruct (table_schemas env _ _) as [e|[schema|]]; try discriminate.
    destruct (clarify _ _ _ _) as [st1 w1|q1 w1|] eqn:Hc; try discriminate.
    + destruct (analyze_reply env _ _ _ _); discriminate.
    + intros [= <- _]. split; [reflexivity|].
      apply clarify_asks_listed in Hc.
      rewrite get_user_question_unresolved in Hc.
      now apply unresolved_in.
  - unfold search, bind, call, ret.
    destruct (Str.truthy (answer st)); [discriminate|].
    destruct (search_reply env _ _); [discriminate|].
    destruct (Str.startswith _ _); [|discriminate].
    destruct (field_lookup env _ _) as [e|[]]; discriminate.
  - unfold code_sql, bind, call, ret.
    destruct (Str.truthy (answer st)); [discriminate|].
    destruct (sql_history env _ _); [discriminate|].
    destruct (query_history env _ _); [discriminate|].
    destruct (coder_reply env _ _ _ _ _); [discriminate|].
    destruct (_ && _); discriminate.
  - unfold fix_sql, fix_sql_traced, bind, call, call_caught, ret.
    destruct (Str.truthy (answer st)); [discriminate|].
    destruct (db_engine env _ _); [discriminate|].
    destruct (read_sql env _ _).
    + destruct (_ >? _)%Z; [discriminate|].
      destruct (repair_reply env _ _ _ _); [discriminate|].
      destruct (Str.contains _ _); [|destruct (Str.startswith _ _)];
        discriminate.
    + destruct (IntentType_eqb _ _); discriminate.
  - unfold analyze_data, bind, call, ret.
    destruct (Str.truthy (answer st)); [discriminate|].
    destruct (summary_reply env _ _ _); discriminate.
Qed.

Lemma run_suspends (env : Env) (db : pystr) (fuel : nat) :
  forall n rs st w q v n' rs',
    final (run env db fuel n rs st w) = Interrupted q v n' rs' ->
    n' = query_analyze /\ In (q, None) (intent_ambiguous v).
Proof.
  induction fuel as [|fuel IH]; intros n rs st w q v n' rs'; cbn [run].
  - discriminate.
  - destruct (exec env db n rs st (Enter n :: w)) as [st' w'|q1 w'|] eqn:He.
    + destruct (route n st') as [n1|]; cbn [final]; [apply IH | discriminate].
    + cbn [final]. intros [= <- <- <- <-].
      eapply exec_suspends. exact He.
    + discriminate.
Qed.

(** X19: what is asked is an open topic.  When [process_chat] reports an
    interruption, the question is a topic that the checkpoint of the
    session holds without a value, and the run is pending at the
    analysis stage: no other stage asks. *)
Theorem question_is_an_open_topic (env : Env) (query : option pystr)
    (db sid : pystr) (resume_input : option pystr) (store : Store) (w : World)
    (question s : pystr) :
  fst (fst (process_chat env query db sid resume_input store w))
    = ChatInterrupted question s ->
  exists c rs,
    snd (fst (process_chat env query db sid resume_input store w)) sid = Some c /\
    cp_next c = Some (query_analyze, rs) /\
    In (question, None) (intent_ambiguous (cp_values c)).
Proof.
  assert (Hres : forall r : Run,
            (forall q v n rs, final r = Interrupted q v n rs ->
               n = query_analyze /\ In (q, None) (intent_ambiguous v)) ->
            chat_result sid (final r) = ChatInterrupted question s ->
            exists rs, cp_next (checkpoint_of (final r))
                       = Some (query_analyze, rs) /\
                       In (question, None)
                         (intent_ambiguous (cp_values (checkpoint_of (final r))))).
  { intros r Hr. destruct (final r) as [v|q v n rs|e v n rs]; cbn;
      try destruct (Str.truthy (answer v)); try discriminate.
    intros [= <- <-]. destruct (Hr q v n rs eq_refl) as [-> Hin].
    exists rs. auto. }
  unfold process_chat, resume. cbv zeta.
  destruct (graph_build env _ _); cbn [fst snd]; [discriminate|].
  destruct resume_input as [v|].
  - destruct (store sid) as [c|]; cbn [fst snd]; [|discriminate].
    intros H. apply Hres in H.
    + destruct H as (rs & H1 & H2). eexists. exists rs.
      split; [apply store_put_same | auto].
    + destruct (cp_next c) as [[n rs]|]; [|discriminate].
      intros q0 v0 n0 rs0. apply run_suspends.
  - destruct (blank query); cbn [fst snd]; [discriminate|].
    intros H. apply Hres in H.
    + destruct H as (rs & H1 & H2). eexists. exists rs.
      split; [apply store_put_same | auto].
    + intros q0 v0 n0 rs0. apply run_suspends.
Qed.

Lemma question_is_an_open_topic_witness :
  exists c rs,
    snd (fst (process_chat asking_env (Some DEMO_QUERY) DEMO_DB DEMO_SESSION
                None empty_store [])) DEMO_SESSION = Some c /\
    cp_next c = Some (query_analyze, rs) /\
    In (TOPIC_METRIC, None) (intent_ambiguous (cp_values c)).
Proof.
  apply (@question_is_an_open_topic asking_env (Some DEMO_QUERY) DEMO_DB
           DEMO_SESSION None empty_store [] TOPIC_METRIC DEMO_SESSION).
  vm_compute. reflexivity.
Defined.

(** ** The order of the stages *)

Lemma route_precedes (n n' : Node) (st : DeepState) :
  route n st = Goto n' -> precedes n n'.
Proof.
  unfold precedes.
  destruct n; cbn [route]; unfold intent_path, analyze_path_map, fix_path.
  - destruct (IntentType_eqb _ _); [discriminate|]. intros [= <-]. cbn. lia.
  - destruct (get_user_question st); intros [= <-]; cbn; [lia|].
    right. auto.
  - intros [= <-]. cbn. lia.
  - intros [= <-]. cbn. lia.
  - destruct (Str.truthy _); [destruct (IntentType_eqb _ _)|];
      try discriminate; intros [= <-]; cbn; [lia|]. right. auto.
  - discriminate.
Qed.

Lemma precedes_trans (a b c : Node) :
  precedes a b -> (c = b \/ precedes b c) -> precedes a c.
Proof.
  unfold precedes. intros [H1|[-> H1]] [->|[H2|[<- H2]]]; auto; left; lia.
Qed.

(** X20: the stages come in the order of the graph.  In the sequence of
    stages a run completes, a stage is followed only by stages that come
    later in the order intent, analysis, search, SQL writer, repair,
    report, or by itself when it is the analysis or the repair stage:
    every other stage runs at most once, and none runs again after a
    later one has. *)
Theorem stages_run_in_graph_order (env : Env) (db : pystr) (fuel : nat)
    (n : Node) (rs : list pystr) (st : DeepState) (w : World) :
  StronglySorted precedes
    (List.map fst (updates (run env db fuel n rs st w))).
Proof.
  enough (H : StronglySorted precedes
                (List.map fst (updates (run env db fuel n rs st w))) /\
              Forall (fun x => x = n \/ precedes n x)
                (List.map fst (updates (run env db fuel n rs st w))))
    by apply H.
  revert n rs st w. induction fuel as [|fuel IH]; intros n rs st w; cbn [run].
  - cbn. split; constructor.
  - destruct (exec env db n rs st (Enter n :: w)) as [st' w'| |];
      try (cbn; split; constructor).
    destruct (route n st') as [n'|] eqn:Hr; cbn [updates List.map fst].
    + apply route_precedes in Hr. destruct (IH n' [] st' w') as [H1 H2].
      assert (H3 : Forall (precedes n)
                     (List.map fst (updates (run env db fuel n' [] st' w')))).
      { eapply Forall_impl; [|exact H2]. cbn. intros x Hx.
        eapply precedes_trans; eassumption. }
      split; constructor; auto.
      eapply Forall_impl; [|exact H3]. cbn. auto.
    + split; repeat constructor.
Qed.
